(** * Meeting-note transcriber: a shallow embedding of the transcription
      pipeline, the Gemini service wrapper and the IndexedDB recording store.

    Sources embedded here:
    - [types.ts]                      the data model;
    - [services/dbService.ts]         [addRecording], [getRecording],
                                      [updateRecording], [deleteRecording],
                                      [getAllRecordingsMetadata], and the
                                      store of audio fragments
                                      ([addAudioChunk], [getAudioChunks],
                                      [clearAudioChunks]);
    - [services/geminiService.ts]     [withTimeout], [transcribeAudio],
                                      [formatNotes];
    - [App] (the component holding [processRecording],
      [createAndProcessRecording], [handleRetryTranscription],
      [handleRetryChunkTranscription], [handleGenerateNotes], the handlers
      of the list of saved recordings, of pasted text and of typed notes,
      the selection of templates and the two edit-and-update-vocabulary
      handlers);
    - [TranscriptDisplay], [EditTranscriptModal], [NotePreview] and
      [VocabularyModal]: the handlers that feed the ones above.

    Conventions.
    - A JavaScript string is the list of its UTF-16 code units.
    - A JavaScript [number] that the code only uses as an integer (sizes,
      offsets, ids, indices) is a [Z]; the progress of a run, the one
      number computed through a fraction, is computed on doubles.
    - Asynchronous code is sequential here: every [await] is a monadic bind
      over the world (database, React state, remote call log); a rejected
      promise is a thrown value. *)

From Stdlib Require Import ZArith NArith List String Ascii Lia Bool Btauto
  DecimalString.
From Stdlib Require Floats.PrimFloat Floats.FloatOps Floats.SpecFloat
  Numbers.Cyclic.Int63.Uint63.
From stdpp Require Import base option list gmap sorting.

Set Default Proof Using "Type".

(* ===================================================================== *)
(** * JavaScript strings                                                  *)
(* ===================================================================== *)

Module JS.

(** A string is a sequence of UTF-16 code units. *)
Definition jsstring : Type := list N.

(** ASCII literals of the source, written as Rocq strings. *)
Definition lit (s : String.string) : jsstring :=
  List.map N_of_ascii (list_ascii_of_string s).

(** The double-quote character, U+0022. *)
Definition dquote : jsstring := [34%N].

(** [WhiteSpace] and [LineTerminator] code units, the ones
    [String.prototype.trim] strips. *)
Definition isWhiteSpace (c : N) : bool :=
  (  (c =? 9) || (c =? 10) || (c =? 11) || (c =? 12) || (c =? 13)
  || (c =? 32) || (c =? 160) || (c =? 5760)
  || ((8192 <=? c) && (c <=? 8202))
  || (c =? 8232) || (c =? 8233) || (c =? 8239) || (c =? 8287)
  || (c =? 12288) || (c =? 65279))%N.

Fixpoint trimStart (s : jsstring) : jsstring :=
  match s with
  | c :: s' => if isWhiteSpace c then trimStart s' else s
  | [] => []
  end.

Definition trimEnd (s : jsstring) : jsstring := rev (trimStart (rev s)).

Definition trim (s : jsstring) : jsstring := trimEnd (trimStart s).

(** Truthiness of a string: non-empty. *)
Definition truthy (s : jsstring) : bool :=
  match s with [] => false | _ :: _ => true end.

Definition eqb (a b : jsstring) : bool := bool_decide (a = b).

(** [isPrefix p s]: [s] starts with [p]. *)
Fixpoint isPrefix (p s : jsstring) : bool :=
  match p, s with
  | [], _ => true
  | _ :: _, [] => false
  | a :: p', b :: s' => (a =? b)%N && isPrefix p' s'
  end.

(** [s.includes(sub)]. *)
Fixpoint includes (s sub : jsstring) : bool :=
  isPrefix sub s ||
  match s with
  | [] => false
  | _ :: s' => includes s' sub
  end.

(** [s.split(sep)[0]] for a one-unit separator: the part before its first
    occurrence, the whole string when it does not occur. *)
Fixpoint splitFirst (sep : N) (s : jsstring) : jsstring :=
  match s with
  | [] => []
  | c :: s' => if (c =? sep)%N then [] else c :: splitFirst sep s'
  end.

(** Clamp an integer argument to [0, len], as [substring] does. *)
Definition clampIndex (len : nat) (i : Z) : nat :=
  Z.to_nat (Z.min (Z.max i 0) (Z.of_nat len)).

(** [s.substring(a, b)]: both arguments clamped, swapped when out of order. *)
Definition substring (s : jsstring) (a b : Z) : jsstring :=
  let from := Nat.min (clampIndex (length s) a) (clampIndex (length s) b) in
  let to := Nat.max (clampIndex (length s) a) (clampIndex (length s) b) in
  take (to - from) (drop from s).

(** [s.substring(a)]: to the end of the string. *)
Definition substringFrom (s : jsstring) (a : Z) : jsstring :=
  substring s a (Z.of_nat (length s)).

(** [arr.join(sep)]. *)
Fixpoint join (sep : jsstring) (parts : list jsstring) : jsstring :=
  match parts with
  | [] => []
  | [p] => p
  | p :: rest => p ++ sep ++ join sep rest
  end.

End JS.

Abbreviation jsstring := JS.jsstring.

(** Values that can be thrown or used to reject a promise: [Error] objects
    and bare strings (dbService rejects with string literals). *)
Inductive JsThrown : Type :=
  | ErrorObj (message : jsstring)
  | StringVal (s : jsstring).

(** [e instanceof Error]. *)
Definition instanceofError (e : JsThrown) : bool :=
  match e with ErrorObj _ => true | StringVal _ => false end.

(** [e.message]: [undefined] on a string. *)
Definition message (e : JsThrown) : option jsstring :=
  match e with ErrorObj m => Some m | StringVal _ => None end.

(** A value interpolated in a template literal; [undefined] prints as such. *)
Definition interpolate (v : option jsstring) : jsstring :=
  match v with Some s => s | None => JS.lit "undefined" end.

(** [e instanceof Error ? e.message : String(e)]. *)
Definition errorMessageOf (e : JsThrown) : jsstring :=
  match e with ErrorObj m => m | StringVal s => s end.

(* ===================================================================== *)
(** * types.ts                                                            *)
(* ===================================================================== *)

Inductive RecordingStatus : Type :=
  | RS_new | RS_transcribing | RS_completed | RS_failed.

Inductive ChunkStatus : Type :=
  | CS_processing | CS_completed | CS_failed.

#[global] Instance RecordingStatus_eq_dec : EqDecision RecordingStatus.
Proof. solve_decision. Defined.

#[global] Instance ChunkStatus_eq_dec : EqDecision ChunkStatus.
Proof. solve_decision. Defined.

Module TranscriptChunk.
Record t : Type := mk {
  index : Z;
  content : jsstring;
  status : ChunkStatus
}.
(** [{ ...c, status: s }] *)
Definition withStatus (c : t) (s : ChunkStatus) : t :=
  mk (index c) (content c) s.
(** [{ ...c, content: x }] *)
Definition withContent (c : t) (x : jsstring) : t :=
  mk (index c) x (status c).
(** [{ ...c, content: x, status: s }] *)
Definition withContentStatus (c : t) (x : jsstring) (s : ChunkStatus) : t :=
  mk (index c) x s.
End TranscriptChunk.

Abbreviation TranscriptChunk := TranscriptChunk.t.

(** A [Blob]: immutable bytes together with a MIME type. *)
Module Blob.
Record t : Type := mk {
  bytes : list Byte.byte;
  type : jsstring
}.
Definition size (b : t) : Z := Z.of_nat (length (bytes b)).

(** Relative offset of [Blob.slice]: negative arguments count from the
    end, everything is clamped to [0, size]. *)
Definition relative (sz i : Z) : Z :=
  if (i <? 0)%Z then Z.max (sz + i) 0 else Z.min i sz.

(** [b.slice(start, end, contentType)]. *)
Definition slice (b : t) (start end_ : Z) (contentType : jsstring) : t :=
  let s := relative (size b) start in
  let e := relative (size b) end_ in
  let span := Z.max (e - s) 0 in
  mk (take (Z.to_nat span) (drop (Z.to_nat s) (bytes b))) contentType.

(** [new Blob([a, b], { type })]. *)
Definition concat (a b : t) (contentType : jsstring) : t :=
  mk (bytes a ++ bytes b) contentType.
End Blob.

Abbreviation Blob := Blob.t.

Module Recording.
Record t : Type := mk {
  id : Z;
  name : jsstring;
  size : Z;
  mimeType : jsstring;
  status : RecordingStatus;
  progress : Z;
  transcriptChunks : list TranscriptChunk;
  formattedNotes : option jsstring;
  blob : Blob
}.
End Recording.

Abbreviation Recording := Recording.t.

(** [RecordingMetadata]: a recording without its [blob]. *)
Module RecordingMetadata.
Record t : Type := mk {
  id : Z;
  name : jsstring;
  size : Z;
  mimeType : jsstring;
  status : RecordingStatus;
  progress : Z;
  transcriptChunks : list TranscriptChunk;
  formattedNotes : option jsstring
}.
(** [const { blob, ...meta } = value]. *)
Definition ofRecording (r : Recording) : t :=
  mk (Recording.id r) (Recording.name r) (Recording.size r)
     (Recording.mimeType r) (Recording.status r) (Recording.progress r)
     (Recording.transcriptChunks r) (Recording.formattedNotes r).
End RecordingMetadata.

Abbreviation RecordingMetadata := RecordingMetadata.t.

Module VocabularyItem.
Record t : Type := mk {
  id : Z;
  word : jsstring;
  description : jsstring
}.
End VocabularyItem.

Abbreviation VocabularyItem := VocabularyItem.t.

(* ===================================================================== *)
(** * The world: database handle, React state, remote service             *)
(* ===================================================================== *)

(** ** The request sent to [ai.models.generateContent] *)

Inductive Contents : Type :=
  | AudioAndText (mimeType : jsstring) (data : list Byte.byte) (text : jsstring)
  | TextOnly (prompt : jsstring).

Record GenerateContentRequest : Type := mkRequest {
  model : jsstring;
  contents : Contents
}.

(** How a promise returned by the remote service settles: fulfilled with a
    response whose [text] may be [undefined], or rejected. *)
Inductive Settlement : Type :=
  | Fulfilled (text : option jsstring)
  | Rejected (e : JsThrown).

(** When it settles: after [latency] milliseconds, or never. *)
Inductive RemoteBehaviour : Type :=
  | Settles (latency : N) (s : Settlement)
  | Pending.

(** ** React state of the [App] component *)

Record UIState : Type := mkUI {
  transcriptChunks : list TranscriptChunk;
  generatedNotes : jsstring;
  error : option jsstring;
  isTranscribing : bool;
  isGenerating : bool;
  transcriptionStatus : jsstring;
  activeRecordingId : option Z;
  recordedAudioBlob : option Blob;
  savedRecordings : list RecordingMetadata;
  vocabulary : list VocabularyItem;
  instruction : jsstring;
  transcriptionPrompt : jsstring;
  selectedModel : jsstring;
  (** [noteUpdateTimeoutRef]: the debounced auto-save that is pending, as
      the recording id and the notes it will write. *)
  noteUpdateTimeout : option (Z * jsstring)
}.

(** ** The world *)

Record World : Type := mkWorld {
  (** dbService's module-level handle: [None] before [initDB], then the
      [recordings] object store, keyed by id. *)
  db : option (gmap Z Recording);
  ui : UIState;
  (** The remote service: how it answers the [n]-th call ever made, given
      the request. *)
  remote : nat -> GenerateContentRequest -> RemoteBehaviour;
  (** The calls made to the remote service so far, oldest first. *)
  calls : list GenerateContentRequest;
  (** [Date.now()]. *)
  now : Z
}.

Definition set_db (d : option (gmap Z Recording)) (w : World) : World :=
  mkWorld d (ui w) (remote w) (calls w) (now w).

Definition set_ui (u : UIState) (w : World) : World :=
  mkWorld (db w) u (remote w) (calls w) (now w).

Definition set_calls (c : list GenerateContentRequest) (w : World) : World :=
  mkWorld (db w) (ui w) (remote w) c (now w).

(** ** Completions and the monad of asynchronous code *)

Inductive Completion (A : Type) : Type :=
  | Normal (a : A)
  | Throw (e : JsThrown).

Arguments Normal {A} a.
Arguments Throw {A} e.

Definition M (A : Type) : Type := World -> Completion A * World.

Definition ret {A} (a : A) : M A := fun w => (Normal a, w).

Definition throw {A} (e : JsThrown) : M A := fun w => (Throw e, w).

Definition bind {A B} (m : M A) (k : A -> M B) : M B := fun w =>
  match m w with
  | (Normal a, w') => k a w'
  | (Throw e, w') => (Throw e, w')
  end.

(** [try { m } catch (e) { h e }]. *)
Definition tryCatch {A} (m : M A) (h : JsThrown -> M A) : M A := fun w =>
  match m w with
  | (Normal a, w') => (Normal a, w')
  | (Throw e, w') => h e w'
  end.

(** [try { m } finally { f }]: [f] always runs; its own exception wins. *)
Definition tryFinally {A} (m : M A) (f : M unit) : M A := fun w =>
  match m w with
  | (c, w') =>
      match f w' with
      | (Normal _, w'') => (c, w'')
      | (Throw e, w'') => (Throw e, w'')
      end
  end.

Declare Scope js_scope.
Delimit Scope js_scope with js.

Notation "'let*' x ':=' m 'in' k" := (bind m (fun x => k))
  (at level 10, x name, m at level 100, k at level 200) : js_scope.
Notation "m ';;' k" := (bind m (fun _ => k))
  (at level 100, k at level 200, right associativity) : js_scope.

Open Scope js_scope.

(** Reading and writing the React state. *)
Definition getUI : M UIState := fun w => (Normal (ui w), w).

Definition modifyUI (f : UIState -> UIState) : M unit := fun w =>
  (Normal tt, set_ui (f (ui w)) w).

(** The state with one field replaced. *)
Definition with_transcriptChunks (v : list TranscriptChunk) (u : UIState) : UIState :=
  mkUI v (generatedNotes u) (error u) (isTranscribing u) (isGenerating u)
  (transcriptionStatus u) (activeRecordingId u) (recordedAudioBlob u)
  (savedRecordings u) (vocabulary u) (instruction u)
  (transcriptionPrompt u) (selectedModel u) (noteUpdateTimeout u).

Definition with_generatedNotes (v : jsstring) (u : UIState) : UIState :=
  mkUI (transcriptChunks u) v (error u) (isTranscribing u) (isGenerating u)
  (transcriptionStatus u) (activeRecordingId u) (recordedAudioBlob u)
  (savedRecordings u) (vocabulary u) (instruction u)
  (transcriptionPrompt u) (selectedModel u) (noteUpdateTimeout u).

Definition with_error (v : option jsstring) (u : UIState) : UIState :=
  mkUI (transcriptChunks u) (generatedNotes u) v (isTranscribing u)
  (isGenerating u) (transcriptionStatus u) (activeRecordingId u)
  (recordedAudioBlob u) (savedRecordings u) (vocabulary u) (instruction u)
  (transcriptionPrompt u) (selectedModel u) (noteUpdateTimeout u).

Definition with_isTranscribing (v : bool) (u : UIState) : UIState :=
  mkUI (transcriptChunks u) (generatedNotes u) (error u) v (isGenerating u)
  (transcriptionStatus u) (activeRecordingId u) (recordedAudioBlob u)
  (savedRecordings u) (vocabulary u) (instruction u)
  (transcriptionPrompt u) (selectedModel u) (noteUpdateTimeout u).

Definition with_isGenerating (v : bool) (u : UIState) : UIState :=
  mkUI (transcriptChunks u) (generatedNotes u) (error u) (isTranscribing u)
  v (transcriptionStatus u) (activeRecordingId u) (recordedAudioBlob u)
  (savedRecordings u) (vocabulary u) (instruction u)
  (transcriptionPrompt u) (selectedModel u) (noteUpdateTimeout u).

Definition with_transcriptionStatus (v : jsstring) (u : UIState) : UIState :=
  mkUI (transcriptChunks u) (generatedNotes u) (error u) (isTranscribing u)
  (isGenerating u) v (activeRecordingId u) (recordedAudioBlob u)
  (savedRecordings u) (vocabulary u) (instruction u)
  (transcriptionPrompt u) (selectedModel u) (noteUpdateTimeout u).

Definition with_activeRecordingId (v : option Z) (u : UIState) : UIState :=
  mkUI (transcriptChunks u) (generatedNotes u) (error u) (isTranscribing u)
  (isGenerating u) (transcriptionStatus u) v (recordedAudioBlob u)
  (savedRecordings u) (vocabulary u) (instruction u)
  (transcriptionPrompt u) (selectedModel u) (noteUpdateTimeout u).

Definition with_recordedAudioBlob (v : option Blob) (u : UIState) : UIState :=
  mkUI (transcriptChunks u) (generatedNotes u) (error u) (isTranscribing u)
  (isGenerating u) (transcriptionStatus u) (activeRecordingId u) v
  (savedRecordings u) (vocabulary u) (instruction u)
  (transcriptionPrompt u) (selectedModel u) (noteUpdateTimeout u).

Definition with_savedRecordings (v : list RecordingMetadata) (u : UIState) : UIState :=
  mkUI (transcriptChunks u) (generatedNotes u) (error u) (isTranscribing u)
  (isGenerating u) (transcriptionStatus u) (activeRecordingId u)
  (recordedAudioBlob u) v (vocabulary u) (instruction u)
  (transcriptionPrompt u) (selectedModel u) (noteUpdateTimeout u).

Definition with_vocabulary (v : list VocabularyItem) (u : UIState) : UIState :=
  mkUI (transcriptChunks u) (generatedNotes u) (error u) (isTranscribing u)
  (isGenerating u) (transcriptionStatus u) (activeRecordingId u)
  (recordedAudioBlob u) (savedRecordings u) v (instruction u)
  (transcriptionPrompt u) (selectedModel u) (noteUpdateTimeout u).

Definition with_instruction (v : jsstring) (u : UIState) : UIState :=
  mkUI (transcriptChunks u) (generatedNotes u) (error u) (isTranscribing u)
  (isGenerating u) (transcriptionStatus u) (activeRecordingId u)
  (recordedAudioBlob u) (savedRecordings u) (vocabulary u) v
  (transcriptionPrompt u) (selectedModel u) (noteUpdateTimeout u).

Definition with_transcriptionPrompt (v : jsstring) (u : UIState) : UIState :=
  mkUI (transcriptChunks u) (generatedNotes u) (error u) (isTranscribing u)
  (isGenerating u) (transcriptionStatus u) (activeRecordingId u)
  (recordedAudioBlob u) (savedRecordings u) (vocabulary u) (instruction u)
  v (selectedModel u) (noteUpdateTimeout u).

Definition with_selectedModel (v : jsstring) (u : UIState) : UIState :=
  mkUI (transcriptChunks u) (generatedNotes u) (error u) (isTranscribing u)
  (isGenerating u) (transcriptionStatus u) (activeRecordingId u)
  (recordedAudioBlob u) (savedRecordings u) (vocabulary u) (instruction u)
  (transcriptionPrompt u) v (noteUpdateTimeout u).

Definition with_noteUpdateTimeout (v : option (Z * jsstring)) (u : UIState) : UIState :=
  mkUI (transcriptChunks u) (generatedNotes u) (error u) (isTranscribing u)
  (isGenerating u) (transcriptionStatus u) (activeRecordingId u)
  (recordedAudioBlob u) (savedRecordings u) (vocabulary u) (instruction u)
  (transcriptionPrompt u) (selectedModel u) v.

(** The setters of [useState]. *)
Definition setTranscriptChunks (v : list TranscriptChunk) : M unit :=
  modifyUI (with_transcriptChunks v).

Definition setGeneratedNotes (v : jsstring) : M unit :=
  modifyUI (with_generatedNotes v).

Definition setError (v : option jsstring) : M unit :=
  modifyUI (with_error v).

Definition setIsTranscribing (v : bool) : M unit :=
  modifyUI (with_isTranscribing v).

Definition setIsGenerating (v : bool) : M unit :=
  modifyUI (with_isGenerating v).

Definition setTranscriptionStatus (v : jsstring) : M unit :=
  modifyUI (with_transcriptionStatus v).

Definition setActiveRecordingId (v : option Z) : M unit :=
  modifyUI (with_activeRecordingId v).

Definition setRecordedAudioBlob (v : option Blob) : M unit :=
  modifyUI (with_recordedAudioBlob v).

Definition setSavedRecordings (v : list RecordingMetadata) : M unit :=
  modifyUI (with_savedRecordings v).

Definition setNoteUpdateTimeout (v : option (Z * jsstring)) : M unit :=
  modifyUI (with_noteUpdateTimeout v).

(** [setVocabulary(prev => f(prev))]: a functional update, applied to the
    state as it is when the update runs. *)
Definition setVocabulary (f : list VocabularyItem -> list VocabularyItem)
  : M unit :=
  modifyUI (fun u => with_vocabulary (f (vocabulary u)) u).

(** [Date.now()]. *)
Definition Date_now : M Z := fun w => (Normal (now w), w).

(* ===================================================================== *)
(** * services/dbService.ts                                               *)
(* ===================================================================== *)

(** [Partial<Omit<Recording, 'id'>>]: each field is either absent or
    carries its new value. [formattedNotes] is itself optional, so a
    present field may carry [undefined]. *)
Module Updates.
Record t : Type := mk {
  name : option jsstring;
  size : option Z;
  mimeType : option jsstring;
  status : option RecordingStatus;
  progress : option Z;
  transcriptChunks : option (list TranscriptChunk);
  formattedNotes : option (option jsstring);
  blob : option Blob
}.
(** [{}] *)
Definition none : t := mk None None None None None None None None.
Definition withStatus (v : RecordingStatus) (u : t) : t :=
  mk (name u) (size u) (mimeType u) (Some v) (progress u)
     (transcriptChunks u) (formattedNotes u) (blob u).
Definition withProgress (v : Z) (u : t) : t :=
  mk (name u) (size u) (mimeType u) (status u) (Some v)
     (transcriptChunks u) (formattedNotes u) (blob u).
Definition withTranscriptChunks (v : list TranscriptChunk) (u : t) : t :=
  mk (name u) (size u) (mimeType u) (status u) (progress u)
     (Some v) (formattedNotes u) (blob u).
Definition withFormattedNotes (v : option jsstring) (u : t) : t :=
  mk (name u) (size u) (mimeType u) (status u) (progress u)
     (transcriptChunks u) (Some v) (blob u).
End Updates.

(** [{ ...data, ...updates }]: the fields present in [updates] win. *)
Definition spread (data : Recording) (updates : Updates.t) : Recording :=
  Recording.mk
    (Recording.id data)
    (default (Recording.name data) (Updates.name updates))
    (default (Recording.size data) (Updates.size updates))
    (default (Recording.mimeType data) (Updates.mimeType updates))
    (default (Recording.status data) (Updates.status updates))
    (default (Recording.progress data) (Updates.progress updates))
    (default (Recording.transcriptChunks data)
             (Updates.transcriptChunks updates))
    (default (Recording.formattedNotes data) (Updates.formattedNotes updates))
    (default (Recording.blob data) (Updates.blob updates)).

(** [store.put(value)] on an object store with [keyPath: 'id']: the key is
    read from the value. *)
Definition put (value : Recording) (store : gmap Z Recording)
  : gmap Z Recording :=
  <[Recording.id value := value]> store.

(** The object store keeps every value under its own id. *)
Definition keyed (store : gmap Z Recording) : Prop :=
  forall k r, store !! k = Some r -> Recording.id r = k.

Definition getRecording (id : Z) : M (option Recording) := fun w =>
  match db w with
  | None => (Throw (StringVal (JS.lit "Database not initialized.")), w)
  | Some store => (Normal (store !! id), w)
  end.

Definition updateRecording (id : Z) (updates : Updates.t) : M unit := fun w =>
  match db w with
  | None => (Throw (StringVal (JS.lit "Database not initialized.")), w)
  | Some store =>
      match store !! id with
      | Some data =>
          let updatedData := spread data updates in
          (Normal tt, set_db (Some (put updatedData store)) w)
      | None =>
          (Throw (StringVal (JS.lit "Recording not found for update.")), w)
      end
  end.

(** Cursor order ['prev']: descending keys. *)
Definition newerFirst (a b : Z * Recording) : Prop := (b.1 <= a.1)%Z.

#[global] Instance newerFirst_dec a b : Decision (newerFirst a b).
Proof. unfold newerFirst. apply _. Defined.

Definition getAllRecordingsMetadata : M (list RecordingMetadata) := fun w =>
  match db w with
  | None => (Throw (StringVal (JS.lit "Database not initialized.")), w)
  | Some store =>
      (Normal (List.map (fun kv => RecordingMetadata.ofRecording kv.2)
                 (merge_sort newerFirst (map_to_list store))), w)
  end.

(* ===================================================================== *)
(** * services/geminiService.ts                                           *)
(* ===================================================================== *)

(** [ai.models.generateContent(req)]: the call is made (and logged); the
    promise it returns settles as the remote service decides. *)
Definition generateContent (req : GenerateContentRequest)
  : M RemoteBehaviour := fun w =>
  (Normal (remote w (length (calls w)) req), set_calls (calls w ++ [req]) w).

(** [blobToBase64]: the payload handed to the service. The base64 text is
    an encoding of the bytes; the bytes themselves stand for it. *)
Definition blobToBase64 (blob : Blob) : M (list Byte.byte) :=
  ret (Blob.bytes blob).

(** [withTimeout(promise, ms, errorMessage)]: a race between the promise
    and a timer of [ms] milliseconds. The callers start the request
    before [withTimeout] arms the timer, so a promise that settles after
    exactly [ms] milliseconds is still first: the timer wins only when
    the promise settles later, or never. The result is the response's
    [text]. *)
Definition withTimeout (promise : RemoteBehaviour) (ms : N)
    (errorMessage : jsstring) : M (option jsstring) :=
  match promise with
  | Settles latency s =>
      if (latency <=? ms)%N then
        match s with
        | Fulfilled text => ret text
        | Rejected e => throw e
        end
      else throw (ErrorObj errorMessage)
  | Pending => throw (ErrorObj errorMessage)
  end.

Definition semicolon : N := 59%N.

Definition transcribeAudio (audioBlob : Blob) (mimeType prompt : jsstring)
  : M jsstring :=
  tryCatch
    (let* base64Audio := blobToBase64 audioBlob in
     let contents :=
       AudioAndText (JS.splitFirst semicolon mimeType) base64Audio prompt in
     tryCatch
       (let* transcriptionPromise :=
          generateContent
            (mkRequest (JS.lit "gemini-flash-lite-latest") contents) in
        let* response :=
          withTimeout transcriptionPromise 60000
            (JS.lit "Transcription request timed out after 60 seconds.") in
        ret (default [] response))
       (fun error =>
          if instanceofError error
             && JS.includes (errorMessageOf error) (JS.lit "timed out")
          then
            let* retryPromise :=
              generateContent (mkRequest (JS.lit "gemini-2.5-pro") contents) in
            let* retryResponse :=
              withTimeout retryPromise 120000
                (JS.lit
                   "Transcription retry request timed out after 120 seconds.")
            in
            ret (default [] retryResponse)
          else throw error))
    (fun error =>
       if instanceofError error then
         throw (ErrorObj (JS.lit "Error transcribing audio: "
                          ++ errorMessageOf error))
       else
         throw (ErrorObj
                  (JS.lit "An unknown error occurred during transcription."))).

Definition newline : jsstring := [10%N].

(** The prompt template of [formatNotes]. *)
Definition formatPrompt (customInstruction transcription : jsstring)
  : jsstring :=
  newline ++ customInstruction ++ newline ++ newline
  ++ JS.lit "Here is the meeting transcription:" ++ newline
  ++ JS.lit "---" ++ newline
  ++ transcription ++ newline
  ++ JS.lit "---" ++ newline.

Definition formatNotes (transcription customInstruction model : jsstring)
  : M jsstring :=
  if negb (JS.truthy (JS.trim transcription)) then
    throw (ErrorObj (JS.lit "Transcription is empty."))
  else if negb (JS.truthy (JS.trim customInstruction)) then
    throw (ErrorObj (JS.lit "Custom instruction is empty."))
  else
    let prompt := formatPrompt customInstruction transcription in
    tryCatch
      (let* formatPromise :=
         generateContent (mkRequest model (TextOnly prompt)) in
       let* response :=
         withTimeout formatPromise 120000
           (JS.lit "Formatting notes request timed out after 120 seconds.") in
       ret (default [] response))
      (fun error =>
         if instanceofError error then
           ret (JS.lit "Error formatting notes: " ++ errorMessageOf error
                ++ JS.lit ". Please check the console for more details.")
         else
           ret (JS.lit "An unknown error occurred while formatting notes.")).

(* ===================================================================== *)
(** * Regular expressions and [String.prototype.replace]                  *)
(* ===================================================================== *)

(** The two edit handlers build their pattern with
    [new RegExp(escapeRegExp(oldText), 'g')], and [escapeRegExp] itself is
    [string.replace(/[.*+?^${}()|[\]\\]/g, '\\$&')]. Both patterns are
    sequences of atoms that consume one code unit each, without capture
    groups; this is the fragment embedded here. *)
Module RegExp.

Inductive Atom : Type :=
  | Char (c : N)
  | Class (cs : list N).

Definition Pattern : Type := list Atom.

(** [SyntaxCharacter]: one of [^ $ \ . * + ? ( ) [ ] { } |]. *)
Definition isSyntaxCharacter (c : N) : bool :=
  existsb (N.eqb c) [94; 36; 92; 46; 42; 43; 63; 40; 41; 91; 93; 123; 125; 124]%N.

Definition backslash : N := 92%N.
Definition dollar : N := 36%N.

(** [new RegExp(source, 'g')] on the fragment: a backslash followed by a
    syntax character is that character, any other code unit that is not
    a syntax character is itself. Anything else (an operator, a class,
    another escape) is outside the fragment and answers [None]. *)
Fixpoint parse (source : jsstring) : option Pattern :=
  match source with
  | [] => Some []
  | c :: rest =>
      if (c =? backslash)%N then
        match rest with
        | [] => None
        | d :: rest' =>
            if isSyntaxCharacter d
            then option_map (cons (Char d)) (parse rest')
            else None
        end
      else if isSyntaxCharacter c then None
      else option_map (cons (Char c)) (parse rest)
  end.

Definition atomMatches (a : Atom) (c : N) : bool :=
  match a with
  | Char x => (x =? c)%N
  | Class cs => existsb (N.eqb c) cs
  end.

(** Does the pattern match at the start of [s]? A match consumes exactly
    [length p] code units. *)
Fixpoint matchAt (p : Pattern) (s : jsstring) : bool :=
  match p, s with
  | [], _ => true
  | _ :: _, [] => false
  | a :: p', c :: s' => atomMatches a c && matchAt p' s'
  end.

(** [GetSubstitution(matched, str, position, captures = [], replacement)]:
    [before] is [str] up to the match, [after] what follows it. With no
    capture group, [$1]..[$99] and [$<] stay as they are. *)
Fixpoint getSubstitution (matched before after replacement : jsstring)
  : jsstring :=
  match replacement with
  | [] => []
  | c :: rest =>
      if (c =? dollar)%N then
        match rest with
        | [] => [dollar]
        | d :: rest' =>
            if (d =? 36)%N then        (* $$ *)
              dollar :: getSubstitution matched before after rest'
            else if (d =? 38)%N then   (* $& *)
              matched ++ getSubstitution matched before after rest'
            else if (d =? 96)%N then   (* $` *)
              before ++ getSubstitution matched before after rest'
            else if (d =? 39)%N then   (* $' *)
              after ++ getSubstitution matched before after rest'
            else
              dollar :: getSubstitution matched before after rest
        end
      else c :: getSubstitution matched before after rest
  end.

(** The loop of [RegExp.prototype[Symbol.replace]] for a global pattern.
    [before] is the part of the string already passed, [rest] what
    remains, [skip] how many code units of [rest] belong to the match
    just replaced. After an empty match the search resumes one code unit
    further. *)
Fixpoint replaceFrom (p : Pattern) (replacement before rest : jsstring)
    (skip : nat) : jsstring :=
  match rest with
  | [] =>
      match skip with
      | O => if matchAt p []
             then getSubstitution [] before [] replacement
             else []
      | S _ => []
      end
  | c :: rest' =>
      match skip with
      | S k => replaceFrom p replacement (before ++ [c]) rest' k
      | O =>
          if matchAt p rest then
            getSubstitution (take (length p) rest) before
                            (drop (length p) rest) replacement
            ++ match length p with
               | O => c :: replaceFrom p replacement (before ++ [c]) rest' 0
               | S k => replaceFrom p replacement (before ++ [c]) rest' k
               end
          else c :: replaceFrom p replacement (before ++ [c]) rest' 0
      end
  end.

(** [str.replace(regex, replacement)] with the [g] flag. *)
Definition replace (str : jsstring) (p : Pattern) (replacement : jsstring)
  : jsstring :=
  replaceFrom p replacement [] str 0.

End RegExp.

(** The class of [/[.*+?^${}()|[\]\\]/g]: [. * + ? ^ $ { } ( ) | [ ] \]. *)
Definition escapeClass : list N :=
  [46; 42; 43; 63; 94; 36; 123; 125; 40; 41; 124; 91; 93; 92]%N.

(** [string.replace(/[.*+?^${}()|[\]\\]/g, '\\$&')]. *)
Definition escapeRegExp (string : jsstring) : jsstring :=
  RegExp.replace string [RegExp.Class escapeClass]
                 [RegExp.backslash; RegExp.dollar; 38%N].

(** [content.replace(new RegExp(escapeRegExp(oldText), 'g'), newText)];
    a pattern that does not compile throws. *)
Definition replaceAllOccurrences (content oldText newText : jsstring)
  : Completion jsstring :=
  match RegExp.parse (escapeRegExp oldText) with
  | Some searchRegex => Normal (RegExp.replace content searchRegex newText)
  | None => Throw (ErrorObj (JS.lit "Invalid regular expression"))
  end.

(** What a literal replace-all is: scanning from the left, every
    occurrence of [oldText] that does not overlap the previous one is
    replaced by [newText], taken as it is. [skip] counts the code units
    of the occurrence being passed. *)
Fixpoint literalReplaceFrom (oldText newText rest : jsstring) (skip : nat)
  : jsstring :=
  match rest with
  | [] =>
      match skip, oldText with
      | O, [] => newText
      | _, _ => []
      end
  | c :: rest' =>
      match skip with
      | S k => literalReplaceFrom oldText newText rest' k
      | O =>
          if JS.isPrefix oldText rest then
            newText ++ match length oldText with
                       | O => c :: literalReplaceFrom oldText newText rest' 0
                       | S k => literalReplaceFrom oldText newText rest' k
                       end
          else c :: literalReplaceFrom oldText newText rest' 0
      end
  end.

Definition literalReplaceAll (content oldText newText : jsstring) : jsstring :=
  literalReplaceFrom oldText newText content 0.

(* ===================================================================== *)
(** * The [App] component                                                 *)
(* ===================================================================== *)

(** The two size limits of the splitter. *)
Record Limits : Type := mkLimits {
  MAX_CHUNK_SIZE_BYTES : Z;
  HEADER_SIZE_BYTES : Z
}.

(** The values the application is built with: 10MB and 10KB. *)
Definition appLimits : Limits :=
  mkLimits (10 * 1024 * 1024) (10 * 1024).

(** [String(n)] for an integer. *)
Definition numberToString (n : Z) : jsstring :=
  JS.lit (NilZero.string_of_int (Z.to_int n)).

(** [Math.ceil(a / b)] for integers [a] and [b > 0]. *)
Definition ceilDiv (a b : Z) : Z := (- ((- a) / b))%Z.

(** An integer as a JavaScript [number], that is an IEEE 754 double; exact
    for the integers from 0 to 2^53, which is where sizes, counts and
    indices live. *)
Definition numberOfZ (n : Z) : PrimFloat.float :=
  PrimFloat.of_uint63 (Uint63.of_Z n).

(** [Math.round(x)] for a finite [x]: the integer nearest to [x], a half
    going upwards, computed on the exact value [±m * 2^e] of the double.
    ([NaN] and the infinities, which have no integer value, do not come
    out of the calls below; they are given 0.) *)
Definition Math_round (x : PrimFloat.float) : Z :=
  match FloatOps.Prim2SF x with
  | SpecFloat.S754_finite negative m e =>
      let signed := if negative then Z.neg m else Z.pos m in
      if (0 <=? e)%Z then (signed * 2 ^ e)%Z
      else ((2 * signed + 2 ^ (- e)) / (2 * 2 ^ (- e)))%Z
  | _ => 0%Z
  end.

(** [Math.round((a / b) * 95)] for integers [a >= 0] and [b > 0]: the
    division and the product are those of doubles, each rounded to the
    nearest double, and the result is rounded to the nearest integer, a
    half going upwards. *)
Definition roundProgress (a b : Z) : Z :=
  Math_round
    (PrimFloat.mul (PrimFloat.div (numberOfZ a) (numberOfZ b)) (numberOfZ 95)).

(** A number used as a condition: [null] and [0] are falsy. *)
Definition truthyId (v : option Z) : option Z :=
  match v with
  | Some n => if (n =? 0)%Z then None else Some n
  | None => None
  end.

(** [promise.then(inl, inr)]: an exception turned into a value. *)
Definition settle {A} (m : M A) : M (A + JsThrown) := fun w =>
  match m w with
  | (Normal a, w') => (Normal (inl a), w')
  | (Throw e, w') => (Normal (inr e), w')
  end.

Section App.

Context (limits : Limits).

(** [String.prototype.toLowerCase], whose Unicode case mapping is part of
    the JavaScript engine. *)
Context (toLowerCase : jsstring -> jsstring).

Local Abbreviation MAX := (MAX_CHUNK_SIZE_BYTES limits).
Local Abbreviation HEADER := (HEADER_SIZE_BYTES limits).

(** ** The splitter, as [processRecording] computes it *)

(** [Math.ceil((blob.size - HEADER_SIZE_BYTES) /
               (MAX_CHUNK_SIZE_BYTES - HEADER_SIZE_BYTES))]. *)
Definition totalChunks (size : Z) : Z :=
  ceilDiv (size - HEADER) (MAX - HEADER).

(** [i * (MAX_CHUNK_SIZE_BYTES - HEADER_SIZE_BYTES)]. *)
Definition chunkStart (i : Z) : Z := (i * (MAX - HEADER))%Z.

(** [Math.min(start + (MAX_CHUNK_SIZE_BYTES - HEADER_SIZE_BYTES), blob.size)]. *)
Definition chunkEnd (i size : Z) : Z :=
  Z.min (chunkStart i + (MAX - HEADER)) size.

(** The byte ranges [start, end) that a run over a payload of [size] bytes
    cuts, in the order of the loop: the whole payload when it fits in one
    piece, otherwise one range for each [i] below [totalChunks]. *)
Definition piecePlan (size : Z) : list (Z * Z) :=
  if (size <=? MAX)%Z then [(0%Z, size)]
  else List.map (fun i => (chunkStart (Z.of_nat i), chunkEnd (Z.of_nat i) size))
                (seq 0 (Z.to_nat (totalChunks size))).

(** The blob submitted for piece [i]: the range itself for piece 0, the
    header followed by the range for the others. *)
Definition blobToSendFor (blob : Blob) (i : Z) : Blob :=
  let header := Blob.slice blob 0 HEADER (Blob.type blob) in
  let chunkBlob :=
    Blob.slice blob (chunkStart i) (chunkEnd i (Blob.size blob))
               (Blob.type blob) in
  if (i =? 0)%Z then chunkBlob
  else Blob.concat header chunkBlob (Blob.type blob).

(** ** Prompt *)

Definition vocabularyLine (v : VocabularyItem) : jsstring :=
  JS.lit "- " ++ JS.trim (VocabularyItem.word v)
  ++ (if JS.truthy (JS.trim (VocabularyItem.description v))
      then JS.lit ": " ++ JS.trim (VocabularyItem.description v)
      else []).

Definition buildTranscriptionPromptWithVocabulary (closure : UIState)
  : jsstring :=
  let prompt := transcriptionPrompt closure in
  match vocabulary closure with
  | [] => prompt
  | _ :: _ =>
      let vocabList :=
        JS.join newline (List.map vocabularyLine (vocabulary closure)) in
      prompt ++ newline ++ newline ++ JS.lit "---" ++ newline
      ++ JS.lit "Custom Vocabulary:" ++ newline
      ++ JS.lit "Please give special consideration to the following words, phrases, and their spellings during transcription."
      ++ newline ++ vocabList ++ newline ++ JS.lit "---"
  end.

(** ** [loadRecordings] *)

Definition loadRecordings : M unit :=
  tryCatch
    (let* metadata := getAllRecordingsMetadata in
     setSavedRecordings metadata)
    (fun _ => setError (Some (JS.lit "Could not load saved recordings."))).

(** ** [processRecording] *)

(** The single-piece branch, [blob.size <= MAX_CHUNK_SIZE_BYTES]. *)
Definition processSingle (id : Z) (blob : Blob) (finalPrompt : jsstring)
  : M unit :=
  setTranscriptionStatus
    (JS.lit "Transcribing audio... This may take a few moments.") ;;
  updateRecording id (Updates.withProgress 10 Updates.none) ;;
  loadRecordings ;;
  let newChunk := TranscriptChunk.mk 0 [] CS_processing in
  setTranscriptChunks [newChunk] ;;
  tryCatch
    (let mimeType := JS.splitFirst semicolon (Blob.type blob) in
     let* fullTranscript := transcribeAudio blob mimeType finalPrompt in
     let completedChunk :=
       TranscriptChunk.mk 0 (JS.trim fullTranscript) CS_completed in
     setTranscriptChunks [completedChunk] ;;
     updateRecording id
       (Updates.withTranscriptChunks [completedChunk]
          (Updates.withStatus RS_completed
             (Updates.withProgress 100 Updates.none))))
    (fun e =>
       let errorMessage := errorMessageOf e in
       let failedChunk := TranscriptChunk.mk 0 errorMessage CS_failed in
       setTranscriptChunks [failedChunk] ;;
       updateRecording id
         (Updates.withTranscriptChunks [failedChunk]
            (Updates.withStatus RS_failed
               (Updates.withProgress 100 Updates.none))) ;;
       throw e).

(** One turn of the loop over the pieces, for index [i]. The array
    [finalChunks] has [totalChunks] entries, so [finalChunks[i]] exists. *)
Definition processChunk (id : Z) (blob : Blob) (header : Blob)
    (finalPrompt : jsstring) (total : Z) (i : nat)
    (finalChunks : list TranscriptChunk) : M (list TranscriptChunk) :=
  setTranscriptionStatus
    (JS.lit "Transcribing chunk " ++ numberToString (Z.of_nat i + 1)
     ++ JS.lit " of " ++ numberToString total ++ JS.lit "...") ;;
  let start := (Z.of_nat i * (MAX - HEADER))%Z in
  let end_ := Z.min (start + (MAX - HEADER)) (Blob.size blob) in
  let chunkBlob := Blob.slice blob start end_ (Blob.type blob) in
  if (Blob.size chunkBlob =? 0)%Z then
    (* continue *)
    ret (alter (fun c => TranscriptChunk.withStatus c CS_completed)
               i finalChunks)
  else
    let blobToSend :=
      if (Z.of_nat i =? 0)%Z then chunkBlob
      else Blob.concat header chunkBlob (Blob.type blob) in
    let* finalChunks' :=
      tryCatch
        (let mimeType := JS.splitFirst semicolon (Blob.type blob) in
         let* transcriptPart :=
           transcribeAudio blobToSend mimeType finalPrompt in
         ret (alter
                (fun c => TranscriptChunk.withContentStatus c
                            (JS.trim transcriptPart) CS_completed)
                i finalChunks))
        (fun chunkError =>
           let errorMessage := errorMessageOf chunkError in
           ret (alter
                  (fun c => TranscriptChunk.withContentStatus c
                              errorMessage CS_failed)
                  i finalChunks)) in
    setTranscriptChunks finalChunks' ;;
    let progress := roundProgress (Z.of_nat i + 1) total in
    updateRecording id
      (Updates.withTranscriptChunks finalChunks'
         (Updates.withProgress progress Updates.none)) ;;
    loadRecordings ;;
    ret finalChunks'.

(** [for (let i = ...; i < totalChunks; i++)], with [n] turns left. *)
Fixpoint processChunks (id : Z) (blob : Blob) (header : Blob)
    (finalPrompt : jsstring) (total : Z) (i n : nat)
    (finalChunks : list TranscriptChunk) : M (list TranscriptChunk) :=
  match n with
  | O => ret finalChunks
  | S n' =>
      let* finalChunks' :=
        processChunk id blob header finalPrompt total i finalChunks in
      processChunks id blob header finalPrompt total (S i) n' finalChunks'
  end.

(** [Array.from({ length: totalChunks }, (_, i) => ...)]. *)
Definition initialChunksOf (total : Z) : list TranscriptChunk :=
  List.map (fun i => TranscriptChunk.mk (Z.of_nat i) [] CS_processing)
           (seq 0 (Z.to_nat total)).

Definition isCompleted (c : TranscriptChunk) : bool :=
  bool_decide (TranscriptChunk.status c = CS_completed).

(** The multi-piece branch. *)
Definition processMulti (id : Z) (blob : Blob) (finalPrompt : jsstring)
  : M unit :=
  let total := totalChunks (Blob.size blob) in
  let header := Blob.slice blob 0 HEADER (Blob.type blob) in
  let initialChunks := initialChunksOf total in
  setTranscriptChunks initialChunks ;;
  updateRecording id
    (Updates.withTranscriptChunks initialChunks
       (Updates.withProgress 10 Updates.none)) ;;
  loadRecordings ;;
  let* finalChunks :=
    processChunks id blob header finalPrompt total 0 (Z.to_nat total)
                  initialChunks in
  let allSucceeded := forallb isCompleted finalChunks in
  updateRecording id
    (Updates.withStatus (if allSucceeded then RS_completed else RS_failed)
       (Updates.withProgress 100 Updates.none)).

(** The [try] block once [recording] is loaded. *)
Definition processLoaded (id : Z) (recording : Recording) (closure : UIState)
  : M unit :=
  setRecordedAudioBlob (Some (Recording.blob recording)) ;;
  setTranscriptChunks (Recording.transcriptChunks recording) ;;
  setGeneratedNotes (default [] (Recording.formattedNotes recording)) ;;
  if bool_decide (Recording.status recording = RS_completed)
     && (0 <? length (Recording.transcriptChunks recording))%nat
  then
    (* a full transcript already exists: return *)
    setIsTranscribing false ;;
    setTranscriptionStatus []
  else
    updateRecording id
      (Updates.withStatus RS_transcribing
         (Updates.withProgress 5
            (Updates.withTranscriptChunks [] Updates.none))) ;;
    loadRecordings ;;
    let blob := Recording.blob recording in
    let finalPrompt := buildTranscriptionPromptWithVocabulary closure in
    (if (Blob.size blob <=? MAX)%Z
     then processSingle id blob finalPrompt
     else processMulti id blob finalPrompt) ;;
    loadRecordings.

(** The [catch] block of [processRecording]; [recording] is [undefined]
    when loading it is what failed. *)
Definition processFailed (recording : option Recording) (err : JsThrown)
  : M unit :=
  setError
    (Some (JS.lit "Processing failed: " ++ interpolate (message err)
           ++ JS.lit ". The file might be too large or in an unsupported format.")) ;;
  match recording with
  | Some r =>
      updateRecording (Recording.id r)
        (Updates.withStatus RS_failed (Updates.withProgress 0 Updates.none)) ;;
      loadRecordings
  | None => ret tt
  end.

Definition processRecording (id : Z) : M unit :=
  let* closure := getUI in
  setTranscriptChunks [] ;;
  setGeneratedNotes [] ;;
  setError None ;;
  setIsTranscribing true ;;
  setActiveRecordingId (Some id) ;;
  setTranscriptionStatus (JS.lit "Initializing transcription...") ;;
  tryFinally
    (let* loaded := settle (getRecording id) in
     match loaded with
     | inr err => processFailed None err
     | inl None =>
         processFailed None
           (ErrorObj (JS.lit "Recording not found in database."))
     | inl (Some recording) =>
         tryCatch (processLoaded id recording closure)
                  (processFailed (Some recording))
     end)
    (setIsTranscribing false ;;
     setTranscriptionStatus []).

(** ** [handleRetryChunkTranscription] *)

Definition handleRetryChunkTranscription (chunkIndex : Z) : M unit :=
  let* closure := getUI in
  match truthyId (activeRecordingId closure) with
  | None => ret tt
  | Some activeRecordingId =>
      setError None ;;
      setIsTranscribing true ;;
      setTranscriptionStatus
        (JS.lit "Retrying chunk " ++ numberToString (chunkIndex + 1)
         ++ JS.lit "...") ;;
      tryFinally
        (tryCatch
           (let* found := getRecording activeRecordingId in
            match found with
            | None => throw (ErrorObj (JS.lit "Recording not found"))
            | Some recording =>
                let blob := Recording.blob recording in
                let updatedChunks :=
                  List.map
                    (fun c =>
                       if (TranscriptChunk.index c =? chunkIndex)%Z
                       then TranscriptChunk.withStatus c CS_processing
                       else c)
                    (transcriptChunks closure) in
                setTranscriptChunks updatedChunks ;;
                let start := (chunkIndex * (MAX - HEADER))%Z in
                let end_ := Z.min (start + (MAX - HEADER)) (Blob.size blob) in
                let chunkBlob := Blob.slice blob start end_ (Blob.type blob) in
                let blobToSend :=
                  if (0 <? chunkIndex)%Z && (MAX <? Blob.size blob)%Z then
                    let header := Blob.slice blob 0 HEADER (Blob.type blob) in
                    Blob.concat header chunkBlob (Blob.type blob)
                  else chunkBlob in
                let mimeType := JS.splitFirst semicolon (Blob.type blob) in
                let finalPrompt :=
                  buildTranscriptionPromptWithVocabulary closure in
                let* transcriptPart :=
                  transcribeAudio blobToSend mimeType finalPrompt in
                let finalChunks :=
                  List.map
                    (fun c =>
                       if (TranscriptChunk.index c =? chunkIndex)%Z
                       then TranscriptChunk.withContentStatus c
                              (JS.trim transcriptPart) CS_completed
                       else c)
                    updatedChunks in
                setTranscriptChunks finalChunks ;;
                updateRecording activeRecordingId
                  (Updates.withTranscriptChunks finalChunks Updates.none)
            end)
           (fun err =>
              setError (Some (JS.lit "Failed to retry chunk: "
                              ++ interpolate (message err))) ;;
              let errorMessage := errorMessageOf err in
              let finalChunks :=
                List.map
                  (fun c =>
                     if (TranscriptChunk.index c =? chunkIndex)%Z
                     then TranscriptChunk.withContentStatus c
                            errorMessage CS_failed
                     else c)
                  (transcriptChunks closure) in
              setTranscriptChunks finalChunks ;;
              updateRecording activeRecordingId
                (Updates.withTranscriptChunks finalChunks Updates.none)))
        (setIsTranscribing false ;;
         setTranscriptionStatus [] ;;
         loadRecordings)
  end.

(** ** [handleGenerateNotes] *)

Definition space : jsstring := [32%N].

Definition handleGenerateNotes : M unit :=
  let* closure := getUI in
  let fullTranscript :=
    JS.join space
      (List.map TranscriptChunk.content (transcriptChunks closure)) in
  if negb (JS.truthy fullTranscript) then
    setError (Some (JS.lit "There is no transcript to process."))
  else
    setIsGenerating true ;;
    setError None ;;
    setGeneratedNotes [] ;;
    tryFinally
      (tryCatch
         (let* notes :=
            formatNotes fullTranscript (instruction closure)
                        (selectedModel closure) in
          setGeneratedNotes notes ;;
          match truthyId (activeRecordingId closure) with
          | Some activeRecordingId =>
              updateRecording activeRecordingId
                (Updates.withFormattedNotes (Some notes) Updates.none) ;;
              loadRecordings
          | None => ret tt
          end)
         (fun e => setError (message e)))
      (setIsGenerating false).

(** ** Edit and update vocabulary *)

(** [handleUpdateNotes]: the notes shown change at once; the write to the
    database is debounced, here left pending. *)
Definition handleUpdateNotes (closure : UIState) (newNotes : jsstring)
  : M unit :=
  setGeneratedNotes newNotes ;;
  setNoteUpdateTimeout None ;;
  match truthyId (activeRecordingId closure) with
  | Some activeRecordingId =>
      setNoteUpdateTimeout (Some (activeRecordingId, newNotes))
  | None => ret tt
  end.

(** The updater passed to [setVocabulary] by both edit handlers. *)
Definition addCorrection (oldText newText : jsstring) (timestamp : Z)
    (prev : list VocabularyItem) : list VocabularyItem :=
  let trimmedNewText := JS.trim newText in
  if existsb
       (fun item =>
          JS.eqb (toLowerCase (VocabularyItem.word item))
                 (toLowerCase trimmedNewText))
       prev
  then prev
  else
    let newItem :=
      VocabularyItem.mk timestamp trimmedNewText
        (JS.lit "Corrected from " ++ JS.dquote ++ JS.trim oldText
         ++ JS.dquote) in
    prev ++ [newItem].

Definition liftCompletion {A} (c : Completion A) : M A := fun w => (c, w).

(** [s.substring(0, start) + newText + s.substring(end)]. *)
Definition replaceRange (s : jsstring) (start end_ : Z) (newText : jsstring)
  : jsstring :=
  JS.substring s 0 start ++ newText ++ JS.substringFrom s end_.

Definition handleNoteEditAndUpdateVocabulary
    (oldText newText : jsstring) (replaceAll addToVocabulary : bool)
    (start end_ : Z) : M unit :=
  let* closure := getUI in
  if negb (JS.truthy (JS.trim newText)) then ret tt
  else
    let* updatedNotes :=
      if replaceAll then
        liftCompletion
          (replaceAllOccurrences (generatedNotes closure) oldText newText)
      else
        ret (replaceRange (generatedNotes closure) start end_ newText) in
    handleUpdateNotes closure updatedNotes ;;
    if addToVocabulary then
      let* timestamp := Date_now in
      setVocabulary (addCorrection oldText newText timestamp)
    else ret tt.

(** The callback of [transcriptChunks.map((chunk, index) => ...)]. *)
Definition editChunk (oldText newText : jsstring) (replaceAll : bool)
    (chunkIndex start end_ : Z) (chunk : TranscriptChunk) (index : nat)
  : Completion TranscriptChunk :=
  if replaceAll then
    match replaceAllOccurrences (TranscriptChunk.content chunk)
                                oldText newText with
    | Normal newContent => Normal (TranscriptChunk.withContent chunk newContent)
    | Throw e => Throw e
    end
  else if (Z.of_nat index =? chunkIndex)%Z then
    Normal (TranscriptChunk.withContent chunk
              (replaceRange (TranscriptChunk.content chunk) start end_ newText))
  else Normal (TranscriptChunk.withContent chunk (TranscriptChunk.content chunk)).

(** [array.map(callback)], stopping at the first exception. *)
Fixpoint mapWithIndex {A B} (f : A -> nat -> Completion B) (index : nat)
    (l : list A) : Completion (list B) :=
  match l with
  | [] => Normal []
  | x :: l' =>
      match f x index with
      | Throw e => Throw e
      | Normal y =>
          match mapWithIndex f (S index) l' with
          | Throw e => Throw e
          | Normal ys => Normal (y :: ys)
          end
      end
  end.

Definition handleEditAndUpdateVocabulary
    (oldText newText : jsstring) (replaceAll addToVocabulary : bool)
    (chunkIndex start end_ : Z) : M unit :=
  let* closure := getUI in
  if negb (JS.truthy (JS.trim newText)) then ret tt
  else
    let* newChunks :=
      liftCompletion
        (mapWithIndex
           (editChunk oldText newText replaceAll chunkIndex start end_)
           0 (transcriptChunks closure)) in
    setTranscriptChunks newChunks ;;
    match truthyId (activeRecordingId closure) with
    | Some activeRecordingId =>
        tryCatch
          (updateRecording activeRecordingId
             (Updates.withTranscriptChunks newChunks Updates.none))
          (fun _ =>
             setError (Some (JS.lit "Failed to save transcript changes.")))
    | None => ret tt
    end ;;
    if addToVocabulary then
      let* timestamp := Date_now in
      setVocabulary (addCorrection oldText newText timestamp)
    else ret tt.

End App.

(* ===================================================================== *)
(** * Concrete worlds used by the examples                                *)
(* ===================================================================== *)

Module Example.

(** Small limits: pieces of at most 8 bytes, a 2-byte header. *)
Definition limits : Limits := mkLimits 8 2.

(** Lower-casing of the letters [A]..[Z]. *)
Definition toLowerCase (s : jsstring) : jsstring :=
  List.map (fun c => if ((65 <=? c) && (c <=? 90))%N then (c + 32)%N else c) s.

(** A payload of [n] bytes: 0, 1, 2, ... *)
Definition payload (n : nat) : Blob :=
  Blob.mk (List.map (fun i => default Byte.x00 (Byte.of_nat i)) (seq 0 n))
          (JS.lit "audio/webm;codecs=opus").

Definition recording (n : nat) (status : RecordingStatus)
    (chunks : list TranscriptChunk) : Recording :=
  Recording.mk 7 (JS.lit "standup") (Z.of_nat n) (JS.lit "audio/webm")
               status 0 chunks None (payload n).

Definition initialUI : UIState :=
  mkUI [] [] None false false [] None None [] []
       (JS.lit "Summarise the meeting.") (JS.lit "Transcribe the audio.")
       (JS.lit "gemini-2.5-flash") None.

(** The user interface showing [chunks] of recording 7. *)
Definition showing (chunks : list TranscriptChunk) : UIState :=
  mkUI chunks [] None false false [] (Some 7%Z) None [] []
       (JS.lit "Summarise the meeting.") (JS.lit "Transcribe the audio.")
       (JS.lit "gemini-2.5-flash") None.

(** A service that answers every call in 10ms with [" ok "]. *)
Definition alwaysOk (n : nat) (req : GenerateContentRequest)
  : RemoteBehaviour :=
  Settles 10 (Fulfilled (Some (JS.lit " ok "))).

(** A service whose call number [k] is rejected with ["quota"], the
    others answered with [" ok "]. *)
Definition failingAt (k : nat) (n : nat) (req : GenerateContentRequest)
  : RemoteBehaviour :=
  if (n =? k)%nat then Settles 10 (Rejected (ErrorObj (JS.lit "quota")))
  else Settles 10 (Fulfilled (Some (JS.lit " ok "))).

(** A service that never answers. *)
Definition silent (n : nat) (req : GenerateContentRequest)
  : RemoteBehaviour := Pending.

(** A service that answers every call with [" ok "] after exactly [ms]
    milliseconds. *)
Definition answersAfter (ms : N) (n : nat) (req : GenerateContentRequest)
  : RemoteBehaviour :=
  Settles ms (Fulfilled (Some (JS.lit " ok "))).

(** A service that is too slow for the first call only. *)
Definition slowThenOk (n : nat) (req : GenerateContentRequest)
  : RemoteBehaviour :=
  match n with
  | O => Settles 75000 (Fulfilled (Some (JS.lit "late")))
  | S _ => Settles 90000 (Fulfilled (Some (JS.lit " ok ")))
  end.

(** A service that rejects at once, with a message of its own that
    mentions a time-out on its side. *)
Definition gatewayTimedOut (n : nat) (req : GenerateContentRequest)
  : RemoteBehaviour :=
  match n with
  | O => Settles 5 (Rejected (ErrorObj (JS.lit "504 upstream timed out")))
  | S _ => Settles 10 (Fulfilled (Some (JS.lit " ok ")))
  end.

Definition world (store : gmap Z Recording) (u : UIState)
    (service : nat -> GenerateContentRequest -> RemoteBehaviour) : World :=
  mkWorld (Some store) u service [] 1700000000000.

Definition completedChunk (i : Z) (text : String.string) : TranscriptChunk :=
  TranscriptChunk.mk i (JS.lit text) CS_completed.

Definition failedChunk (i : Z) (text : String.string) : TranscriptChunk :=
  TranscriptChunk.mk i (JS.lit text) CS_failed.

(** The store holding recording 7 only. *)
Definition store (n : nat) (status : RecordingStatus)
    (chunks : list TranscriptChunk) : gmap Z Recording :=
  {[ 7%Z := recording n status chunks ]}.

(** The same database and user interface, later, with a service that
    answers. *)
Definition recovered (w : World) : World :=
  mkWorld (db w) (ui w) alwaysOk (calls w) (now w).

(** The user interface with a vocabulary. *)
Definition withVocabulary (items : list VocabularyItem) : UIState :=
  with_vocabulary items initialUI.

End Example.

(* ===================================================================== *)
(** * services/dbService.ts: the other operations                         *)
(* ===================================================================== *)

(** [store.add(recording)]: unlike [put], it fails when the key is taken. *)
Definition addRecording (recording : Recording) : M unit := fun w =>
  match db w with
  | None => (Throw (StringVal (JS.lit "Database not initialized.")), w)
  | Some store =>
      match store !! Recording.id recording with
      | Some _ => (Throw (StringVal (JS.lit "Failed to save recording.")), w)
      | None => (Normal tt, set_db (Some (put recording store)) w)
      end
  end.

(** [store.delete(id)]: succeeds whether or not the key is there. *)
Definition deleteRecording (id : Z) : M unit := fun w =>
  match db w with
  | None => (Throw (StringVal (JS.lit "Database not initialized.")), w)
  | Some store => (Normal tt, set_db (Some (delete id store)) w)
  end.

(** ** The [audioChunks] object store

    Its records are [{ recordingId, chunkIndex, chunk }] under the key
    path [[recordingId, chunkIndex]]. The three functions below reach this
    store only, through the same handle: the state they run on is the
    store, [None] before [initDB]. *)
Module AudioChunks.

Definition State : Type := option (gmap (Z * Z) Blob).

(** [IDBKeyRange.bound([recordingId, 0], [recordingId, Infinity])]. *)
Definition inRange (recordingId : Z) (key : Z * Z) : bool :=
  (key.1 =? recordingId)%Z && (0 <=? key.2)%Z.

(** [(a, b) => a.chunkIndex - b.chunkIndex]: ascending chunk index. *)
Definition byChunkIndex (a b : (Z * Z) * Blob) : Prop := (a.1.2 <= b.1.2)%Z.

#[global] Instance byChunkIndex_dec a b : Decision (byChunkIndex a b).
Proof. unfold byChunkIndex. apply _. Defined.

Definition addAudioChunk (recordingId chunkIndex : Z) (chunk : Blob)
    (st : State) : Completion unit * State :=
  match st with
  | None => (Throw (StringVal (JS.lit "Database not initialized.")), st)
  | Some store =>
      match store !! (recordingId, chunkIndex) with
      | Some _ =>
          (Throw (StringVal (JS.lit "Failed to save audio chunk.")), st)
      | None => (Normal tt, Some (<[(recordingId, chunkIndex) := chunk]> store))
      end
  end.

(** The records of the range, sorted by chunk index. *)
Definition sortedRecords (recordingId : Z) (store : gmap (Z * Z) Blob)
  : list ((Z * Z) * Blob) :=
  merge_sort byChunkIndex
    (List.filter (fun record => inRange recordingId record.1)
                 (map_to_list store)).

Definition getAudioChunks (recordingId : Z) (st : State)
  : Completion (list Blob) * State :=
  match st with
  | None => (Throw (StringVal (JS.lit "Database not initialized.")), st)
  | Some store =>
      (Normal (List.map snd (sortedRecords recordingId store)), st)
  end.

(** [store.delete(range)]. *)
Definition clearAudioChunks (recordingId : Z) (st : State)
  : Completion unit * State :=
  match st with
  | None => (Throw (StringVal (JS.lit "Database not initialized.")), st)
  | Some store =>
      (Normal tt,
       Some (filter (fun record => inRange recordingId record.1 = false) store))
  end.

End AudioChunks.

(* ===================================================================== *)
(** * The [App] component: the other handlers                             *)
(* ===================================================================== *)

(** [{ name }] as an update. *)
Definition nameUpdate (name : jsstring) : Updates.t :=
  Updates.mk (Some name) None None None None None None None.

(** [handleSelectRecording]. [isRecording] is the state of the recorder,
    read by the handler and not written. *)
Definition handleSelectRecording (isRecording : bool) (id : Z) : M unit :=
  let* closure := getUI in
  if isRecording || isTranscribing closure then ret tt
  else
    tryCatch
      (let* found := getRecording id in
       match found with
       | None =>
           setError (Some (JS.lit "Could not load the selected recording."))
       | Some recording =>
           setActiveRecordingId (Some id) ;;
           setRecordedAudioBlob (Some (Recording.blob recording)) ;;
           setTranscriptChunks (Recording.transcriptChunks recording) ;;
           setGeneratedNotes (default [] (Recording.formattedNotes recording))
       end)
      (fun _ =>
         setError (Some (JS.lit "Failed to load recording from database."))).

(** [handleUpdateTranscriptChunk]. *)
Definition handleUpdateTranscriptChunk (chunkIndex : Z) (newContent : jsstring)
  : M unit :=
  let* closure := getUI in
  let newChunks :=
    List.map
      (fun c => if (TranscriptChunk.index c =? chunkIndex)%Z
                then TranscriptChunk.withContent c newContent
                else c)
      (transcriptChunks closure) in
  setTranscriptChunks newChunks ;;
  match truthyId (activeRecordingId closure) with
  | Some activeRecordingId =>
      tryCatch
        (updateRecording activeRecordingId
           (Updates.withTranscriptChunks newChunks Updates.none))
        (fun _ =>
           setError (Some (JS.lit "Failed to save transcript changes.")))
  | None => ret tt
  end.

(** [handleConfirmDeleteRecording]. [confirmingDeleteRecording] is the id
    awaiting confirmation, [null] when there is none; the handler resets
    it at the end. *)
Definition handleConfirmDeleteRecording (confirmingDeleteRecording : option Z)
  : M unit :=
  let* closure := getUI in
  match confirmingDeleteRecording with
  | None => ret tt
  | Some id =>
      tryCatch
        (deleteRecording id ;;
         loadRecordings ;;
         if bool_decide (activeRecordingId closure = Some id) then
           setActiveRecordingId None ;;
           setTranscriptChunks [] ;;
           setRecordedAudioBlob None ;;
           setGeneratedNotes []
         else ret tt)
        (fun _ => setError (Some (JS.lit "Failed to delete the recording.")))
  end.

(** [handleUpdateRecordingName]. *)
Definition handleUpdateRecordingName (id : Z) (name : jsstring) : M unit :=
  tryCatch
    (let* found := getRecording id in
     match found with
     | Some recording =>
         if negb (JS.eqb (Recording.name recording) name) then
           updateRecording id (nameUpdate name) ;;
           loadRecordings
         else ret tt
     | None => ret tt
     end)
    (fun _ => setError (Some (JS.lit "Could not update the recording name."))).

(** [handlePasteInputChange]. *)
Definition handlePasteInputChange (content : jsstring) : M unit :=
  let* closure := getUI in
  (if JS.truthy content
   then setTranscriptChunks [TranscriptChunk.mk 0 content CS_completed]
   else setTranscriptChunks []) ;;
  (match truthyId (activeRecordingId closure) with
   | Some _ => setActiveRecordingId None
   | None => ret tt
   end) ;;
  match recordedAudioBlob closure with
  | Some _ => setRecordedAudioBlob None
  | None => ret tt
  end.

(** The callback of the debounce timer set by [handleUpdateNotes], when it
    fires. *)
Definition noteUpdateTimeoutFires : M unit :=
  let* current := getUI in
  match noteUpdateTimeout current with
  | None => ret tt
  | Some (activeRecordingId, newNotes) =>
      setNoteUpdateTimeout None ;;
      tryCatch
        (updateRecording activeRecordingId
           (Updates.withFormattedNotes (Some newNotes) Updates.none) ;;
         loadRecordings)
        (fun _ => setError (Some (JS.lit "Failed to auto-save notes.")))
  end.

Section Runs.

Context (limits : Limits).

(** [handleRetryTranscription]. *)
Definition handleRetryTranscription (id : Z) : M unit :=
  tryCatch
    (updateRecording id
       (Updates.withTranscriptChunks []
          (Updates.withStatus RS_new (Updates.withProgress 0 Updates.none))) ;;
     loadRecordings ;;
     processRecording limits id)
    (fun _ => setError (Some (JS.lit "Failed to retry transcription."))).

(** [createAndProcessRecording]. *)
Definition createAndProcessRecording (blob : Blob) (name : jsstring)
  : M unit :=
  let* id := Date_now in
  let newRecording :=
    Recording.mk id name (Blob.size blob) (Blob.type blob) RS_new 0 [] None
                 blob in
  tryCatch
    (addRecording newRecording ;;
     loadRecordings ;;
     processRecording limits (Recording.id newRecording))
    (fun err =>
       setError (Some (JS.lit "Failed to save new recording: "
                       ++ interpolate (message err)))).

End Runs.

(* ===================================================================== *)
(** * Selecting text and confirming an edit                               *)
(* ===================================================================== *)

(** [selectionInfo] of [TranscriptDisplay], without the position of the
    popup. *)
Module SelectionInfo.
Record t : Type := mk {
  text : jsstring;
  chunkIndex : Z;
  start : Z;
  end_ : Z
}.
End SelectionInfo.

(** [handleMouseUp] of [TranscriptDisplay]: [value] is the text in the
    textarea, [selectionStart] and [selectionEnd] its selection. *)
Definition handleMouseUp (value : jsstring) (selectionStart selectionEnd : Z)
    (chunkIndex : Z) : option SelectionInfo.t :=
  let selectedText := JS.substring value selectionStart selectionEnd in
  if (0 <? length (JS.trim selectedText))%nat
  then Some (SelectionInfo.mk selectedText chunkIndex selectionStart
                              selectionEnd)
  else None.

Section Confirm.

Context (toLowerCase : jsstring -> jsstring).

(** [handleConfirm] of [EditTranscriptModal] followed by the [onConfirm]
    of [TranscriptDisplay]: the edit goes to
    [handleEditAndUpdateVocabulary] with the selection. *)
Definition confirmTranscriptEdit (selectionInfo : SelectionInfo.t)
    (newText : jsstring) (replaceAll addToVocabulary : bool) : M unit :=
  if JS.truthy (JS.trim newText) then
    handleEditAndUpdateVocabulary toLowerCase
      (SelectionInfo.text selectionInfo) newText replaceAll addToVocabulary
      (SelectionInfo.chunkIndex selectionInfo)
      (SelectionInfo.start selectionInfo) (SelectionInfo.end_ selectionInfo)
  else ret tt.

End Confirm.

(** [handleNotesChange] of [NotePreview]: typing in the notes calls
    [handleUpdateNotes] with the new text. *)
Definition handleNotesChange (value : jsstring) : M unit :=
  let* closure := getUI in
  handleUpdateNotes closure value.

(* ===================================================================== *)
(** * Templates: the selection                                            *)
(* ===================================================================== *)

Module Template.
Record t : Type := mk {
  name : jsstring;
  content : jsstring
}.
End Template.

Abbreviation Template := Template.t.

(** [array.findIndex(p)]: the first position where [p] holds, [-1] when
    there is none. *)
Fixpoint findIndex {A} (p : A -> bool) (l : list A) : Z :=
  match l with
  | [] => (-1)%Z
  | x :: rest =>
      if p x then 0%Z
      else let i := findIndex p rest in
           if (i <? 0)%Z then (-1)%Z else (i + 1)%Z
  end.

(** [templates.findIndex(t => t.name === name)]. *)
Definition templateIndex (templates : list Template) (name : jsstring) : Z :=
  findIndex (fun t => JS.eqb (Template.name t) name) templates.

(** The loop of [handleToggleTemplateSelection]: [name] goes before the
    first selected name whose template comes later, at the end when there
    is none. *)
Fixpoint insertSelected (templates : list Template) (originalIndex : Z)
    (name : jsstring) (newSelected : list jsstring) : list jsstring :=
  match newSelected with
  | [] => [name]
  | selected :: rest =>
      if (originalIndex <? templateIndex templates selected)%Z
      then name :: selected :: rest
      else selected :: insertSelected templates originalIndex name rest
  end.

(** The updater that [handleToggleTemplateSelection] passes to
    [setSelectedTemplateNames]. *)
Definition toggleTemplateSelection (templates : list Template)
    (name : jsstring) (prev : list jsstring) : list jsstring :=
  if existsb (JS.eqb name) prev
  then List.filter (fun n => negb (JS.eqb n name)) prev
  else insertSelected templates (templateIndex templates name) name prev.

(** [handleConfirmDeleteTemplate], on the templates and on the selection.
    [confirmingDeleteTemplate] is the name awaiting confirmation, [null]
    when there is none; [null] and the empty name are falsy. *)
Definition deleteTemplate (confirmingDeleteTemplate : option jsstring)
    (templates : list Template) (selectedTemplateNames : list jsstring)
  : list Template * list jsstring :=
  match confirmingDeleteTemplate with
  | None => (templates, selectedTemplateNames)
  | Some deleted =>
      if negb (JS.truthy deleted)
      then (templates, selectedTemplateNames)
      else
        (List.filter (fun t => negb (JS.eqb (Template.name t) deleted))
                     templates,
         List.filter (fun name => negb (JS.eqb name deleted))
                     selectedTemplateNames)
  end.

(* ===================================================================== *)
(** * The vocabulary dialog                                               *)
(* ===================================================================== *)

(** The state of [VocabularyModal] is its [localVocabulary]. *)
Module VocabularyModal.

(** [handleAddItem]. *)
Definition handleAddItem (timestamp : Z)
    (localVocabulary : list VocabularyItem) : list VocabularyItem :=
  localVocabulary ++ [VocabularyItem.mk timestamp [] []].

Inductive Field : Type := word | description.

(** [{ ...item, [field]: value }]. *)
Definition withField (field : Field) (value : jsstring)
    (item : VocabularyItem) : VocabularyItem :=
  match field with
  | word =>
      VocabularyItem.mk (VocabularyItem.id item) value
                        (VocabularyItem.description item)
  | description =>
      VocabularyItem.mk (VocabularyItem.id item) (VocabularyItem.word item)
                        value
  end.

(** [handleItemChange]. The rows of the dialog call it with their own
    index, which is in range; for an index beyond the rows JavaScript
    would extend the array with an object that is no vocabulary item,
    which is outside the typed model: [None]. *)
Definition handleItemChange (index : nat) (field : Field) (value : jsstring)
    (localVocabulary : list VocabularyItem) : option (list VocabularyItem) :=
  if (index <? length localVocabulary)%nat
  then Some (alter (withField field value) index localVocabulary)
  else None.

(** [handleDeleteItem]. *)
Definition handleDeleteItem (id : Z) (localVocabulary : list VocabularyItem)
  : list VocabularyItem :=
  List.filter (fun item => negb (VocabularyItem.id item =? id)%Z)
              localVocabulary.

(** [handleSave]: what is passed to [onSave], that is to [setVocabulary]. *)
Definition handleSave (localVocabulary : list VocabularyItem)
  : list VocabularyItem :=
  List.filter (fun item => JS.truthy (JS.trim (VocabularyItem.word item)))
              localVocabulary.

End VocabularyModal.

(* ===================================================================== *)
(** * Vocabulary of the statements                                        *)
(* ===================================================================== *)

(** A field after a merge: the update's value when the update lists the
    field, the old value otherwise. *)
Definition mergedField {A} (old : A) (listed : option A) (new : A) : Prop :=
  match listed with
  | Some v => new = v
  | None => new = old
  end.

(** What the race of [withTimeout] sees: the settlement of the promise
    when it comes no later than [ms] milliseconds after the call, nothing
    when the timer fires first. *)
Definition settledWithin (promise : RemoteBehaviour) (ms : N)
  : option Settlement :=
  match promise with
  | Settles latency s => if (latency <=? ms)%N then Some s else None
  | Pending => None
  end.

(** The error [transcribeAudio] throws for a failure [e] of its body. *)
Definition transcriptionError (e : JsThrown) : JsThrown :=
  match e with
  | ErrorObj m => ErrorObj (JS.lit "Error transcribing audio: " ++ m)
  | StringVal _ =>
      ErrorObj (JS.lit "An unknown error occurred during transcription.")
  end.

(** The text [formatNotes] returns for a failure [e] of the remote call. *)
Definition formattingErrorText (e : JsThrown) : jsstring :=
  match e with
  | ErrorObj m =>
      JS.lit "Error formatting notes: " ++ m
      ++ JS.lit ". Please check the console for more details."
  | StringVal _ => JS.lit "An unknown error occurred while formatting notes."
  end.

(** Is [e] what [transcribeAudio] takes for a time-out? *)
Definition looksTimedOut (e : JsThrown) : bool :=
  instanceofError e && JS.includes (errorMessageOf e) (JS.lit "timed out").

(** The database handle holds recording [r] under [id]. *)
Definition storedIn (d : option (gmap Z Recording)) (id : Z) (r : Recording)
  : Prop :=
  exists store, d = Some store /\ store !! id = Some r /\ Recording.id r = id.

(** The piece that the loop leaves at index [i] for an outcome of the
    transcription call: the trimmed text, or the message of the error. *)
Definition pieceOf (i : nat) (outcome : Completion jsstring) : TranscriptChunk :=
  match outcome with
  | Normal text => TranscriptChunk.mk (Z.of_nat i) (JS.trim text) CS_completed
  | Throw e => TranscriptChunk.mk (Z.of_nat i) (errorMessageOf e) CS_failed
  end.

Definition succeeded (outcome : Completion jsstring) : bool :=
  match outcome with Normal _ => true | Throw _ => false end.

(** The transcription calls for [blobs], made one after the other from
    world [w]: their outcomes, and the world after the last one. *)
Fixpoint transcribeEach (blobs : list Blob) (mimeType prompt : jsstring)
    (w : World) : list (Completion jsstring) * World :=
  match blobs with
  | [] => ([], w)
  | blob :: rest =>
      let first := transcribeAudio blob mimeType prompt w in
      let others := transcribeEach rest mimeType prompt first.2 in
      (first.1 :: others.1, others.2)
  end.

(** The pieces as the loop fills them in: outcome [k] of [outcomes] goes
    to index [i + k]. *)
Fixpoint fillFrom (i : nat) (outcomes : list (Completion jsstring))
    (chunks : list TranscriptChunk) : list TranscriptChunk :=
  match outcomes with
  | [] => chunks
  | outcome :: rest => fillFrom (S i) rest (<[i := pieceOf i outcome]> chunks)
  end.

(** Every piece carries its position as its [index]. *)
Definition indexed (chunks : list TranscriptChunk) : Prop :=
  forall k c, chunks !! k = Some c -> TranscriptChunk.index c = Z.of_nat k.

(** What [escapeRegExp] does to one code unit. *)
Definition escapeUnit (c : N) : jsstring :=
  if RegExp.isSyntaxCharacter c then [RegExp.backslash; c] else [c].

(** The recording stored under [id], if any. *)
Definition storedRecording (w : World) (id : Z) : option Recording :=
  match db w with
  | Some store => store !! id
  | None => None
  end.

(** The audio bytes carried by a request. *)
Definition audioOf (request : GenerateContentRequest) : list Byte.byte :=
  match contents request with
  | AudioAndText _ data _ => data
  | TextOnly _ => []
  end.

(** The text carried by a formatting request. *)
Definition promptOf (request : GenerateContentRequest) : jsstring :=
  match contents request with
  | AudioAndText _ _ text => text
  | TextOnly prompt => prompt
  end.

(** A text that is empty or made of white space only. *)
Definition whiteSpaceOnly (s : jsstring) : Prop :=
  forallb JS.isWhiteSpace s = true.

(** The blob that [handleRetryChunkTranscription] submits for the piece
    [chunkIndex] of [blob]: the byte range of the piece, with the header
    in front when the piece is not the first one and the payload is
    larger than one piece. *)
Definition retryBlobToSend (limits : Limits) (blob : Blob) (chunkIndex : Z)
  : Blob :=
  let start :=
    (chunkIndex * (MAX_CHUNK_SIZE_BYTES limits - HEADER_SIZE_BYTES limits))%Z in
  let end_ :=
    Z.min (start + (MAX_CHUNK_SIZE_BYTES limits - HEADER_SIZE_BYTES limits))
          (Blob.size blob) in
  let chunkBlob := Blob.slice blob start end_ (Blob.type blob) in
  if (0 <? chunkIndex)%Z && (MAX_CHUNK_SIZE_BYTES limits <? Blob.size blob)%Z
  then
    let header :=
      Blob.slice blob 0 (HEADER_SIZE_BYTES limits) (Blob.type blob) in
    Blob.concat header chunkBlob (Blob.type blob)
  else chunkBlob.

(** The fragments of a live recording, saved one after the other under
    the chunk indices [chunkIndex], [chunkIndex + 1], ... as the recorder
    delivers them; the first failure stops the sequence. *)
Fixpoint saveFragments (recordingId chunkIndex : Z) (fragments : list Blob)
    (st : AudioChunks.State) : Completion unit * AudioChunks.State :=
  match fragments with
  | [] => (Normal tt, st)
  | fragment :: rest =>
      match AudioChunks.addAudioChunk recordingId chunkIndex fragment st with
      | (Normal _, st') => saveFragments recordingId (chunkIndex + 1) rest st'
      | (Throw e, st') => (Throw e, st')
      end
  end.

(** The selection follows the order of the template list. *)
Definition inTemplateOrder (templates : list Template)
    (selected : list jsstring) : Prop :=
  StronglySorted
    (fun a b => (templateIndex templates a <= templateIndex templates b)%Z)
    selected.

(** Every selected name is the name of a template, and is selected once. *)
Definition selectionValid (templates : list Template)
    (selected : list jsstring) : Prop :=
  NoDup selected
  /\ forall name, name ∈ selected ->
       exists t, t ∈ templates /\ Template.name t = name.

(* ===================================================================== *)
(** * The recording store                                                 *)
(* ===================================================================== *)

Lemma put_keyed (store : gmap Z Recording) (value : Recording) :
  keyed store -> keyed (put value store).
Proof.
  intros Hk k r. unfold put.
  destruct (decide (Recording.id value = k)) as [Heq|Hne].
  - subst k. rewrite lookup_insert_eq. intros Hr. injection Hr as <-.
    reflexivity.
  - rewrite lookup_insert_ne by done. apply Hk.
Qed.

Lemma updateRecording_found (w : World) (store : gmap Z Recording) (id : Z)
    (updates : Updates.t) (data : Recording) :
  db w = Some store -> store !! id = Some data ->
  updateRecording id updates w
  = (Normal tt, set_db (Some (put (spread data updates) store)) w).
Proof. intros Hdb Hget. unfold updateRecording. by rewrite Hdb, Hget. Qed.

(** C10. [updateRecording] merges: in a store that keeps every record
    under its id, the record found under [id] is replaced by one with the
    same id, where each field listed in the update has the update's value
    and every other field (the binary payload included) its old value;
    the other records stay as they are. When no record has that id the
    call is rejected and the world, the store included, is unchanged. *)
Theorem updateRecording_merge (w : World) (store : gmap Z Recording) (id : Z)
    (updates : Updates.t) :
  db w = Some store -> keyed store ->
  (forall data, store !! id = Some data ->
     exists updated,
       updateRecording id updates w
       = (Normal tt, set_db (Some (<[id := updated]> store)) w)
       /\ Recording.id updated = id
       /\ mergedField (Recording.name data) (Updates.name updates)
                      (Recording.name updated)
       /\ mergedField (Recording.size data) (Updates.size updates)
                      (Recording.size updated)
       /\ mergedField (Recording.mimeType data) (Updates.mimeType updates)
                      (Recording.mimeType updated)
       /\ mergedField (Recording.status data) (Updates.status updates)
                      (Recording.status updated)
       /\ mergedField (Recording.progress data) (Updates.progress updates)
                      (Recording.progress updated)
       /\ mergedField (Recording.transcriptChunks data)
                      (Updates.transcriptChunks updates)
                      (Recording.transcriptChunks updated)
       /\ mergedField (Recording.formattedNotes data)
                      (Updates.formattedNotes updates)
                      (Recording.formattedNotes updated)
       /\ mergedField (Recording.blob data) (Updates.blob updates)
                      (Recording.blob updated)
       /\ (forall k, k <> id -> <[id := updated]> store !! k = store !! k))
  /\ (store !! id = None ->
      exists reason, updateRecording id updates w = (Throw reason, w)).
Proof.
  intros Hdb Hkeyed. split.
  - intros data Hget. exists (spread data updates).
    pose proof (Hkeyed _ _ Hget) as Hid.
    split.
    { rewrite (updateRecording_found w store id updates data Hdb Hget).
      unfold put. simpl. by rewrite Hid. }
    split; [exact Hid|].
    destruct updates as [n s m st p t f b]; simpl.
    repeat split;
      try (match goal with
           | |- mergedField _ ?o _ => destruct o; reflexivity
           end).
    intros k Hne. by rewrite lookup_insert_ne.
  - intros Hnone. eexists. unfold updateRecording. rewrite Hdb, Hnone.
    reflexivity.
Qed.

(** An instance: renaming nothing, setting status and progress. *)
Lemma updateRecording_merge_witness :
  let store : gmap Z Recording := {[ 7%Z := Example.recording 5 RS_new [] ]} in
  let w := Example.world store Example.initialUI Example.alwaysOk in
  let updates := Updates.withStatus RS_failed (Updates.withProgress 100 Updates.none) in
  (exists updated,
      updateRecording 7 updates w
      = (Normal tt, set_db (Some (<[7%Z := updated]> store)) w)
      /\ Recording.status updated = RS_failed
      /\ Recording.blob updated = Example.payload 5)
  /\ (exists reason, updateRecording 8 updates w = (Throw reason, w)).
Proof.
  intros store w updates.
  assert (Hk : keyed store).
  { intros k r. unfold store. intros H.
    apply lookup_singleton_Some in H as [<- <-]. reflexivity. }
  destruct (updateRecording_merge w store 7 updates eq_refl Hk) as [Hfound _].
  destruct (updateRecording_merge w store 8 updates eq_refl Hk) as [_ Hmissing].
  split.
  - destruct (Hfound (Example.recording 5 RS_new [])) as (u & Hrun & _ & _ & _ & _ & Hst & _ & _ & _ & Hblob & _).
    { unfold store. apply lookup_singleton_eq. }
    exists u. repeat split; assumption.
  - apply Hmissing. unfold store. by apply lookup_singleton_ne.
Defined.

(* ===================================================================== *)
(** * The Gemini service wrapper                                          *)
(* ===================================================================== *)

Arguments JS.lit : simpl never.

Lemma withTimeout_settledWithin (promise : RemoteBehaviour) (ms : N)
    (errorMessage : jsstring) (w : World) :
  withTimeout promise ms errorMessage w
  = match settledWithin promise ms with
    | Some (Fulfilled text) => (Normal text, w)
    | Some (Rejected e) => (Throw e, w)
    | None => (Throw (ErrorObj errorMessage), w)
    end.
Proof.
  unfold withTimeout, settledWithin.
  destruct promise as [latency [text|e]|]; try reflexivity;
    destruct (latency <=? ms)%N; reflexivity.
Qed.

(** The message of the timer of the first attempt is taken for a time-out,
    and so is the one of the retry. *)
Lemma timer_message_looksTimedOut :
  looksTimedOut
    (ErrorObj (JS.lit "Transcription request timed out after 60 seconds."))
  = true.
Proof. reflexivity. Qed.

(** The two requests of a transcription call. *)
Lemma transcribeAudio_unfold (audioBlob : Blob) (mimeType prompt : jsstring)
    (w : World) :
  let contents :=
    AudioAndText (JS.splitFirst semicolon mimeType) (Blob.bytes audioBlob)
                 prompt in
  let fast := mkRequest (JS.lit "gemini-flash-lite-latest") contents in
  let strong := mkRequest (JS.lit "gemini-2.5-pro") contents in
  let n := length (calls w) in
  let retry :=
    (match settledWithin (remote w (S n) strong) 120000 with
     | Some (Fulfilled text) => Normal (default [] text)
     | Some (Rejected e) => Throw (transcriptionError e)
     | None =>
         Throw (transcriptionError
                  (ErrorObj (JS.lit "Transcription retry request timed out after 120 seconds.")))
     end, set_calls (calls w ++ [fast; strong]) w) in
  transcribeAudio audioBlob mimeType prompt w
  = match settledWithin (remote w n fast) 60000 with
    | Some (Fulfilled text) =>
        (Normal (default [] text), set_calls (calls w ++ [fast]) w)
    | Some (Rejected e) =>
        if looksTimedOut e then retry
        else (Throw (transcriptionError e), set_calls (calls w ++ [fast]) w)
    | None => retry
    end.
Proof.
  intros contents fast strong n retry.
  unfold transcribeAudio, tryCatch, bind, blobToBase64, ret, generateContent,
    throw.
  cbv beta iota.
  rewrite withTimeout_settledWithin.
  fold contents. fold fast. fold strong. fold n.
  assert (Hlen : length (calls w ++ [fast]) = S n)
    by (rewrite length_app; simpl; unfold n; lia).
  assert (Hlog : (calls w ++ [fast]) ++ [strong] = calls w ++ [fast; strong])
    by (rewrite <- app_assoc; reflexivity).
  destruct (settledWithin (remote w n fast) 60000) as [[text|e]|];
    cbv beta iota.
  - reflexivity.
  - change (instanceofError e
            && JS.includes (errorMessageOf e) (JS.lit "timed out"))
      with (looksTimedOut e).
    destruct (looksTimedOut e); cbv beta iota.
    + rewrite withTimeout_settledWithin.
      cbn [remote calls set_calls db ui now]. rewrite Hlen, Hlog.
      unfold retry.
      destruct (settledWithin (remote w (S n) strong) 120000)
        as [[text'|e']|]; try reflexivity.
      destruct e'; reflexivity.
    + destruct e; reflexivity.
  - change (instanceofError
              (ErrorObj (JS.lit "Transcription request timed out after 60 seconds."))
            && JS.includes
                 (errorMessageOf
                    (ErrorObj (JS.lit "Transcription request timed out after 60 seconds.")))
                 (JS.lit "timed out"))
      with (looksTimedOut
              (ErrorObj (JS.lit "Transcription request timed out after 60 seconds."))).
    rewrite timer_message_looksTimedOut. cbv beta iota.
    rewrite withTimeout_settledWithin.
    cbn [remote calls set_calls db ui now]. rewrite Hlen, Hlog.
    unfold retry.
    destruct (settledWithin (remote w (S n) strong) 120000)
      as [[text'|e']|]; try reflexivity.
    destruct e'; reflexivity.
Qed.

(** [transcribeAudio] reads the remote service and the call log, and
    writes the call log only. *)
Lemma transcribeAudio_frame (audioBlob : Blob) (mimeType prompt : jsstring)
    (w : World) (d : option (gmap Z Recording)) (u : UIState) :
  transcribeAudio audioBlob mimeType prompt
                  (mkWorld d u (remote w) (calls w) (now w))
  = ((transcribeAudio audioBlob mimeType prompt w).1,
     mkWorld d u (remote w)
             (calls (transcribeAudio audioBlob mimeType prompt w).2) (now w)).
Proof.
  rewrite !transcribeAudio_unfold.
  cbn [remote calls set_calls db ui now].
  destruct (settledWithin _ 60000) as [[text|e]|]; try reflexivity.
  destruct (looksTimedOut e); reflexivity.
Qed.

(** A transcription call only ever throws [Error] objects. *)
Lemma transcribeAudio_throws_Error (audioBlob : Blob)
    (mimeType prompt : jsstring) (w : World) (e : JsThrown) :
  (transcribeAudio audioBlob mimeType prompt w).1 = Throw e ->
  instanceofError e = true.
Proof.
  rewrite transcribeAudio_unfold.
  destruct (settledWithin _ 60000) as [[text|e0]|]; cbn.
  - discriminate.
  - destruct (looksTimedOut e0); cbn.
    + destruct (settledWithin _ 120000) as [[text'|e']|]; cbn;
        try discriminate; intros [= <-]; [destruct e'|]; reflexivity.
    + intros [= <-]. destruct e0; reflexivity.
  - destruct (settledWithin _ 120000) as [[text'|e']|]; cbn;
      try discriminate; intros [= <-]; [destruct e'|]; reflexivity.
Qed.

(** C4, as the code has it. The first attempt goes to
    gemini-flash-lite-latest under a timer of 60000ms, which it beats
    when it settles after 60000ms at the latest. When it is fulfilled in
    time, its text is returned and no other call is made. When it is not
    settled in time, exactly one more call is made, against
    gemini-2.5-pro under a timer of 120000ms, and its outcome is the
    outcome of the transcription: its text, its error, or the final
    time-out error. The same retry is made when the first attempt is
    rejected in time by an [Error] whose own message contains
    ["timed out"]. When it is rejected in time by anything else, no second
    call is made and an [Error] is thrown at once, with the message
    ["Error transcribing audio: "] followed by the message of the
    rejection when the rejection is an [Error], and the message
    ["An unknown error occurred during transcription."] when it is any
    other value. *)
Theorem transcribeAudio_escalation (w : World) (audioBlob : Blob)
    (mimeType prompt : jsstring) :
  let contents :=
    AudioAndText (JS.splitFirst semicolon mimeType) (Blob.bytes audioBlob)
                 prompt in
  let fast := mkRequest (JS.lit "gemini-flash-lite-latest") contents in
  let strong := mkRequest (JS.lit "gemini-2.5-pro") contents in
  let n := length (calls w) in
  let run := transcribeAudio audioBlob mimeType prompt w in
  let retried :=
    calls run.2 = calls w ++ [fast; strong]
    /\ run.1 = match settledWithin (remote w (S n) strong) 120000 with
               | Some (Fulfilled text) => Normal (default [] text)
               | Some (Rejected e) => Throw (transcriptionError e)
               | None =>
                   Throw (ErrorObj (JS.lit "Error transcribing audio: Transcription retry request timed out after 120 seconds."))
               end in
  (settledWithin (remote w n fast) 60000 = None -> retried)
  /\ (forall e,
        settledWithin (remote w n fast) 60000 = Some (Rejected e) ->
        looksTimedOut e = false ->
        calls run.2 = calls w ++ [fast]
        /\ run.1 = Throw (transcriptionError e))
  /\ (forall e,
        settledWithin (remote w n fast) 60000 = Some (Rejected e) ->
        looksTimedOut e = true ->
        retried)
  /\ (forall text,
        settledWithin (remote w n fast) 60000 = Some (Fulfilled text) ->
        calls run.2 = calls w ++ [fast]
        /\ run.1 = Normal (default [] text))
  /\ (forall v,
        transcriptionError (StringVal v)
        = ErrorObj (JS.lit "An unknown error occurred during transcription."))
  /\ (forall m,
        transcriptionError (ErrorObj m)
        = ErrorObj (JS.lit "Error transcribing audio: " ++ m)).
Proof.
  intros contents fast strong n run retried. unfold retried, run.
  rewrite transcribeAudio_unfold.
  fold contents. fold fast. fold strong. fold n.
  split; [|split; [|split; [|split; [|split]]]].
  - intros ->. cbn. split; [reflexivity|].
    destruct (settledWithin _ 120000) as [[text|e]|]; reflexivity.
  - intros e -> ->. split; reflexivity.
  - intros e -> ->. cbn. split; [reflexivity|].
    destruct (settledWithin _ 120000) as [[text|e']|]; reflexivity.
  - intros text ->. split; reflexivity.
  - reflexivity.
  - reflexivity.
Qed.

(** A service that never answers: two calls, then the final time-out. A
    service that rejects the first call with ["quota"]: one call. A
    service that rejects the first call after 5ms with a message of its
    own that contains ["timed out"]: two calls, and the text of the
    second. A service that answers after exactly 60000ms: one call, and
    its text. *)
Lemma transcribeAudio_escalation_witness :
  (let w := Example.world ∅ Example.initialUI Example.silent in
   let run := transcribeAudio (Example.payload 3) (JS.lit "audio/webm")
                              (JS.lit "Transcribe.") w in
   List.map model (calls run.2)
   = [JS.lit "gemini-flash-lite-latest"; JS.lit "gemini-2.5-pro"]
   /\ run.1 = Throw (ErrorObj (JS.lit "Error transcribing audio: Transcription retry request timed out after 120 seconds.")))
  /\ (let w := Example.world ∅ Example.initialUI (Example.failingAt 0) in
      let run := transcribeAudio (Example.payload 3) (JS.lit "audio/webm")
                                 (JS.lit "Transcribe.") w in
      List.map model (calls run.2) = [JS.lit "gemini-flash-lite-latest"]
      /\ run.1 = Throw (ErrorObj (JS.lit "Error transcribing audio: quota")))
  /\ (let w := Example.world ∅ Example.initialUI Example.gatewayTimedOut in
      let run := transcribeAudio (Example.payload 3) (JS.lit "audio/webm")
                                 (JS.lit "Transcribe.") w in
      List.map model (calls run.2)
      = [JS.lit "gemini-flash-lite-latest"; JS.lit "gemini-2.5-pro"]
      /\ run.1 = Normal (JS.lit " ok "))
  /\ (let w := Example.world ∅ Example.initialUI
                             (Example.answersAfter 60000) in
      let run := transcribeAudio (Example.payload 3) (JS.lit "audio/webm")
                                 (JS.lit "Transcribe.") w in
      List.map model (calls run.2) = [JS.lit "gemini-flash-lite-latest"]
      /\ run.1 = Normal (JS.lit " ok ")).
Proof.
  split; [|split; [|split]].
  - intros w run.
    destruct (transcribeAudio_escalation w (Example.payload 3)
                (JS.lit "audio/webm") (JS.lit "Transcribe.")) as [Hslow _].
    destruct (Hslow eq_refl) as [Hcalls Hres].
    split.
    + unfold run. rewrite Hcalls. reflexivity.
    + unfold run. rewrite Hres. reflexivity.
  - intros w run.
    destruct (transcribeAudio_escalation w (Example.payload 3)
                (JS.lit "audio/webm") (JS.lit "Transcribe."))
      as (_ & Hfail & _).
    destruct (Hfail (ErrorObj (JS.lit "quota")) eq_refl eq_refl)
      as [Hcalls Hres].
    split.
    + unfold run. rewrite Hcalls. reflexivity.
    + unfold run. rewrite Hres. reflexivity.
  - intros w run.
    destruct (transcribeAudio_escalation w (Example.payload 3)
                (JS.lit "audio/webm") (JS.lit "Transcribe."))
      as (_ & _ & Hretry & _).
    destruct (Hretry (ErrorObj (JS.lit "504 upstream timed out")) eq_refl
                     eq_refl) as [Hcalls Hres].
    split.
    + unfold run. rewrite Hcalls. reflexivity.
    + unfold run. rewrite Hres. reflexivity.
  - intros w run.
    destruct (transcribeAudio_escalation w (Example.payload 3)
                (JS.lit "audio/webm") (JS.lit "Transcribe."))
      as (_ & _ & _ & Hfirst & _).
    destruct (Hfirst (Some (JS.lit " ok ")) eq_refl) as [Hcalls Hres].
    split.
    + unfold run. rewrite Hcalls. reflexivity.
    + unfold run. rewrite Hres. reflexivity.
Defined.

(** C4 as stated fails: the first attempt is rejected by the service
    itself after 5ms, far below the 60000ms bound, so it is not a
    time-out of the call; yet, its message containing ["timed out"], a
    second call is made against gemini-2.5-pro. *)
Lemma non_timeout_failure_is_retried :
  let w := Example.world ∅ Example.initialUI Example.gatewayTimedOut in
  let contents :=
    AudioAndText (JS.lit "audio/webm") (Blob.bytes (Example.payload 3))
                 (JS.lit "Transcribe.") in
  let run := transcribeAudio (Example.payload 3) (JS.lit "audio/webm")
                             (JS.lit "Transcribe.") w in
  settledWithin
    (remote w 0 (mkRequest (JS.lit "gemini-flash-lite-latest") contents))
    60000
  = Some (Rejected (ErrorObj (JS.lit "504 upstream timed out")))
  /\ calls run.2
     = [mkRequest (JS.lit "gemini-flash-lite-latest") contents;
        mkRequest (JS.lit "gemini-2.5-pro") contents]
  /\ run.1 = Normal (JS.lit " ok ").
Proof. vm_compute. repeat split; reflexivity. Qed.

(** ** [formatNotes] *)

Lemma trimStart_nil (s : jsstring) :
  JS.trimStart s = [] <-> forallb JS.isWhiteSpace s = true.
Proof.
  induction s as [|c s IH]; cbn; [done|].
  destruct (JS.isWhiteSpace c); cbn; [exact IH|]. split; discriminate.
Qed.

Lemma trimStart_head (s : jsstring) (c : N) (rest : jsstring) :
  JS.trimStart s = c :: rest -> JS.isWhiteSpace c = false.
Proof.
  induction s as [|d s IH]; cbn; [discriminate|].
  destruct (JS.isWhiteSpace d) eqn:Hd; [exact IH|].
  intros [= <- _]. exact Hd.
Qed.

(** [s.trim()] is empty exactly when [s] is made of white space only. *)
Lemma trim_nil (s : jsstring) : JS.trim s = [] <-> whiteSpaceOnly s.
Proof.
  unfold whiteSpaceOnly, JS.trim, JS.trimEnd. split.
  - intros H. apply (f_equal (@rev N)) in H. rewrite rev_involutive in H.
    cbn in H. apply trimStart_nil in H.
    destruct (JS.trimStart s) as [|c rest] eqn:Hs; [by apply trimStart_nil|].
    pose proof (trimStart_head s c rest Hs) as Hc.
    rewrite forallb_forall in H. specialize (H c).
    rewrite H in Hc; [discriminate|].
    apply in_rev. rewrite rev_involutive. by left.
  - intros H. apply trimStart_nil in H. by rewrite H.
Qed.

Lemma formatNotes_refuses (w : World)
    (transcription customInstruction model : jsstring) :
  JS.trim transcription = [] \/ JS.trim customInstruction = [] ->
  exists reason,
    formatNotes transcription customInstruction model w
    = (Throw (ErrorObj reason), w).
Proof.
  unfold formatNotes. intros [H|H].
  - rewrite H. eexists. reflexivity.
  - rewrite H. destruct (JS.trim transcription); eexists; reflexivity.
Qed.

Lemma formatNotes_calls (w : World)
    (transcription customInstruction model : jsstring) :
  let request :=
    mkRequest model (TextOnly (formatPrompt customInstruction transcription)) in
  JS.trim transcription <> [] -> JS.trim customInstruction <> [] ->
  formatNotes transcription customInstruction model w
  = (match settledWithin (remote w (length (calls w)) request) 120000 with
     | Some (Fulfilled text) => Normal (default [] text)
     | Some (Rejected e) => Normal (formattingErrorText e)
     | None =>
         Normal (formattingErrorText
                   (ErrorObj (JS.lit "Formatting notes request timed out after 120 seconds.")))
     end,
     set_calls (calls w ++ [request]) w).
Proof.
  intros request Ht Hi. unfold formatNotes.
  destruct (JS.trim transcription) as [|c t]; [done|].
  destruct (JS.trim customInstruction) as [|c' i]; [done|].
  cbn [JS.truthy negb].
  unfold tryCatch, bind, generateContent, ret. cbv beta iota.
  rewrite withTimeout_settledWithin. fold request.
  destruct (settledWithin _ 120000) as [[text|e]|]; cbn;
    try reflexivity.
  destruct e; reflexivity.
Qed.

(** C6. [formatNotes] throws, with no call made, when the transcript or
    the instruction is empty or made of white space only. Otherwise it
    makes one call and never throws: it returns the response text when the
    call is fulfilled within 120000ms (after 120000ms at the latest), and
    a description of the failure when it is rejected or times out. *)
Theorem formatNotes_contract (w : World)
    (transcription customInstruction model : jsstring) :
  let run := formatNotes transcription customInstruction model w in
  let request :=
    mkRequest model (TextOnly (formatPrompt customInstruction transcription)) in
  (whiteSpaceOnly transcription \/ whiteSpaceOnly customInstruction ->
     exists reason, run = (Throw (ErrorObj reason), w))
  /\ (~ whiteSpaceOnly transcription -> ~ whiteSpaceOnly customInstruction ->
      calls run.2 = calls w ++ [request]
      /\ run.1 =
         match settledWithin (remote w (length (calls w)) request) 120000 with
         | Some (Fulfilled text) => Normal (default [] text)
         | Some (Rejected e) => Normal (formattingErrorText e)
         | None =>
             Normal (formattingErrorText
                       (ErrorObj (JS.lit "Formatting notes request timed out after 120 seconds.")))
         end).
Proof.
  intros run request. unfold run. split.
  - intros H. apply formatNotes_refuses. rewrite !trim_nil. exact H.
  - intros Ht Hi. rewrite <- trim_nil in Ht, Hi.
    rewrite (formatNotes_calls w _ _ model Ht Hi). split; reflexivity.
Qed.

(** A transcript of three spaces is refused without a call; with a
    transcript and an instruction, a rejected call comes back as text,
    and a response that arrives after exactly 120000ms is returned. *)
Lemma formatNotes_contract_witness :
  (let w := Example.world ∅ Example.initialUI Example.alwaysOk in
   exists reason,
     formatNotes (JS.lit "   ") (JS.lit "Summarise.") (JS.lit "gemini-2.5-flash") w
     = (Throw (ErrorObj reason), w))
  /\ (let w := Example.world ∅ Example.initialUI (Example.failingAt 0) in
      (formatNotes (JS.lit "hello") (JS.lit "Summarise.")
                   (JS.lit "gemini-2.5-flash") w).1
      = Normal (JS.lit "Error formatting notes: quota. Please check the console for more details."))
  /\ (let w := Example.world ∅ Example.initialUI
                             (Example.answersAfter 120000) in
      (formatNotes (JS.lit "hello") (JS.lit "Summarise.")
                   (JS.lit "gemini-2.5-flash") w).1
      = Normal (JS.lit " ok ")).
Proof.
  split; [|split].
  - intros w.
    destruct (formatNotes_contract w (JS.lit "   ") (JS.lit "Summarise.")
                (JS.lit "gemini-2.5-flash")) as [Hrefuse _].
    apply Hrefuse. left. vm_compute. reflexivity.
  - intros w.
    destruct (formatNotes_contract w (JS.lit "hello") (JS.lit "Summarise.")
                (JS.lit "gemini-2.5-flash")) as [_ Hcall].
    destruct Hcall as [_ Hres];
      [vm_compute; discriminate | vm_compute; discriminate |].
    rewrite Hres. vm_compute. reflexivity.
  - intros w.
    destruct (formatNotes_contract w (JS.lit "hello") (JS.lit "Summarise.")
                (JS.lit "gemini-2.5-flash")) as [_ Hcall].
    destruct Hcall as [_ Hres];
      [vm_compute; discriminate | vm_compute; discriminate |].
    rewrite Hres. vm_compute. reflexivity.
Defined.

(* ===================================================================== *)
(** * The transcription pipeline                                          *)
(* ===================================================================== *)

(** ** Running the monad by hand *)

Ltac unfold_setters :=
  unfold setTranscriptChunks, setGeneratedNotes, setError, setIsTranscribing,
    setIsGenerating, setTranscriptionStatus, setActiveRecordingId,
    setRecordedAudioBlob, setSavedRecordings, setNoteUpdateTimeout,
    setVocabulary, modifyUI, set_ui, getUI, Date_now, ret.

Ltac run1 := unfold bind at 1; cbn [db ui remote calls now].

Section Pipeline.

Context (limits : Limits).

Local Abbreviation MAX := (MAX_CHUNK_SIZE_BYTES limits).
Local Abbreviation HEADER := (HEADER_SIZE_BYTES limits).

(** C3. Running the pipeline on a recording stored as [completed] with at
    least one piece makes no remote call and leaves the database as it
    is; the pieces shown are the stored ones. *)
Theorem processRecording_completed_is_cached (w : World)
    (store : gmap Z Recording) (id : Z) (recording : Recording) :
  db w = Some store ->
  store !! id = Some recording ->
  Recording.status recording = RS_completed ->
  Recording.transcriptChunks recording <> [] ->
  let run := processRecording limits id w in
  run.1 = Normal tt
  /\ calls run.2 = calls w
  /\ db run.2 = db w
  /\ transcriptChunks (ui run.2) = Recording.transcriptChunks recording.
Proof.
  intros Hdb Hget Hstatus Hchunks run. unfold run.
  destruct w as [d u service log clock]. simpl in Hdb. subst d.
  unfold processRecording, tryFinally, bind, settle, getRecording, getUI,
    setTranscriptChunks, setGeneratedNotes, setError, setIsTranscribing,
    setActiveRecordingId, setTranscriptionStatus, modifyUI.
  cbn [db ui remote calls now set_ui set_db set_calls].
  rewrite Hget.
  unfold tryCatch, processLoaded, bind, setRecordedAudioBlob,
    setTranscriptChunks, setGeneratedNotes, setIsTranscribing,
    setTranscriptionStatus, modifyUI.
  cbn [db ui remote calls now set_ui set_db set_calls].
  rewrite Hstatus.
  destruct (Recording.transcriptChunks recording) as [|c cs] eqn:Hcs; [done|].
  cbn. repeat split; reflexivity.
Qed.

(** ** Steps on the database *)

Lemma storedIn_put (store : gmap Z Recording) (id : Z) (r : Recording) :
  Recording.id r = id -> storedIn (Some (put r store)) id r.
Proof.
  intros Hid. exists (put r store). split; [reflexivity|]. split; [|exact Hid].
  unfold put. rewrite Hid. apply lookup_insert_eq.
Qed.

Lemma updateRecording_stored (d : option (gmap Z Recording)) (u : UIState)
    (s : nat -> GenerateContentRequest -> RemoteBehaviour)
    (l : list GenerateContentRequest) (c : Z) (id : Z) (updates : Updates.t)
    (r : Recording) :
  storedIn d id r ->
  exists d',
    updateRecording id updates (mkWorld d u s l c)
    = (Normal tt, mkWorld d' u s l c)
    /\ storedIn d' id (spread r updates).
Proof.
  intros (store & -> & Hget & Hid).
  eexists. split.
  - unfold updateRecording. cbn [db]. rewrite Hget. reflexivity.
  - apply storedIn_put. exact Hid.
Qed.

Lemma getRecording_stored (d : option (gmap Z Recording)) (u : UIState)
    (s : nat -> GenerateContentRequest -> RemoteBehaviour)
    (l : list GenerateContentRequest) (c : Z) (id : Z) (r : Recording) :
  storedIn d id r ->
  getRecording id (mkWorld d u s l c) = (Normal (Some r), mkWorld d u s l c).
Proof.
  intros (store & -> & Hget & _). unfold getRecording. cbn [db].
  by rewrite Hget.
Qed.

Lemma loadRecordings_stored (d : option (gmap Z Recording)) (u : UIState)
    (s : nat -> GenerateContentRequest -> RemoteBehaviour)
    (l : list GenerateContentRequest) (c : Z) (id : Z) (r : Recording) :
  storedIn d id r ->
  exists saved,
    loadRecordings (mkWorld d u s l c)
    = (Normal tt, mkWorld d (with_savedRecordings saved u) s l c).
Proof. intros (store & -> & _). eexists. reflexivity. Qed.

(** The transcription call made from a world that differs in its database
    and its user interface only. *)
Lemma transcribeAudio_elsewhere (audioBlob : Blob) (mimeType prompt : jsstring)
    (d d0 : option (gmap Z Recording)) (u u0 : UIState)
    (s : nat -> GenerateContentRequest -> RemoteBehaviour)
    (l : list GenerateContentRequest) (c : Z) :
  transcribeAudio audioBlob mimeType prompt (mkWorld d u s l c)
  = ((transcribeAudio audioBlob mimeType prompt (mkWorld d0 u0 s l c)).1,
     mkWorld d u s
       (calls (transcribeAudio audioBlob mimeType prompt
                 (mkWorld d0 u0 s l c)).2) c).
Proof. apply (transcribeAudio_frame _ _ _ (mkWorld d0 u0 s l c)). Qed.

(** ** The single-piece branch *)

Lemma processSingle_failure (d d0 : option (gmap Z Recording)) (u u0 : UIState)
    (s : nat -> GenerateContentRequest -> RemoteBehaviour)
    (l : list GenerateContentRequest) (c : Z) (id : Z) (r : Recording)
    (blob : Blob) (finalPrompt : jsstring) (e : JsThrown) :
  storedIn d id r ->
  (transcribeAudio blob (JS.splitFirst semicolon (Blob.type blob)) finalPrompt
                   (mkWorld d0 u0 s l c)).1 = Throw e ->
  exists d' u' l',
    processSingle id blob finalPrompt (mkWorld d u s l c)
    = (Throw e, mkWorld d' u' s l' c)
    /\ storedIn d' id
         (spread (spread r (Updates.withProgress 10 Updates.none))
            (Updates.withTranscriptChunks
               [TranscriptChunk.mk 0 (errorMessageOf e) CS_failed]
               (Updates.withStatus RS_failed
                  (Updates.withProgress 100 Updates.none))))
    /\ transcriptChunks u'
       = [TranscriptChunk.mk 0 (errorMessageOf e) CS_failed].
Proof.
  intros Hstored Hcall.
  unfold processSingle. unfold_setters.
  run1. run1.
  destruct (updateRecording_stored d
              (with_transcriptionStatus
                 (JS.lit "Transcribing audio... This may take a few moments.") u)
              s l c id
              (Updates.withProgress 10 Updates.none) r Hstored)
    as (d1 & -> & Hstored1).
  run1.
  match goal with
  | |- context [loadRecordings (mkWorld d1 ?u1 s ?l1 c)] =>
      destruct (loadRecordings_stored d1 u1 s l1 c id _ Hstored1)
        as (saved & ->)
  end.
  run1. unfold tryCatch. run1.
  match goal with
  | |- context [transcribeAudio blob ?m finalPrompt (mkWorld d1 ?u1 s l c)] =>
      rewrite (transcribeAudio_elsewhere blob m finalPrompt d1 d0 u1 u0 s l c)
  end.
  rewrite Hcall.
  run1. run1.
  match goal with
  | |- context [updateRecording id ?upd (mkWorld d1 ?u1 s ?l1 c)] =>
      destruct (updateRecording_stored d1 u1 s l1 c id upd _ Hstored1)
        as (d2 & -> & Hstored2)
  end.
  unfold throw.
  eexists _, _, _. split; [reflexivity|]. split; [exact Hstored2|].
  reflexivity.
Qed.

Lemma not_cached (recording : Recording) :
  Recording.status recording <> RS_completed
  \/ Recording.transcriptChunks recording = [] ->
  bool_decide (Recording.status recording = RS_completed)
  && (0 <? length (Recording.transcriptChunks recording))%nat = false.
Proof.
  intros [H|H].
  - by rewrite bool_decide_eq_false_2.
  - rewrite H. apply andb_false_r.
Qed.

(** C5, as the code has it. In single-piece mode, when the transcription
    call fails with [e]: the branch marks piece 0 [failed] with the
    message of [e], persists [status = failed, progress = 100] and throws
    [e] again; the handler of the run catches it, shows
    ["Processing failed: ..."] and persists [status = failed,
    progress = 0]. That is the final state, piece 0 still [failed] with
    the message, and [processRecording] itself completes normally. *)
Theorem processRecording_single_piece_failure (w : World)
    (store : gmap Z Recording) (id : Z) (recording : Recording)
    (e : JsThrown) :
  let blob := Recording.blob recording in
  let mimeType := JS.splitFirst semicolon (Blob.type blob) in
  let finalPrompt := buildTranscriptionPromptWithVocabulary (ui w) in
  let failedChunk := TranscriptChunk.mk 0 (errorMessageOf e) CS_failed in
  db w = Some store ->
  store !! id = Some recording ->
  Recording.id recording = id ->
  Recording.status recording <> RS_completed
  \/ Recording.transcriptChunks recording = [] ->
  (Blob.size blob <= MAX)%Z ->
  (transcribeAudio blob mimeType finalPrompt w).1 = Throw e ->
  (forall w0 r0,
     storedIn (db w0) id r0 -> remote w0 = remote w -> calls w0 = calls w ->
     now w0 = now w ->
     exists w1 r1,
       processSingle id blob finalPrompt w0 = (Throw e, w1)
       /\ storedIn (db w1) id r1
       /\ Recording.status r1 = RS_failed
       /\ Recording.progress r1 = 100%Z
       /\ Recording.transcriptChunks r1 = [failedChunk])
  /\ (let run := processRecording limits id w in
      run.1 = Normal tt
      /\ exists r',
           storedIn (db run.2) id r'
           /\ Recording.status r' = RS_failed
           /\ Recording.progress r' = 0%Z
           /\ Recording.transcriptChunks r' = [failedChunk]
           /\ Recording.blob r' = blob
           /\ transcriptChunks (ui run.2) = [failedChunk]
           /\ error (ui run.2)
              = Some (JS.lit "Processing failed: " ++ interpolate (message e)
                      ++ JS.lit ". The file might be too large or in an unsupported format.")).
Proof.
  intros blob mimeType finalPrompt failedChunk Hdb Hget Hid Hnot Hsize Hcall.
  destruct w as [d u s l c]. cbn [db ui remote calls now] in *. subst d.
  assert (Hstored : storedIn (Some store) id recording)
    by (exists store; auto).
  split.
  - intros [d0 u0 s0 l0 c0] r0 Hst0 Hs Hl Hc.
    cbn [db ui remote calls now] in *. subst s0 l0 c0.
    destruct (processSingle_failure d0 (Some store) u0 u s l c id r0 blob
                finalPrompt e Hst0 Hcall) as (d' & u' & l' & Hrun & Hst' & _).
    eexists _, _. split; [exact Hrun|]. split; [exact Hst'|].
    repeat split; reflexivity.
  - assert (Hrun : exists d3 u3 l3 r',
        processRecording limits id (mkWorld (Some store) u s l c)
        = (Normal tt, mkWorld d3 u3 s l3 c)
        /\ storedIn d3 id r'
        /\ Recording.status r' = RS_failed
        /\ Recording.progress r' = 0%Z
        /\ Recording.transcriptChunks r' = [failedChunk]
        /\ Recording.blob r' = blob
        /\ transcriptChunks u3 = [failedChunk]
        /\ error u3
           = Some (JS.lit "Processing failed: " ++ interpolate (message e)
                   ++ JS.lit ". The file might be too large or in an unsupported format.")).
    { unfold processRecording. unfold_setters.
      do 7 run1. unfold tryFinally. run1. unfold settle.
      match goal with
      | |- context [getRecording id (mkWorld ?d1 ?u1 s ?l1 c)] =>
          rewrite (getRecording_stored d1 u1 s l1 c id recording Hstored)
      end.
      cbn [db ui remote calls now]. unfold tryCatch, processLoaded.
      unfold_setters.
      do 3 run1. rewrite (not_cached recording Hnot).
      run1.
      match goal with
      | |- context [updateRecording id ?upd (mkWorld ?d1 ?u1 s ?l1 c)] =>
          destruct (updateRecording_stored d1 u1 s l1 c id upd _ Hstored)
            as (d1' & -> & Hstored1)
      end.
      run1.
      match goal with
      | |- context [loadRecordings (mkWorld d1' ?u1 s ?l1 c)] =>
          destruct (loadRecordings_stored d1' u1 s l1 c id _ Hstored1)
            as (saved & ->)
      end.
      run1.
      fold blob. rewrite (Zle_imp_le_bool _ _ Hsize).
      match goal with
      | |- context [processSingle id blob ?p (mkWorld d1' ?u1 s l c)] =>
          destruct (processSingle_failure d1' (Some store) u1 u s l c id _ blob
                      p e Hstored1 Hcall)
            as (d2 & u2 & l2 & -> & Hstored2 & Hui2)
      end.
      cbn [db ui remote calls now]. unfold processFailed. unfold_setters.
      run1. run1. rewrite Hid.
      match goal with
      | |- context [updateRecording id ?upd (mkWorld d2 ?u1 s ?l1 c)] =>
          destruct (updateRecording_stored d2 u1 s l1 c id upd _ Hstored2)
            as (d3 & -> & Hstored3)
      end.
      cbn [db ui remote calls now].
      match goal with
      | |- context [loadRecordings (mkWorld d3 ?u1 s ?l1 c)] =>
          destruct (loadRecordings_stored d3 u1 s l1 c id _ Hstored3)
            as (saved3 & ->)
      end.
      run1.
      eexists _, _, _, _. split; [reflexivity|].
      split; [exact Hstored3|].
      cbn. rewrite Hui2. repeat split; reflexivity. }
    destruct Hrun as (d3 & u3 & l3 & r' & Hrun & Hfacts).
    cbn zeta. rewrite Hrun. cbn [fst snd db ui].
    split; [reflexivity|]. exists r'. exact Hfacts.
Qed.

(** ** The splitter: arithmetic *)

Lemma ceilDiv_spec (a b : Z) :
  (0 < b)%Z -> (b * (ceilDiv a b - 1) < a <= b * ceilDiv a b)%Z.
Proof.
  intros Hb. unfold ceilDiv.
  pose proof (Z.div_mod (- a) b ltac:(lia)) as Hdm.
  pose proof (Z.mod_pos_bound (- a) b Hb) as Hmod.
  nia.
Qed.

(** Below [totalChunks], a piece starts inside the payload, and even
    leaves room for the header behind it. *)
Lemma chunkStart_lt_size (size i : Z) :
  (HEADER < MAX)%Z -> (0 <= i < totalChunks limits size)%Z ->
  (chunkStart limits i < size - HEADER)%Z.
Proof.
  intros Hlim [Hi0 Hi]. unfold totalChunks in Hi. unfold chunkStart.
  pose proof (ceilDiv_spec (size - HEADER) (MAX - HEADER) ltac:(lia)) as Hc.
  nia.
Qed.

Lemma totalChunks_multi (size : Z) :
  (HEADER < MAX)%Z -> (MAX < size)%Z -> (2 <= totalChunks limits size)%Z.
Proof.
  intros Hlim Hsize. unfold totalChunks.
  pose proof (ceilDiv_spec (size - HEADER) (MAX - HEADER) ltac:(lia)) as Hc.
  nia.
Qed.

Lemma slice_size (b : Blob) (start end_ : Z) (t : jsstring) :
  (0 <= start <= end_)%Z -> (end_ <= Blob.size b)%Z ->
  Blob.size (Blob.slice b start end_ t) = (end_ - start)%Z.
Proof.
  intros Hse He. unfold Blob.slice, Blob.size, Blob.relative in *. simpl.
  destruct (start <? 0)%Z eqn:Hs; [apply Z.ltb_lt in Hs; lia|].
  destruct (end_ <? 0)%Z eqn:He'; [apply Z.ltb_lt in He'; lia|].
  rewrite length_take, length_drop. lia.
Qed.

(** A piece below [totalChunks] is never empty. *)
Lemma chunkBlob_nonempty (blob : Blob) (i : nat) :
  (0 <= HEADER < MAX)%Z ->
  (Z.of_nat i < totalChunks limits (Blob.size blob))%Z ->
  (Blob.size
     (Blob.slice blob (Z.of_nat i * (MAX - HEADER))
        (Z.min (Z.of_nat i * (MAX - HEADER) + (MAX - HEADER)) (Blob.size blob))
        (Blob.type blob)) =? 0)%Z = false.
Proof.
  intros Hlim Hi.
  pose proof (chunkStart_lt_size (Blob.size blob) (Z.of_nat i) ltac:(lia)
                ltac:(lia)) as Hlt.
  unfold chunkStart in Hlt.
  assert (Hpos : (0 <= Z.of_nat i * (MAX - HEADER))%Z) by nia.
  rewrite slice_size by lia.
  apply Z.eqb_neq. lia.
Qed.

(** ** One turn of the loop *)

Lemma alter_as_insert {A} (f : A -> A) (l : list A) (i : nat) (x : A) :
  l !! i = Some x -> alter f i l = <[i := f x]> l.
Proof.
  revert i. induction l as [|y l IH]; intros [|i] H; simpl in *;
    try discriminate.
  - by injection H as ->.
  - f_equal. by apply IH.
Qed.

Lemma indexed_insert (chunks : list TranscriptChunk) (i : nat)
    (c : TranscriptChunk) :
  indexed chunks -> TranscriptChunk.index c = Z.of_nat i ->
  indexed (<[i := c]> chunks).
Proof.
  intros Hix Hc k c' Hk.
  destruct (decide (i = k)) as [->|Hne].
  - destruct (decide (k < length chunks)) as [Hlt|Hge].
    + rewrite list_lookup_insert_eq in Hk by done. by injection Hk as <-.
    + rewrite list_insert_ge in Hk by lia. by apply Hix.
  - rewrite list_lookup_insert_ne in Hk by done. by apply Hix.
Qed.

Lemma index_pieceOf (i : nat) (outcome : Completion jsstring) :
  TranscriptChunk.index (pieceOf i outcome) = Z.of_nat i.
Proof. by destruct outcome. Qed.

Lemma processChunk_run (d d0 : option (gmap Z Recording)) (u u0 : UIState)
    (s : nat -> GenerateContentRequest -> RemoteBehaviour)
    (l : list GenerateContentRequest) (c : Z) (id : Z) (r : Recording)
    (blob : Blob) (finalPrompt : jsstring) (total : Z) (i : nat)
    (finalChunks : list TranscriptChunk) :
  storedIn d id r ->
  (0 <= HEADER < MAX)%Z ->
  (Z.of_nat i < totalChunks limits (Blob.size blob))%Z ->
  indexed finalChunks ->
  i < length finalChunks ->
  let out :=
    transcribeAudio (blobToSendFor limits blob (Z.of_nat i))
                    (JS.splitFirst semicolon (Blob.type blob)) finalPrompt
                    (mkWorld d0 u0 s l c) in
  let finalChunks' := <[i := pieceOf i out.1]> finalChunks in
  exists d' u' p,
    processChunk limits id blob
                 (Blob.slice blob 0 HEADER (Blob.type blob))
                 finalPrompt total i finalChunks (mkWorld d u s l c)
    = (Normal finalChunks', mkWorld d' u' s (calls out.2) c)
    /\ storedIn d' id
         (spread r (Updates.withTranscriptChunks finalChunks'
                      (Updates.withProgress p Updates.none)))
    /\ transcriptChunks u' = finalChunks'
    /\ activeRecordingId u' = activeRecordingId u.
Proof.
  intros Hstored Hlim Hi Hix Hlen out finalChunks'.
  destruct (lookup_lt_is_Some_2 finalChunks i Hlen) as [ci Hci].
  pose proof (Hix i ci Hci) as Hindex.
  unfold processChunk. unfold_setters.
  run1. rewrite (chunkBlob_nonempty blob i Hlim Hi).
  run1. unfold tryCatch. run1.
  unfold out, blobToSendFor, chunkStart, chunkEnd in finalChunks'.
  match goal with
  | |- context [transcribeAudio ?b ?m finalPrompt (mkWorld d ?u1 s l c)] =>
      rewrite (transcribeAudio_elsewhere b m finalPrompt d d0 u1 u0 s l c)
  end.
  unfold out, blobToSendFor, chunkStart, chunkEnd.
  destruct (transcribeAudio _ _ finalPrompt (mkWorld d0 u0 s l c))
    as [[text|e] w'] eqn:Hcall;
    cbn [fst snd db ui remote calls now] in *.
  - rewrite (alter_as_insert _ _ _ _ Hci).
    replace (TranscriptChunk.withContentStatus ci (JS.trim text) CS_completed)
      with (pieceOf i (Normal text))
      by (unfold TranscriptChunk.withContentStatus; cbn; by rewrite Hindex).
    fold finalChunks'.
    run1. run1.
    match goal with
    | |- context [updateRecording id ?upd (mkWorld d ?u1 s ?l1 c)] =>
        destruct (updateRecording_stored d u1 s l1 c id upd _ Hstored)
          as (d1 & -> & Hstored1)
    end.
    run1.
    match goal with
    | |- context [loadRecordings (mkWorld d1 ?u1 s ?l1 c)] =>
        destruct (loadRecordings_stored d1 u1 s l1 c id _ Hstored1)
          as (saved & ->)
    end.
    cbn [db ui remote calls now].
    eexists _, _, _. split; [reflexivity|]. split; [exact Hstored1|].
    split; reflexivity.
  - rewrite (alter_as_insert _ _ _ _ Hci).
    replace (TranscriptChunk.withContentStatus ci (errorMessageOf e) CS_failed)
      with (pieceOf i (Throw e))
      by (unfold TranscriptChunk.withContentStatus; cbn; by rewrite Hindex).
    fold finalChunks'.
    run1. run1.
    match goal with
    | |- context [updateRecording id ?upd (mkWorld d ?u1 s ?l1 c)] =>
        destruct (updateRecording_stored d u1 s l1 c id upd _ Hstored)
          as (d1 & -> & Hstored1)
    end.
    run1.
    match goal with
    | |- context [loadRecordings (mkWorld d1 ?u1 s ?l1 c)] =>
        destruct (loadRecordings_stored d1 u1 s l1 c id _ Hstored1)
          as (saved & ->)
    end.
    cbn [db ui remote calls now].
    eexists _, _, _. split; [reflexivity|]. split; [exact Hstored1|].
    split; reflexivity.
Qed.

(** ** The loop *)

Lemma transcribeAudio_world (audioBlob : Blob) (mimeType prompt : jsstring)
    (d : option (gmap Z Recording)) (u : UIState)
    (s : nat -> GenerateContentRequest -> RemoteBehaviour)
    (l : list GenerateContentRequest) (c : Z) :
  (transcribeAudio audioBlob mimeType prompt (mkWorld d u s l c)).2
  = mkWorld d u s
      (calls (transcribeAudio audioBlob mimeType prompt (mkWorld d u s l c)).2)
      c.
Proof.
  rewrite (transcribeAudio_elsewhere audioBlob mimeType prompt d d u u s l c)
    at 1.
  reflexivity.
Qed.

Lemma processChunks_run (d0 : option (gmap Z Recording)) (u0 : UIState)
    (s : nat -> GenerateContentRequest -> RemoteBehaviour) (c : Z) (id : Z)
    (blob : Blob) (finalPrompt : jsstring) (total : Z) (n : nat) :
  forall (i : nat) (finalChunks : list TranscriptChunk)
         (d : option (gmap Z Recording)) (u : UIState)
         (l : list GenerateContentRequest) (r : Recording),
    storedIn d id r ->
    (0 <= HEADER < MAX)%Z ->
    (Z.of_nat (i + n) <= totalChunks limits (Blob.size blob))%Z ->
    indexed finalChunks ->
    i + n <= length finalChunks ->
    let each :=
      transcribeEach
        (List.map (fun k => blobToSendFor limits blob (Z.of_nat k)) (seq i n))
        (JS.splitFirst semicolon (Blob.type blob)) finalPrompt
        (mkWorld d0 u0 s l c) in
    exists d' u' r',
      processChunks limits id blob
                    (Blob.slice blob 0 HEADER (Blob.type blob))
                    finalPrompt total i n finalChunks (mkWorld d u s l c)
      = (Normal (fillFrom i each.1 finalChunks),
         mkWorld d' u' s (calls each.2) c)
      /\ storedIn d' id r'
      /\ Recording.blob r' = Recording.blob r
      /\ Recording.status r' = Recording.status r
      /\ (0 < n ->
          Recording.transcriptChunks r' = fillFrom i each.1 finalChunks
          /\ transcriptChunks u' = fillFrom i each.1 finalChunks)
      /\ activeRecordingId u' = activeRecordingId u.
Proof.
  induction n as [|n IH]; intros i finalChunks d u l r Hstored Hlim Hi Hix Hlen.
  - cbn. eexists d, u, r. split; [reflexivity|].
    split; [exact Hstored|]. repeat split; lia.
  - cbn [seq List.map transcribeEach fst snd].
    set (out := transcribeAudio (blobToSendFor limits blob (Z.of_nat i))
                  (JS.splitFirst semicolon (Blob.type blob)) finalPrompt
                  (mkWorld d0 u0 s l c)).
    destruct (processChunk_run d d0 u u0 s l c id r blob finalPrompt total i
                finalChunks Hstored Hlim ltac:(lia) Hix ltac:(lia))
      as (d1 & u1 & p & Hstep & Hstored1 & Hui1 & Hact1).
    fold out in Hstep, Hstored1, Hui1.
    assert (Hix1 : indexed (<[i := pieceOf i out.1]> finalChunks))
      by (apply indexed_insert; [exact Hix | apply index_pieceOf]).
    assert (Hout2 : out.2 = mkWorld d0 u0 s (calls out.2) c)
      by apply transcribeAudio_world.
    destruct (IH (S i) (<[i := pieceOf i out.1]> finalChunks) d1 u1
                (calls out.2) _ Hstored1 Hlim ltac:(lia) Hix1
                ltac:(rewrite length_insert; lia))
      as (d2 & u2 & r2 & Hrest & Hstored2 & Hblob2 & Hstatus2 & Hlast & Hact2).
    rewrite <- Hout2 in Hrest, Hlast.
    exists d2, u2, r2.
    split.
    { cbn [processChunks]. unfold bind at 1. rewrite Hstep. exact Hrest. }
    split; [exact Hstored2|].
    split; [rewrite Hblob2; reflexivity|].
    split; [rewrite Hstatus2; reflexivity|].
    split; [|congruence].
    intros _. cbn [fillFrom].
    destruct n as [|n'].
    + cbn in Hrest |- *. injection Hrest as <- <-.
      destruct Hstored1 as (st1 & -> & Hget1 & Hid1).
      destruct Hstored2 as (st2 & [= <-] & Hget2 & _).
      rewrite Hget1 in Hget2. injection Hget2 as <-.
      split; [reflexivity | exact Hui1].
    + apply Hlast. lia.
Qed.

(** ** The pieces at the end of the loop *)

Lemma fillFrom_lookup (outcomes : list (Completion jsstring)) :
  forall (i : nat) (chunks : list TranscriptChunk) (k : nat),
    i + length outcomes <= length chunks ->
    fillFrom i outcomes chunks !! k
    = if decide (i <= k < i + length outcomes)
      then pieceOf k <$> outcomes !! (k - i)
      else chunks !! k.
Proof.
  induction outcomes as [|o os IH]; intros i chunks k Hlen; cbn [fillFrom].
  - cbn in *. case_decide; [lia | reflexivity].
  - cbn [length] in *.
    rewrite IH by (rewrite length_insert; lia).
    destruct (decide (k = i)) as [->|Hne].
    + rewrite decide_False by lia. rewrite decide_True by lia.
      rewrite list_lookup_insert_eq by lia.
      replace (i - i) with 0 by lia. reflexivity.
    + rewrite list_lookup_insert_ne by done.
      destruct (decide (S i <= k < S i + length os)) as [Hin|Hout].
      * rewrite decide_True by lia.
        replace (k - i) with (S (k - S i)) by lia. reflexivity.
      * rewrite decide_False by lia. reflexivity.
Qed.

Lemma fillFrom_all (outcomes : list (Completion jsstring))
    (chunks : list TranscriptChunk) :
  length outcomes = length chunks ->
  fillFrom 0 outcomes chunks = imap pieceOf outcomes.
Proof.
  intros Hlen. apply list_eq. intros k.
  rewrite fillFrom_lookup by lia. rewrite list_lookup_imap.
  case_decide as Hk.
  - replace (k - 0) with k by lia. reflexivity.
  - rewrite !lookup_ge_None_2 by lia. reflexivity.
Qed.

Lemma transcribeEach_length (blobs : list Blob) (mimeType prompt : jsstring) :
  forall w, length (transcribeEach blobs mimeType prompt w).1 = length blobs.
Proof.
  induction blobs as [|b bs IH]; intros w; cbn; [reflexivity|].
  by rewrite IH.
Qed.

Lemma forallb_isCompleted_imap (outcomes : list (Completion jsstring)) :
  forall f : nat -> Completion jsstring -> TranscriptChunk,
    (forall k o, isCompleted (f k o) = succeeded o) ->
    forallb isCompleted (imap f outcomes) = forallb succeeded outcomes.
Proof.
  induction outcomes as [|o os IH]; intros f Hf; [reflexivity|].
  rewrite imap_cons. cbn [forallb]. rewrite Hf.
  rewrite (IH (f ∘ S)); [reflexivity|]. intros k o'. apply Hf.
Qed.

Lemma isCompleted_pieceOf (k : nat) (o : Completion jsstring) :
  isCompleted (pieceOf k o) = succeeded o.
Proof. by destruct o. Qed.

Lemma indexed_imap_pieceOf (outcomes : list (Completion jsstring)) :
  indexed (imap pieceOf outcomes).
Proof.
  intros k c. rewrite list_lookup_imap.
  destruct (outcomes !! k) as [o|]; cbn; [|discriminate].
  intros [= <-]. apply index_pieceOf.
Qed.

Lemma initialChunksOf_length (total : Z) :
  length (initialChunksOf total) = Z.to_nat total.
Proof. unfold initialChunksOf. by rewrite length_map, length_seq. Qed.

Lemma initialChunksOf_indexed (total : Z) : indexed (initialChunksOf total).
Proof.
  intros k c. unfold initialChunksOf.
  change (List.map ?f ?l) with (f <$> l).
  rewrite list_lookup_fmap.
  destruct (seq 0 (Z.to_nat total) !! k) as [j|] eqn:Hj; cbn; [|discriminate].
  apply lookup_seq in Hj as [-> _]. by intros [= <-].
Qed.

(** ** Updating the piece with a given index *)

Lemma map_at_index (f : TranscriptChunk -> TranscriptChunk)
    (chunks : list TranscriptChunk) (j : nat) :
  indexed chunks ->
  List.map (fun c => if (TranscriptChunk.index c =? Z.of_nat j)%Z
                     then f c else c) chunks
  = alter f j chunks.
Proof.
  intros Hix. apply list_eq. intros k.
  change (List.map ?g ?l) with (g <$> l).
  rewrite list_lookup_fmap.
  destruct (decide (j = k)) as [->|Hne].
  - rewrite list_lookup_alter_eq.
    destruct (chunks !! k) as [c|] eqn:Hc; cbn; [|reflexivity].
    rewrite (Hix k c Hc), Z.eqb_refl. reflexivity.
  - rewrite list_lookup_alter_ne by done.
    destruct (chunks !! k) as [c|] eqn:Hc; cbn; [|reflexivity].
    rewrite (Hix k c Hc).
    destruct (Z.eqb_spec (Z.of_nat k) (Z.of_nat j)); [lia | reflexivity].
Qed.

Lemma truthyId_nonzero (id : Z) : id <> 0%Z -> truthyId (Some id) = Some id.
Proof.
  intros Hne. unfold truthyId.
  destruct (Z.eqb_spec id 0); [contradiction | reflexivity].
Qed.

(** ** Retrying one piece *)

Lemma handleRetryChunkTranscription_success
    (d : option (gmap Z Recording)) (u : UIState)
    (s : nat -> GenerateContentRequest -> RemoteBehaviour)
    (l : list GenerateContentRequest) (c : Z) (id : Z) (r : Recording)
    (j : nat) (text : jsstring) :
  storedIn d id r ->
  activeRecordingId u = Some id ->
  id <> 0%Z ->
  indexed (transcriptChunks u) ->
  j < length (transcriptChunks u) ->
  (MAX < Blob.size (Recording.blob r))%Z ->
  (transcribeAudio (blobToSendFor limits (Recording.blob r) (Z.of_nat j))
     (JS.splitFirst semicolon (Blob.type (Recording.blob r)))
     (buildTranscriptionPromptWithVocabulary u) (mkWorld d u s l c)).1
  = Normal text ->
  let retried :=
    <[j := TranscriptChunk.mk (Z.of_nat j) (JS.trim text) CS_completed]>
      (transcriptChunks u) in
  exists d' u' l' r',
    handleRetryChunkTranscription limits (Z.of_nat j) (mkWorld d u s l c)
    = (Normal tt, mkWorld d' u' s l' c)
    /\ storedIn d' id r'
    /\ Recording.transcriptChunks r' = retried
    /\ transcriptChunks u' = retried
    /\ Recording.status r' = Recording.status r
    /\ Recording.progress r' = Recording.progress r
    /\ Recording.blob r' = Recording.blob r.
Proof.
  intros Hstored Hactive Hid Hix Hj Hsize Hcall retried.
  destruct (lookup_lt_is_Some_2 _ j Hj) as [cj Hcj].
  pose proof (Hix j cj Hcj) as Hindex.
  unfold handleRetryChunkTranscription. unfold_setters.
  run1. rewrite Hactive, (truthyId_nonzero id Hid).
  do 3 run1. unfold tryFinally, tryCatch. run1.
  match goal with
  | |- context [getRecording id (mkWorld d ?u1 s ?l1 c)] =>
      rewrite (getRecording_stored d u1 s l1 c id r Hstored)
  end.
  run1.
  assert (Hblob :
    (if (0 <? Z.of_nat j)%Z && (MAX <? Blob.size (Recording.blob r))%Z
     then Blob.concat
            (Blob.slice (Recording.blob r) 0 HEADER
                        (Blob.type (Recording.blob r)))
            (Blob.slice (Recording.blob r) (Z.of_nat j * (MAX - HEADER))
               (Z.min (Z.of_nat j * (MAX - HEADER) + (MAX - HEADER))
                      (Blob.size (Recording.blob r)))
               (Blob.type (Recording.blob r)))
            (Blob.type (Recording.blob r))
     else Blob.slice (Recording.blob r) (Z.of_nat j * (MAX - HEADER))
            (Z.min (Z.of_nat j * (MAX - HEADER) + (MAX - HEADER))
                   (Blob.size (Recording.blob r)))
            (Blob.type (Recording.blob r)))
    = blobToSendFor limits (Recording.blob r) (Z.of_nat j)).
  { unfold blobToSendFor, chunkStart, chunkEnd.
    rewrite (proj2 (Z.ltb_lt _ _) Hsize), andb_true_r.
    destruct j as [|j']; [reflexivity|].
    rewrite (proj2 (Z.ltb_lt 0 (Z.of_nat (S j'))) ltac:(lia)).
    rewrite (proj2 (Z.eqb_neq (Z.of_nat (S j')) 0) ltac:(lia)).
    reflexivity. }
  rewrite Hblob. run1.
  match goal with
  | |- context [transcribeAudio ?b ?m ?p (mkWorld d ?u1 s l c)] =>
      rewrite (transcribeAudio_elsewhere b m p d d u1 u s l c)
  end.
  rewrite Hcall. run1. run1.
  match goal with
  | |- context [updateRecording id ?upd (mkWorld d ?u1 s ?l1 c)] =>
      destruct (updateRecording_stored d u1 s l1 c id upd _ Hstored)
        as (d1 & -> & Hstored1)
  end.
  cbn [db ui remote calls now]. run1. run1.
  match goal with
  | |- context [loadRecordings (mkWorld d1 ?u1 s ?l1 c)] =>
      destruct (loadRecordings_stored d1 u1 s l1 c id _ Hstored1)
        as (saved & ->)
  end.
  assert (Hmaps :
    List.map
      (fun c0 => if (TranscriptChunk.index c0 =? Z.of_nat j)%Z
                 then TranscriptChunk.withContentStatus c0 (JS.trim text)
                        CS_completed
                 else c0)
      (List.map
         (fun c0 => if (TranscriptChunk.index c0 =? Z.of_nat j)%Z
                    then TranscriptChunk.withStatus c0 CS_processing
                    else c0)
         (transcriptChunks u))
    = retried).
  { rewrite (map_at_index _ (transcriptChunks u) j Hix).
    rewrite (alter_as_insert _ _ _ _ Hcj).
    rewrite map_at_index
      by (apply indexed_insert; [exact Hix | exact Hindex]).
    rewrite (alter_as_insert _ _ j
               (TranscriptChunk.withStatus cj CS_processing))
      by (apply list_lookup_insert_eq; exact Hj).
    rewrite list_insert_insert_eq. unfold retried.
    unfold TranscriptChunk.withContentStatus, TranscriptChunk.withStatus.
    cbn. by rewrite Hindex. }
  eexists _, _, _, _. split; [reflexivity|].
  split; [exact Hstored1|].
  cbn. rewrite Hmaps. repeat split; reflexivity.
Qed.

(** ** The multi-piece branch *)

Lemma processMulti_run (d d0 : option (gmap Z Recording)) (u u0 : UIState)
    (s : nat -> GenerateContentRequest -> RemoteBehaviour)
    (l : list GenerateContentRequest) (c : Z) (id : Z) (r : Recording)
    (blob : Blob) (finalPrompt : jsstring) :
  storedIn d id r ->
  (0 <= HEADER < MAX)%Z ->
  (MAX < Blob.size blob)%Z ->
  let total := Z.to_nat (totalChunks limits (Blob.size blob)) in
  let each :=
    transcribeEach
      (List.map (fun k => blobToSendFor limits blob (Z.of_nat k)) (seq 0 total))
      (JS.splitFirst semicolon (Blob.type blob)) finalPrompt
      (mkWorld d0 u0 s l c) in
  exists d' u' r',
    processMulti limits id blob finalPrompt (mkWorld d u s l c)
    = (Normal tt, mkWorld d' u' s (calls each.2) c)
    /\ storedIn d' id r'
    /\ Recording.transcriptChunks r' = imap pieceOf each.1
    /\ Recording.status r'
       = (if forallb succeeded each.1 then RS_completed else RS_failed)
    /\ Recording.progress r' = 100%Z
    /\ Recording.blob r' = Recording.blob r
    /\ transcriptChunks u' = imap pieceOf each.1
    /\ activeRecordingId u' = activeRecordingId u.
Proof.
  intros Hstored Hlim Hsize total each.
  pose proof (totalChunks_multi (Blob.size blob) ltac:(lia) Hsize) as Htotal.
  unfold processMulti. unfold_setters.
  run1. run1.
  match goal with
  | |- context [updateRecording id ?upd (mkWorld d ?u1 s ?l1 c)] =>
      destruct (updateRecording_stored d u1 s l1 c id upd _ Hstored)
        as (d1 & -> & Hstored1)
  end.
  run1.
  match goal with
  | |- context [loadRecordings (mkWorld d1 ?u1 s ?l1 c)] =>
      destruct (loadRecordings_stored d1 u1 s l1 c id _ Hstored1)
        as (saved & ->)
  end.
  run1.
  match goal with
  | |- context [processChunks limits id blob ?h finalPrompt ?t 0 ?n ?fc
                  (mkWorld d1 ?u1 s l c)] =>
      destruct (processChunks_run d0 u0 s c id blob finalPrompt t n 0 fc d1 u1
                  l _ Hstored1 Hlim ltac:(lia)
                  (initialChunksOf_indexed _)
                  ltac:(rewrite initialChunksOf_length; lia))
        as (d2 & u2 & r2 & -> & Hstored2 & Hblob2 & Hstatus2 & Hlast & Hact2)
  end.
  fold total in Hlast |- *. fold each in Hlast |- *.
  destruct Hlast as [Hchunks2 Hui2]; [lia|].
  assert (Hfill :
    fillFrom 0 each.1 (initialChunksOf (totalChunks limits (Blob.size blob)))
    = imap pieceOf each.1).
  { apply fillFrom_all. unfold each.
    rewrite transcribeEach_length, length_map, length_seq.
    by rewrite initialChunksOf_length. }
  rewrite Hfill in *.
  cbn [db ui remote calls now].
  match goal with
  | |- context [updateRecording id ?upd (mkWorld d2 ?u1 s ?l1 c)] =>
      destruct (updateRecording_stored d2 u1 s l1 c id upd _ Hstored2)
        as (d3 & -> & Hstored3)
  end.
  eexists _, _, _. split; [reflexivity|]. split; [exact Hstored3|].
  cbn. rewrite Hchunks2, Hblob2, Hui2, Hact2.
  rewrite (forallb_isCompleted_imap _ pieceOf isCompleted_pieceOf).
  repeat split; reflexivity.
Qed.

(** C2. A multi-piece run submits every piece, one after the other,
    whatever the outcomes of the earlier ones. Afterwards the piece at
    index [i] is [failed] with the message of the error when its call
    threw, [completed] with the trimmed text when it returned; the
    recording is [completed] when every call returned and [failed]
    otherwise, with progress 100. A later retry of one piece that succeeds
    replaces that piece and leaves every other piece as it was. *)
Theorem processRecording_partial_failure (w : World)
    (store : gmap Z Recording) (id : Z) (recording : Recording) :
  let blob := Recording.blob recording in
  let mimeType := JS.splitFirst semicolon (Blob.type blob) in
  let finalPrompt := buildTranscriptionPromptWithVocabulary (ui w) in
  let total := Z.to_nat (totalChunks limits (Blob.size blob)) in
  let each :=
    transcribeEach
      (List.map (fun k => blobToSendFor limits blob (Z.of_nat k)) (seq 0 total))
      mimeType finalPrompt w in
  let outcomes := each.1 in
  let pieces := imap pieceOf outcomes in
  let run := processRecording limits id w in
  (0 <= HEADER < MAX)%Z ->
  db w = Some store ->
  store !! id = Some recording ->
  Recording.id recording = id ->
  Recording.status recording <> RS_completed
  \/ Recording.transcriptChunks recording = [] ->
  (MAX < Blob.size blob)%Z ->
  run.1 = Normal tt
  /\ length outcomes = total
  /\ calls run.2 = calls each.2
  /\ (exists recording',
        storedIn (db run.2) id recording'
        /\ Recording.transcriptChunks recording' = pieces
        /\ Recording.status recording'
           = (if forallb succeeded outcomes then RS_completed else RS_failed)
        /\ Recording.progress recording' = 100%Z
        /\ Recording.blob recording' = blob)
  /\ transcriptChunks (ui run.2) = pieces
  /\ (forall (w2 : World) (j : nat) (text : jsstring),
        id <> 0%Z ->
        db w2 = db run.2 ->
        ui w2 = ui run.2 ->
        j < total ->
        (transcribeAudio (blobToSendFor limits blob (Z.of_nat j)) mimeType
           (buildTranscriptionPromptWithVocabulary (ui w2)) w2).1
        = Normal text ->
        let retry := handleRetryChunkTranscription limits (Z.of_nat j) w2 in
        let retried :=
          <[j := TranscriptChunk.mk (Z.of_nat j) (JS.trim text) CS_completed]>
            pieces in
        retry.1 = Normal tt
        /\ transcriptChunks (ui retry.2) = retried
        /\ (exists recording'',
              storedIn (db retry.2) id recording''
              /\ Recording.transcriptChunks recording'' = retried)
        /\ (forall k, k <> j -> retried !! k = pieces !! k)).
Proof.
  intros blob mimeType finalPrompt total each outcomes pieces run
         Hlim Hdb Hget Hid Hnot Hsize.
  destruct w as [d u s l c]. cbn [db ui remote calls now] in *. subst d.
  assert (Hstored : storedIn (Some store) id recording)
    by (exists store; auto).
  assert (Hrun : exists d3 u3 r',
    processRecording limits id (mkWorld (Some store) u s l c)
    = (Normal tt, mkWorld d3 u3 s (calls each.2) c)
    /\ storedIn d3 id r'
    /\ Recording.transcriptChunks r' = pieces
    /\ Recording.status r'
       = (if forallb succeeded outcomes then RS_completed else RS_failed)
    /\ Recording.progress r' = 100%Z
    /\ Recording.blob r' = blob
    /\ transcriptChunks u3 = pieces
    /\ activeRecordingId u3 = Some id).
  { unfold processRecording. unfold_setters.
    do 7 run1. unfold tryFinally. run1. unfold settle.
    match goal with
    | |- context [getRecording id (mkWorld ?d1 ?u1 s ?l1 c)] =>
        rewrite (getRecording_stored d1 u1 s l1 c id recording Hstored)
    end.
    cbn [db ui remote calls now]. unfold tryCatch, processLoaded.
    unfold_setters.
    do 3 run1. rewrite (not_cached recording Hnot).
    run1.
    match goal with
    | |- context [updateRecording id ?upd (mkWorld ?d1 ?u1 s ?l1 c)] =>
        destruct (updateRecording_stored d1 u1 s l1 c id upd _ Hstored)
          as (d1' & -> & Hstored1)
    end.
    run1.
    match goal with
    | |- context [loadRecordings (mkWorld d1' ?u1 s ?l1 c)] =>
        destruct (loadRecordings_stored d1' u1 s l1 c id _ Hstored1)
          as (saved & ->)
    end.
    run1.
    fold blob. rewrite (proj2 (Z.leb_gt _ _) Hsize).
    match goal with
    | |- context [processMulti limits id blob ?p (mkWorld d1' ?u1 s l c)] =>
        destruct (processMulti_run d1' (Some store) u1 u s l c id _ blob p
                    Hstored1 Hlim Hsize)
          as (d2 & u2 & r2 & -> & Hstored2 & Hc2 & Hs2 & Hp2 & Hb2 & Hui2
              & Hact2)
    end.
    cbn [db ui remote calls now].
    match goal with
    | |- context [loadRecordings (mkWorld d2 ?u1 s ?l1 c)] =>
        destruct (loadRecordings_stored d2 u1 s l1 c id _ Hstored2)
          as (saved2 & ->)
    end.
    cbn [db ui remote calls now].
    eexists _, _, r2. split; [reflexivity|].
    split; [exact Hstored2|].
    cbn. rewrite Hui2, Hact2. repeat split; assumption || reflexivity. }
  destruct Hrun as (d3 & u3 & r' & Hrun & Hstored3 & Hc3 & Hs3 & Hp3 & Hb3
                    & Hui3 & Hact3).
  unfold run. rewrite Hrun. cbn [fst snd db ui remote calls now].
  split; [reflexivity|].
  split.
  { unfold outcomes, each.
    by rewrite transcribeEach_length, length_map, length_seq. }
  split; [reflexivity|].
  split; [exists r'; repeat split; assumption|].
  split; [exact Hui3|].
  intros [d2 u2 s2 l2 c2] j text Hid0 Hdb2 Hui2 Hj Hcall.
  cbn [db ui remote calls now] in *. subst d2 u2.
  assert (Hlen : length pieces = total).
  { unfold pieces. rewrite length_imap. unfold outcomes, each.
    by rewrite transcribeEach_length, length_map, length_seq. }
  assert (Hsize' : (MAX < Blob.size (Recording.blob r'))%Z)
    by (rewrite Hb3; exact Hsize).
  unfold mimeType in Hcall. rewrite <- Hb3 in Hcall.
  destruct (handleRetryChunkTranscription_success d3 u3 s2 l2 c2 id r' j text
              Hstored3 Hact3 Hid0
              ltac:(rewrite Hui3; apply indexed_imap_pieceOf)
              ltac:(rewrite Hui3; lia) Hsize' Hcall)
    as (d4 & u4 & l4 & r4 & Hretry & Hstored4 & Hc4 & Hui4 & _).
  rewrite Hretry. cbn [fst snd db ui remote calls now].
  rewrite Hui3 in Hc4, Hui4.
  split; [reflexivity|]. split; [exact Hui4|].
  split; [exists r4; split; assumption|].
  intros k Hk. by rewrite list_lookup_insert_ne.
Qed.

End Pipeline.

(* ===================================================================== *)
(** * The notes stage                                                     *)
(* ===================================================================== *)

Lemma trim_nonempty (s : jsstring) : JS.trim s <> [] -> s <> [].
Proof. intros H ->. by apply H. Qed.

Lemma updateRecording_frame (id : Z) (updates : Updates.t)
    (d : option (gmap Z Recording)) (u : UIState)
    (s : nat -> GenerateContentRequest -> RemoteBehaviour)
    (l : list GenerateContentRequest) (c : Z) :
  exists outcome d',
    updateRecording id updates (mkWorld d u s l c)
    = (outcome, mkWorld d' u s l c).
Proof.
  unfold updateRecording. cbn [db].
  destruct d as [store|]; [|eexists _, _; reflexivity].
  destruct (store !! id); eexists _, _; reflexivity.
Qed.

Lemma loadRecordings_frame (d : option (gmap Z Recording)) (u : UIState)
    (s : nat -> GenerateContentRequest -> RemoteBehaviour)
    (l : list GenerateContentRequest) (c : Z) :
  exists u',
    loadRecordings (mkWorld d u s l c) = (Normal tt, mkWorld d u' s l c)
    /\ vocabulary u' = vocabulary u.
Proof. destruct d; eexists; split; reflexivity. Qed.

(** C8, as the code has it. The transcript that [handleGenerateNotes]
    submits to the formatting service is the content of every piece, in
    order, joined by single spaces: a failed piece contributes its error
    description like any other piece contributes its text. *)
Theorem handleGenerateNotes_submits_every_piece (w : World) :
  let fullTranscript :=
    JS.join space (List.map TranscriptChunk.content (transcriptChunks (ui w)))
  in
  JS.trim fullTranscript <> [] ->
  JS.trim (instruction (ui w)) <> [] ->
  calls (handleGenerateNotes w).2
  = calls w
    ++ [mkRequest (selectedModel (ui w))
          (TextOnly (formatPrompt (instruction (ui w)) fullTranscript))].
Proof.
  intros fullTranscript Htranscript Hinstruction.
  destruct w as [d u s l c]. cbn [db ui remote calls now] in *.
  unfold handleGenerateNotes. unfold_setters. run1.
  fold fullTranscript.
  destruct fullTranscript as [|c0 t0] eqn:Hfull; [by destruct Htranscript|].
  cbn [JS.truthy negb]. rewrite <- Hfull in *.
  do 3 run1. unfold tryFinally, tryCatch. run1.
  match goal with
  | |- context [formatNotes fullTranscript ?i ?m ?w0] =>
      rewrite (formatNotes_calls w0 fullTranscript i m Htranscript
                 Hinstruction)
  end.
  cbn [db ui remote calls now set_calls].
  destruct (settledWithin _ 120000) as [[text|e]|];
    (run1; unfold set_calls; cbn [db ui remote calls now];
     destruct (truthyId (activeRecordingId u)) as [active|];
     [ run1;
       match goal with
       | |- context [updateRecording active ?upd (mkWorld d ?u1 s ?l1 c)] =>
           destruct (updateRecording_frame active upd d u1 s l1 c)
             as (outcome & d' & ->)
       end;
       destruct outcome as [[]|e']; cbn [db ui remote calls now];
       [ match goal with
         | |- context [loadRecordings (mkWorld ?d1 ?u1 s ?l1 c)] =>
             destruct (loadRecordings_frame d1 u1 s l1 c) as (u' & -> & _)
         end;
         reflexivity
       | reflexivity ]
     | reflexivity ]).
Qed.

(* ===================================================================== *)
(** * Escaping and replacing                                              *)
(* ===================================================================== *)

(** The class escaped by [escapeRegExp] is the set of syntax characters. *)
Lemma escapeClass_isSyntaxCharacter (c : N) :
  existsb (N.eqb c) escapeClass = RegExp.isSyntaxCharacter c.
Proof.
  unfold escapeClass, RegExp.isSyntaxCharacter. cbn [existsb].
  btauto.
Qed.

Lemma escape_replaceFrom (s before : jsstring) :
  RegExp.replaceFrom [RegExp.Class escapeClass]
                     [RegExp.backslash; RegExp.dollar; 38%N] before s 0
  = List.concat (List.map escapeUnit s).
Proof.
  revert before. induction s as [|c s IH]; intros before; [reflexivity|].
  cbn [RegExp.replaceFrom RegExp.matchAt RegExp.atomMatches length
       List.map List.concat].
  rewrite escapeClass_isSyntaxCharacter, andb_true_r.
  unfold escapeUnit at 1.
  destruct (RegExp.isSyntaxCharacter c).
  - cbn. rewrite IH. reflexivity.
  - cbn. rewrite IH. reflexivity.
Qed.

Lemma escapeRegExp_units (s : jsstring) :
  escapeRegExp s = List.concat (List.map escapeUnit s).
Proof. apply escape_replaceFrom. Qed.

(** The pattern built from an escaped text always compiles, to the
    sequence of the code units of the text. *)
Lemma parse_escapeRegExp (s : jsstring) :
  RegExp.parse (escapeRegExp s) = Some (List.map RegExp.Char s).
Proof.
  rewrite escapeRegExp_units.
  induction s as [|c s IH]; [reflexivity|].
  cbn [List.map List.concat]. unfold escapeUnit at 1.
  destruct (RegExp.isSyntaxCharacter c) eqn:Hc.
  - cbn [app RegExp.parse]. rewrite N.eqb_refl, Hc, IH. reflexivity.
  - cbn [app RegExp.parse].
    destruct (c =? RegExp.backslash)%N eqn:Hb.
    + apply N.eqb_eq in Hb. subst c. discriminate.
    + rewrite Hc, IH. reflexivity.
Qed.

Lemma replaceAllOccurrences_normal (content oldText newText : jsstring) :
  replaceAllOccurrences content oldText newText
  = Normal (RegExp.replace content (List.map RegExp.Char oldText) newText).
Proof. unfold replaceAllOccurrences. by rewrite parse_escapeRegExp. Qed.

Lemma matchAt_literal (oldText s : jsstring) :
  RegExp.matchAt (List.map RegExp.Char oldText) s = JS.isPrefix oldText s.
Proof.
  revert s. induction oldText as [|a p IH]; intros [|b s]; cbn;
    try reflexivity.
  by rewrite IH.
Qed.

Lemma getSubstitution_plain (matched before after replacement : jsstring) :
  RegExp.dollar ∉ replacement ->
  RegExp.getSubstitution matched before after replacement = replacement.
Proof.
  induction replacement as [|c rest IH]; intros Hno; [reflexivity|].
  cbn [RegExp.getSubstitution].
  destruct (c =? RegExp.dollar)%N eqn:Hc.
  - apply N.eqb_eq in Hc. subst c. exfalso. apply Hno. left.
  - rewrite IH; [reflexivity|]. intros Hin. apply Hno. by right.
Qed.

(** When the new text has no [$] in it, the replace-all of the handlers
    is the literal one. *)
Lemma replaceAllOccurrences_literal (content oldText newText : jsstring) :
  RegExp.dollar ∉ newText ->
  replaceAllOccurrences content oldText newText
  = Normal (literalReplaceAll content oldText newText).
Proof.
  intros Hno. rewrite replaceAllOccurrences_normal. f_equal.
  unfold RegExp.replace, literalReplaceAll.
  generalize (@nil N) as before. generalize 0 as skip.
  induction content as [|c rest IH]; intros skip before.
  - cbn. destruct skip; [|by destruct oldText].
    destruct oldText; cbn; [|reflexivity].
    by apply getSubstitution_plain.
  - cbn [RegExp.replaceFrom literalReplaceFrom].
    destruct skip as [|k]; [|apply IH].
    rewrite matchAt_literal, length_map.
    destruct (JS.isPrefix oldText (c :: rest)).
    + rewrite getSubstitution_plain by done. f_equal.
      destruct (length oldText); [f_equal|]; apply IH.
    + f_equal. apply IH.
Qed.

(** [singleOccurrence]: inside the text, exactly the range is replaced. *)
Lemma replaceRange_inside (s : jsstring) (start end_ : nat)
    (newText : jsstring) :
  start <= end_ <= length s ->
  replaceRange s (Z.of_nat start) (Z.of_nat end_) newText
  = take start s ++ newText ++ drop end_ s.
Proof.
  intros H. unfold replaceRange, JS.substringFrom, JS.substring, JS.clampIndex.
  replace (Z.to_nat (Z.min (Z.max 0 0) (Z.of_nat (length s)))) with 0 by lia.
  replace (Z.to_nat (Z.min (Z.max (Z.of_nat start) 0) (Z.of_nat (length s))))
    with start by lia.
  replace (Z.to_nat (Z.min (Z.max (Z.of_nat end_) 0) (Z.of_nat (length s))))
    with end_ by lia.
  replace (Z.to_nat (Z.min (Z.max (Z.of_nat (length s)) 0)
                           (Z.of_nat (length s))))
    with (length s) by lia.
  rewrite Nat.min_0_l, Nat.max_0_l, Nat.sub_0_r, drop_0.
  rewrite (Nat.min_l end_ (length s)), (Nat.max_r end_ (length s)) by lia.
  f_equal. f_equal.
  rewrite take_ge; [reflexivity|]. rewrite length_drop. lia.
Qed.

(* ===================================================================== *)
(** * Corrections and the vocabulary                                      *)
(* ===================================================================== *)

Section Corrections.

Context (toLowerCase : jsstring -> jsstring).

Lemma mapWithIndex_normal {A B} (f : A -> nat -> Completion B) (l : list A) :
  (forall x k, exists y, f x k = Normal y) ->
  forall index, exists ys, mapWithIndex f index l = Normal ys.
Proof.
  intros Hf. induction l as [|x l IH]; intros index; cbn; [eauto|].
  destruct (Hf x index) as [y ->].
  destruct (IH (S index)) as [ys ->]. eauto.
Qed.

Lemma editChunk_normal (oldText newText : jsstring) (replaceAll : bool)
    (chunkIndex start end_ : Z) (chunk : TranscriptChunk) (index : nat) :
  exists chunk',
    editChunk oldText newText replaceAll chunkIndex start end_ chunk index
    = Normal chunk'.
Proof.
  unfold editChunk. destruct replaceAll.
  - rewrite replaceAllOccurrences_normal. eauto.
  - destruct (Z.of_nat index =? chunkIndex)%Z; eauto.
Qed.

Lemma handleEditAndUpdateVocabulary_vocabulary (w : World)
    (oldText newText : jsstring) (replaceAll : bool)
    (chunkIndex start end_ : Z) :
  JS.trim newText <> [] ->
  vocabulary
    (ui (handleEditAndUpdateVocabulary toLowerCase oldText newText replaceAll
           true chunkIndex start end_ w).2)
  = addCorrection toLowerCase oldText newText (now w) (vocabulary (ui w)).
Proof.
  intros Hnew. destruct w as [d u s l c].
  unfold handleEditAndUpdateVocabulary. unfold_setters. run1.
  destruct (JS.trim newText) as [|c0 t0] eqn:Htrim; [done|].
  cbn [JS.truthy negb]. run1. unfold liftCompletion.
  destruct (mapWithIndex_normal
              (editChunk oldText newText replaceAll chunkIndex start end_)
              (transcriptChunks u)
              (editChunk_normal oldText newText replaceAll chunkIndex
                                start end_) 0) as [newChunks ->].
  do 2 run1.
  destruct (truthyId (activeRecordingId u)) as [active|].
  - unfold tryCatch.
    match goal with
    | |- context [updateRecording active ?upd (mkWorld d ?u1 s ?l1 c)] =>
        destruct (updateRecording_frame active upd d u1 s l1 c)
          as (outcome & d' & ->)
    end.
    destruct outcome as [[]|e]; run1; reflexivity.
  - run1. reflexivity.
Qed.

Lemma handleNoteEditAndUpdateVocabulary_vocabulary (w : World)
    (oldText newText : jsstring) (replaceAll : bool) (start end_ : Z) :
  JS.trim newText <> [] ->
  vocabulary
    (ui (handleNoteEditAndUpdateVocabulary toLowerCase oldText newText
           replaceAll true start end_ w).2)
  = addCorrection toLowerCase oldText newText (now w) (vocabulary (ui w)).
Proof.
  intros Hnew. destruct w as [d u s l c].
  unfold handleNoteEditAndUpdateVocabulary, handleUpdateNotes.
  unfold_setters. run1.
  destruct (JS.trim newText) as [|c0 t0] eqn:Htrim; [done|].
  cbn [JS.truthy negb]. run1.
  destruct replaceAll.
  - unfold liftCompletion. rewrite replaceAllOccurrences_normal.
    do 3 run1.
    destruct (truthyId (activeRecordingId u)); run1; reflexivity.
  - do 3 run1.
    destruct (truthyId (activeRecordingId u)); run1; reflexivity.
Qed.

Lemma addCorrection_duplicate (oldText newText : jsstring) (timestamp : Z)
    (prev : list VocabularyItem) :
  (exists item, item ∈ prev
     /\ toLowerCase (VocabularyItem.word item) = toLowerCase (JS.trim newText))
  -> addCorrection toLowerCase oldText newText timestamp prev = prev.
Proof.
  intros (item & Hin & Heq). unfold addCorrection.
  replace (existsb _ prev) with true; [reflexivity|].
  symmetry. apply existsb_exists. exists item. split.
  - by apply list_elem_of_In.
  - unfold JS.eqb. by apply bool_decide_eq_true_2.
Qed.

Lemma addCorrection_fresh (oldText newText : jsstring) (timestamp : Z)
    (prev : list VocabularyItem) :
  (forall item, item ∈ prev ->
     toLowerCase (VocabularyItem.word item) <> toLowerCase (JS.trim newText))
  -> addCorrection toLowerCase oldText newText timestamp prev
     = prev ++ [VocabularyItem.mk timestamp (JS.trim newText)
                  (JS.lit "Corrected from " ++ JS.dquote ++ JS.trim oldText
                   ++ JS.dquote)].
Proof.
  intros Hfresh. unfold addCorrection.
  replace (existsb _ prev) with false; [reflexivity|].
  symmetry. apply not_true_is_false. intros Hex.
  apply existsb_exists in Hex as (item & Hin & Heq).
  apply (Hfresh item); [by apply list_elem_of_In|].
  unfold JS.eqb in Heq. by apply bool_decide_eq_true_1 in Heq.
Qed.

(** C9. A confirmed correction with the add-to-vocabulary option, in the
    transcript or in the notes: when an item of the vocabulary has the
    word [newText.trim()] up to case, the vocabulary is unchanged;
    otherwise one item is appended, with word [newText.trim()] and
    description [Corrected from "<oldText.trim()>"]. *)
Theorem correction_vocabulary (w : World) (oldText newText : jsstring)
    (replaceAll : bool) (chunkIndex start end_ : Z) :
  let before := vocabulary (ui w) in
  let candidate :=
    VocabularyItem.mk (now w) (JS.trim newText)
      (JS.lit "Corrected from " ++ JS.dquote ++ JS.trim oldText ++ JS.dquote) in
  let afterTranscriptEdit :=
    vocabulary
      (ui (handleEditAndUpdateVocabulary toLowerCase oldText newText
             replaceAll true chunkIndex start end_ w).2) in
  let afterNotesEdit :=
    vocabulary
      (ui (handleNoteEditAndUpdateVocabulary toLowerCase oldText newText
             replaceAll true start end_ w).2) in
  JS.trim newText <> [] ->
  ((exists item, item ∈ before
      /\ toLowerCase (VocabularyItem.word item)
         = toLowerCase (JS.trim newText)) ->
   afterTranscriptEdit = before /\ afterNotesEdit = before)
  /\ ((forall item, item ∈ before ->
         toLowerCase (VocabularyItem.word item)
         <> toLowerCase (JS.trim newText)) ->
      afterTranscriptEdit = before ++ [candidate]
      /\ afterNotesEdit = before ++ [candidate]).
Proof.
  intros before candidate afterTranscriptEdit afterNotesEdit Hnew.
  unfold afterTranscriptEdit, afterNotesEdit.
  rewrite handleEditAndUpdateVocabulary_vocabulary by exact Hnew.
  rewrite handleNoteEditAndUpdateVocabulary_vocabulary by exact Hnew.
  fold before. split.
  - intros Hdup. by rewrite addCorrection_duplicate.
  - intros Hfresh. by rewrite addCorrection_fresh.
Qed.

End Corrections.

(* ===================================================================== *)
(** * The splitter                                                        *)
(* ===================================================================== *)

Section Splitter.

Context (limits : Limits).

Local Abbreviation MAX := (MAX_CHUNK_SIZE_BYTES limits).
Local Abbreviation HEADER := (HEADER_SIZE_BYTES limits).

(** The progress shown after piece 7 of 190 is 3: the double [7 / 190]
    times 95 is just below 3.5, where the exact quotient would be 3.5
    and round to 4. After the last piece it is 95. *)
Lemma roundProgress_on_doubles :
  roundProgress 7 190 = 3%Z /\ roundProgress 1 3 = 32%Z
  /\ roundProgress 2 3 = 63%Z /\ roundProgress 3 3 = 95%Z.
Proof. vm_compute. repeat split; reflexivity. Qed.

(** A payload that fits in one piece is one piece, the whole of it. *)
Lemma piecePlan_single (size : Z) :
  (size <= MAX)%Z -> piecePlan limits size = [(0%Z, size)].
Proof. intros H. unfold piecePlan. by rewrite (Zle_imp_le_bool _ _ H). Qed.

(** A larger payload is cut in [ceil((size - HEADER) / (MAX - HEADER))]
    pieces. *)
Lemma piecePlan_multi_length (size : Z) :
  (MAX < size)%Z ->
  length (piecePlan limits size)
  = Z.to_nat (ceilDiv (size - HEADER) (MAX - HEADER)).
Proof.
  intros H. unfold piecePlan. rewrite (proj2 (Z.leb_gt _ _) H).
  by rewrite length_map, length_seq.
Qed.

(** Every byte that is not among the last [HEADER] ones is in a piece. *)
Lemma piecePlan_covers_below_tail (size x : Z) :
  (0 <= HEADER < MAX)%Z -> (MAX < size)%Z -> (0 <= x < size - HEADER)%Z ->
  exists range,
    In range (piecePlan limits size) /\ (range.1 <= x < range.2)%Z.
Proof.
  intros Hlim Hsize Hx.
  unfold piecePlan. rewrite (proj2 (Z.leb_gt _ _) Hsize).
  set (step := (MAX - HEADER)%Z).
  assert (Hstep : (0 < step)%Z) by (unfold step; lia).
  pose proof (Z.div_mod x step ltac:(lia)) as Hdm.
  pose proof (Z.mod_pos_bound x step Hstep) as Hmod.
  pose proof (Z.div_pos x step ltac:(lia) Hstep) as Hq.
  pose proof (ceilDiv_spec (size - HEADER) step Hstep) as Hceil.
  exists (chunkStart limits (x / step), chunkEnd limits (x / step) size).
  split.
  - apply in_map_iff. exists (Z.to_nat (x / step)).
    rewrite Z2Nat.id by lia. split; [reflexivity|].
    apply in_seq. unfold totalChunks. fold step.
    split; [lia|]. cbn. apply Z2Nat.inj_lt; [lia | nia | nia].
  - unfold chunkStart, chunkEnd, chunkStart. fold step. cbn [fst snd].
    nia.
Qed.

(** Pieces follow one another: each piece but the last ends where the next
    one starts, and is a full step long. *)
Lemma piecePlan_contiguous (size i : Z) :
  (0 <= HEADER < MAX)%Z -> (0 <= i)%Z ->
  (i + 1 < totalChunks limits size)%Z ->
  chunkEnd limits i size = chunkStart limits (i + 1)
  /\ (chunkStart limits i < chunkEnd limits i size)%Z.
Proof.
  intros Hlim Hi Hnext.
  pose proof (chunkStart_lt_size limits size (i + 1) ltac:(lia) ltac:(lia))
    as Hlt.
  unfold chunkEnd, chunkStart in *. split; nia.
Qed.

End Splitter.

(** C1 fails on the code. With the limits of the application, a payload
    of 20951041 bytes is cut in the two pieces that the formula gives,
    [0, 10475520) and [10475520, 20951040): its last byte, at offset
    20951040, is in no piece. The same with small limits (pieces of 8
    bytes, header of 2), run to the end: of a 13-byte payload, bytes 0..5
    and then the header 0..1 with bytes 6..11 are submitted, byte 12 never
    is, and the recording is stored as [completed]. *)
Theorem piecePlan_drops_tail :
  piecePlan appLimits 20951041
  = [(0, 10475520); (10475520, 20951040)]%Z
  /\ (forall range, In range (piecePlan appLimits 20951041) ->
        ~ (range.1 <= 20951040 < range.2)%Z)
  /\ (let w := Example.world (Example.store 13 RS_new []) Example.initialUI
                             Example.alwaysOk in
      let run := processRecording Example.limits 7 w in
      List.map audioOf (calls run.2)
      = [ [Byte.x00; Byte.x01; Byte.x02; Byte.x03; Byte.x04; Byte.x05];
          [Byte.x00; Byte.x01;
           Byte.x06; Byte.x07; Byte.x08; Byte.x09; Byte.x0a; Byte.x0b] ]
      /\ Recording.status <$> storedRecording run.2 7 = Some RS_completed).
Proof.
  split; [reflexivity|]. split.
  - intros range Hin.
    change (piecePlan appLimits 20951041)
      with [(0, 10475520); (10475520, 20951040)]%Z in Hin.
    destruct Hin as [<-|[<-|[]]]; cbn; lia.
  - vm_compute. split; reflexivity.
Qed.

(* ===================================================================== *)
(** * The claims on concrete worlds                                       *)
(* ===================================================================== *)

(** C7 fails on the code. Replacing every ["USD"] by ["US$$"]: the
    pattern is escaped, the new text is not, and [$$] in a replacement
    text stands for one [$]. The piece becomes ["Total: 5 US$"], in the
    user interface and in the database, where the literal replacement is
    ["Total: 5 US$$"]. *)
Theorem replaceAll_expands_dollar_patterns :
  let piece := Example.completedChunk 0 "Total: 5 USD" in
  let w := Example.world (Example.store 5 RS_completed [piece])
                         (Example.showing [piece]) Example.alwaysOk in
  let run :=
    handleEditAndUpdateVocabulary Example.toLowerCase (JS.lit "USD")
      (JS.lit "US$$") true false 0 9 12 w in
  run.1 = Normal tt
  /\ List.map TranscriptChunk.content (transcriptChunks (ui run.2))
     = [JS.lit "Total: 5 US$"]
  /\ (List.map TranscriptChunk.content ∘ Recording.transcriptChunks)
       <$> storedRecording run.2 7
     = Some [JS.lit "Total: 5 US$"]
  /\ literalReplaceAll (JS.lit "Total: 5 USD") (JS.lit "USD") (JS.lit "US$$")
     = JS.lit "Total: 5 US$$".
Proof. vm_compute. repeat split; reflexivity. Qed.

(** Three pieces, the call for the second one rejected: the run ends
    [failed] with pieces [completed], [failed], [completed]; a retry of
    the second piece, once the service answers, completes it and leaves
    the two others. *)
Lemma processRecording_partial_failure_witness :
  let w := Example.world (Example.store 20 RS_new []) Example.initialUI
                         (Example.failingAt 1) in
  let run := processRecording Example.limits 7 w in
  let retry :=
    handleRetryChunkTranscription Example.limits 1 (Example.recovered run.2) in
  run.1 = Normal tt
  /\ transcriptChunks (ui run.2)
     = [Example.completedChunk 0 "ok";
        Example.failedChunk 1 "Error transcribing audio: quota";
        Example.completedChunk 2 "ok"]
  /\ (exists recording',
        storedIn (db run.2) 7 recording'
        /\ Recording.status recording' = RS_failed)
  /\ transcriptChunks (ui retry.2)
     = [Example.completedChunk 0 "ok"; Example.completedChunk 1 "ok";
        Example.completedChunk 2 "ok"].
Proof.
  intros w run retry.
  destruct (processRecording_partial_failure Example.limits w
              (Example.store 20 RS_new []) 7 (Example.recording 20 RS_new []))
    as (Hnormal & _ & _ & (recording' & Hstored & _ & Hstatus & _) & Hui
        & Hretry).
  - vm_compute. split; [discriminate | reflexivity].
  - reflexivity.
  - vm_compute. reflexivity.
  - reflexivity.
  - left. discriminate.
  - vm_compute. reflexivity.
  - split; [exact Hnormal|].
    split; [fold run in Hui; rewrite Hui; vm_compute; reflexivity|].
    split; [exists recording'; split; [exact Hstored|]|].
    { rewrite Hstatus. vm_compute. reflexivity. }
    destruct (Hretry (Example.recovered run.2) 1 (JS.lit " ok "))
      as (_ & Hafter & _).
    + discriminate.
    + vm_compute. reflexivity.
    + vm_compute. reflexivity.
    + vm_compute. lia.
    + vm_compute. reflexivity.
    + unfold retry. change (Z.of_nat 1) with 1%Z in Hafter.
      rewrite Hafter. vm_compute. reflexivity.
Defined.

(** A recording stored as completed with one piece: no call, same
    database. *)
Lemma processRecording_completed_is_cached_witness :
  let piece := Example.completedChunk 0 "hello" in
  let w := Example.world (Example.store 5 RS_completed [piece])
                         Example.initialUI Example.alwaysOk in
  let run := processRecording Example.limits 7 w in
  run.1 = Normal tt /\ calls run.2 = [] /\ db run.2 = db w
  /\ transcriptChunks (ui run.2) = [piece].
Proof.
  intros piece w run.
  apply (processRecording_completed_is_cached Example.limits w
           (Example.store 5 RS_completed [piece]) 7
           (Example.recording 5 RS_completed [piece])).
  - reflexivity.
  - vm_compute. reflexivity.
  - reflexivity.
  - discriminate.
Defined.

(** Five bytes, one piece, the call rejected with ["quota"]. *)
Lemma processRecording_single_piece_failure_witness :
  let w := Example.world (Example.store 5 RS_new []) Example.initialUI
                         (Example.failingAt 0) in
  let run := processRecording Example.limits 7 w in
  run.1 = Normal tt
  /\ exists r',
       storedIn (db run.2) 7 r'
       /\ Recording.status r' = RS_failed
       /\ Recording.progress r' = 0%Z
       /\ Recording.transcriptChunks r'
          = [Example.failedChunk 0 "Error transcribing audio: quota"].
Proof.
  intros w run.
  destruct (processRecording_single_piece_failure Example.limits w
              (Example.store 5 RS_new []) 7 (Example.recording 5 RS_new [])
              (ErrorObj (JS.lit "Error transcribing audio: quota")))
    as (_ & Hnormal & r' & Hstored & Hstatus & Hprogress & Hchunks & _).
  - reflexivity.
  - vm_compute. reflexivity.
  - reflexivity.
  - left. discriminate.
  - vm_compute. discriminate.
  - vm_compute. reflexivity.
  - split; [exact Hnormal|]. exists r'. repeat split; assumption.
Defined.

(** C5 as stated fails: after a failed single-piece run the stored
    progress is 0, not 100, and [processRecording] returns normally: the
    error reaches the user interface, not the caller. *)
Lemma single_piece_failure_ends_at_progress_0 :
  let w := Example.world (Example.store 5 RS_new []) Example.initialUI
                         (Example.failingAt 0) in
  let run := processRecording Example.limits 7 w in
  run.1 = Normal tt
  /\ Recording.progress <$> storedRecording run.2 7 = Some 0%Z
  /\ Recording.status <$> storedRecording run.2 7 = Some RS_failed
  /\ error (ui run.2)
     = Some (JS.lit "Processing failed: Error transcribing audio: quota. The file might be too large or in an unsupported format.").
Proof. vm_compute. repeat split; reflexivity. Qed.

(** A completed piece and a failed one: both go to the formatting
    service. *)
Lemma handleGenerateNotes_submits_every_piece_witness :
  let w := Example.world (Example.store 5 RS_failed [])
             (Example.showing
                [Example.completedChunk 0 "Hello team.";
                 Example.failedChunk 1 "Error transcribing audio: quota"])
             Example.alwaysOk in
  calls (handleGenerateNotes w).2
  = [mkRequest (JS.lit "gemini-2.5-flash")
       (TextOnly
          (formatPrompt (JS.lit "Summarise the meeting.")
             (JS.lit "Hello team. Error transcribing audio: quota")))].
Proof.
  intros w.
  rewrite (handleGenerateNotes_submits_every_piece w).
  - vm_compute. reflexivity.
  - vm_compute. discriminate.
  - vm_compute. discriminate.
Defined.

(** C8 as stated fails: the description of the failed piece is part of
    the text submitted for formatting. *)
Lemma failed_piece_content_is_submitted :
  let w := Example.world (Example.store 5 RS_failed [])
             (Example.showing
                [Example.completedChunk 0 "Hello team.";
                 Example.failedChunk 1 "Error transcribing audio: quota"])
             Example.alwaysOk in
  List.map
    (fun request =>
       JS.includes (promptOf request)
                   (JS.lit "Error transcribing audio: quota"))
    (calls (handleGenerateNotes w).2)
  = [true].
Proof. vm_compute. reflexivity. Qed.

(** ["api"] is in the vocabulary: correcting to [" API "] adds nothing;
    correcting to ["Kubernetes"] appends the candidate. *)
Lemma correction_vocabulary_witness :
  let known := VocabularyItem.mk 1 (JS.lit "api") [] in
  let w := Example.world (Example.store 5 RS_completed [])
             (Example.withVocabulary [known]) Example.alwaysOk in
  vocabulary
    (ui (handleEditAndUpdateVocabulary Example.toLowerCase (JS.lit "a p i")
           (JS.lit " API ") true true 0 0 0 w).2)
  = [known]
  /\ vocabulary
       (ui (handleNoteEditAndUpdateVocabulary Example.toLowerCase
              (JS.lit " cube and eighties") (JS.lit "Kubernetes") false true
              0 0 w).2)
     = [known;
        VocabularyItem.mk 1700000000000 (JS.lit "Kubernetes")
          (JS.lit "Corrected from " ++ JS.dquote
           ++ JS.lit "cube and eighties" ++ JS.dquote)].
Proof.
  intros known w. split.
  - destruct (correction_vocabulary Example.toLowerCase w (JS.lit "a p i")
                (JS.lit " API ") true 0 0 0) as [Hdup _];
      [vm_compute; discriminate|].
    destruct Hdup as [Hdup _]; [|exact Hdup].
    exists known. split; [apply list_elem_of_here | vm_compute; reflexivity].
  - destruct (correction_vocabulary Example.toLowerCase w
                (JS.lit " cube and eighties") (JS.lit "Kubernetes") false
                0 0 0) as [_ Hfresh]; [vm_compute; discriminate|].
    destruct Hfresh as [_ Hfresh]; [|exact Hfresh].
    intros item Hin. apply list_elem_of_singleton in Hin. subst item.
    vm_compute. discriminate.
Defined.

(* ===================================================================== *)
(** * The recording store: the other operations                           *)
(* ===================================================================== *)

Lemma world_eta (w : World) :
  mkWorld (db w) (ui w) (remote w) (calls w) (now w) = w.
Proof. by destruct w. Qed.

Lemma delete_keyed (store : gmap Z Recording) (id : Z) :
  keyed store -> keyed (delete id store).
Proof.
  intros Hk k r Hget. apply lookup_delete_Some in Hget as [_ Hget].
  by apply Hk.
Qed.

(** X1. A recording added under a free id is the one read back under that id;
    the other ids read as before. Under a taken id the call is rejected
    and nothing changes. *)
Theorem addRecording_then_getRecording (w : World)
    (store : gmap Z Recording) (recording : Recording) :
  db w = Some store ->
  (store !! Recording.id recording = None ->
     (addRecording recording w).1 = Normal tt
     /\ (getRecording (Recording.id recording) (addRecording recording w).2).1
        = Normal (Some recording)
     /\ (forall id, id <> Recording.id recording ->
           (getRecording id (addRecording recording w).2).1
           = (getRecording id w).1))
  /\ (is_Some (store !! Recording.id recording) ->
      addRecording recording w
      = (Throw (StringVal (JS.lit "Failed to save recording.")), w)).
Proof.
  intros Hdb. unfold addRecording, getRecording. rewrite Hdb. split.
  - intros Hfree. rewrite Hfree. cbn. unfold put.
    rewrite lookup_insert_eq. split; [reflexivity|]. split; [reflexivity|].
    intros id Hne. by rewrite lookup_insert_ne.
  - intros [old Hold]. by rewrite Hold.
Qed.

Lemma addRecording_then_getRecording_witness :
  let store : gmap Z Recording := {[ 7%Z := Example.recording 5 RS_new [] ]} in
  let w := Example.world store Example.initialUI Example.alwaysOk in
  let fresh :=
    Recording.mk 9 (JS.lit "retro") 3 (JS.lit "audio/ogg") RS_new 0 [] None
                 (Example.payload 3) in
  (getRecording 9 (addRecording fresh w).2).1 = Normal (Some fresh)
  /\ addRecording (Example.recording 5 RS_new []) w
     = (Throw (StringVal (JS.lit "Failed to save recording.")), w).
Proof.
  intros store w fresh.
  destruct (addRecording_then_getRecording w store fresh eq_refl)
    as [Hfree _].
  destruct (addRecording_then_getRecording w store
              (Example.recording 5 RS_new []) eq_refl) as [_ Htaken].
  split.
  - apply Hfree. vm_compute. reflexivity.
  - apply Htaken. exists (Example.recording 5 RS_new []).
    vm_compute. reflexivity.
Defined.

(** After [deleteRecording] the id reads as absent and the other ids as
    before; deleting an id that is not stored succeeds and changes
    nothing. *)
Lemma deleteRecording_then_getRecording (w : World)
    (store : gmap Z Recording) (id : Z) :
  db w = Some store ->
  (deleteRecording id w).1 = Normal tt
  /\ (getRecording id (deleteRecording id w).2).1 = Normal None
  /\ (forall k, k <> id ->
        (getRecording k (deleteRecording id w).2).1 = (getRecording k w).1)
  /\ (store !! id = None -> (deleteRecording id w).2 = w).
Proof.
  intros Hdb. unfold deleteRecording, getRecording. rewrite Hdb. cbn.
  rewrite lookup_delete_eq. split; [reflexivity|]. split; [reflexivity|].
  split.
  - intros k Hne. by rewrite lookup_delete_ne.
  - intros Hnone. rewrite delete_id by done. unfold set_db.
    rewrite <- Hdb. apply world_eta.
Qed.

Lemma deleteRecording_then_getRecording_witness :
  let store : gmap Z Recording := {[ 7%Z := Example.recording 5 RS_new [] ]} in
  let w := Example.world store Example.initialUI Example.alwaysOk in
  (getRecording 7 (deleteRecording 7 w).2).1 = Normal None
  /\ (deleteRecording 8 w).2 = w.
Proof.
  intros store w.
  destruct (deleteRecording_then_getRecording w store 7 eq_refl)
    as (_ & Hgone & _).
  destruct (deleteRecording_then_getRecording w store 8 eq_refl)
    as (_ & _ & _ & Hmissing).
  split; [exact Hgone|]. apply Hmissing. vm_compute. reflexivity.
Defined.

(** X2. The store keeps every record under its own id through every write:
    [addRecording], [updateRecording] and [deleteRecording] take a keyed
    store to a keyed store, whatever their outcome. *)
Theorem writes_keep_store_keyed (w : World) (store : gmap Z Recording)
    (recording : Recording) (id : Z) (updates : Updates.t) :
  db w = Some store -> keyed store ->
  (exists store', db (addRecording recording w).2 = Some store'
                  /\ keyed store')
  /\ (exists store', db (updateRecording id updates w).2 = Some store'
                     /\ keyed store')
  /\ (exists store', db (deleteRecording id w).2 = Some store'
                     /\ keyed store').
Proof.
  intros Hdb Hk. unfold addRecording, updateRecording, deleteRecording.
  rewrite Hdb. repeat split.
  - destruct (store !! Recording.id recording).
    + exists store. split; [exact Hdb | exact Hk].
    + exists (put recording store). split; [reflexivity|]. by apply put_keyed.
  - destruct (store !! id) as [data|].
    + exists (put (spread data updates) store).
      split; [reflexivity|]. by apply put_keyed.
    + exists store. split; [exact Hdb | exact Hk].
  - exists (delete id store). split; [reflexivity|]. by apply delete_keyed.
Qed.

Lemma writes_keep_store_keyed_witness :
  let store : gmap Z Recording := {[ 7%Z := Example.recording 5 RS_new [] ]} in
  let w := Example.world store Example.initialUI Example.alwaysOk in
  exists store',
    db (updateRecording 7 (Updates.withProgress 50 Updates.none) w).2
    = Some store'
    /\ keyed store'.
Proof.
  intros store w.
  destruct (writes_keep_store_keyed w store (Example.recording 5 RS_new [])
              7 (Updates.withProgress 50 Updates.none) eq_refl)
    as (_ & Hupdate & _); [|exact Hupdate].
  intros k r H. unfold store in H.
  apply lookup_singleton_Some in H as [<- <-]. reflexivity.
Defined.

Lemma newerFirst_total : Total newerFirst.
Proof. intros a b. unfold newerFirst. lia. Qed.

Lemma newerFirst_transitive : Transitive newerFirst.
Proof. intros a b c. unfold newerFirst. lia. Qed.

Lemma newest_first_strict (l : list (Z * Recording)) :
  StronglySorted newerFirst l ->
  NoDup (l.*1) ->
  (forall kv, kv ∈ l -> Recording.id kv.2 = kv.1) ->
  StronglySorted
    (fun a b => (RecordingMetadata.id b < RecordingMetadata.id a)%Z)
    (List.map (fun kv => RecordingMetadata.ofRecording kv.2) l).
Proof.
  induction 1 as [|x l Hsorted IH Hx]; intros Hnodup Hid; cbn; constructor.
  - apply IH.
    + by apply NoDup_cons in Hnodup as [_ ?].
    + intros kv Hin. apply Hid. by right.
  - apply Forall_forall. intros m Hm.
    apply list_elem_of_In, in_map_iff in Hm as (y & <- & Hy). cbn.
    apply list_elem_of_In in Hy.
    rewrite (Hid x) by left. rewrite (Hid y) by (by right).
    rewrite Forall_forall in Hx. pose proof (Hx y Hy) as Hle.
    unfold newerFirst in Hle.
    apply NoDup_cons in Hnodup as [Hnotin _].
    assert (y.1 <> x.1); [|lia].
    intros Heq. apply Hnotin. rewrite <- Heq.
    apply list_elem_of_fmap. by exists y.
Qed.

(** X3. [getAllRecordingsMetadata] lists every stored recording once, without
    its blob, the newest (largest id) first. *)
Theorem getAllRecordingsMetadata_newest_first (w : World)
    (store : gmap Z Recording) :
  db w = Some store -> keyed store ->
  exists metadata,
    getAllRecordingsMetadata w = (Normal metadata, w)
    /\ StronglySorted
         (fun a b => (RecordingMetadata.id b < RecordingMetadata.id a)%Z)
         metadata
    /\ (forall m, m ∈ metadata <->
          exists r, store !! RecordingMetadata.id m = Some r
                    /\ m = RecordingMetadata.ofRecording r)
    /\ length metadata = size store.
Proof.
  intros Hdb Hk. unfold getAllRecordingsMetadata. rewrite Hdb.
  eexists. split; [reflexivity|].
  pose proof (merge_sort_Permutation newerFirst (map_to_list store)) as Hperm.
  split; [|split].
  - apply newest_first_strict.
    + pose proof newerFirst_total. pose proof newerFirst_transitive.
      apply StronglySorted_merge_sort; apply _.
    + rewrite Hperm. apply NoDup_fst_map_to_list.
    + intros [k r] Hin. rewrite Hperm in Hin.
      apply elem_of_map_to_list in Hin. cbn. by apply Hk.
  - intros m. rewrite list_elem_of_In, in_map_iff. split.
    + intros ([k r] & <- & Hin). apply list_elem_of_In in Hin.
      rewrite Hperm in Hin. apply elem_of_map_to_list in Hin.
      exists r. cbn. split; [|reflexivity].
      by rewrite (Hk k r Hin).
    + intros (r & Hget & ->). exists (RecordingMetadata.id
                                       (RecordingMetadata.ofRecording r), r).
      split; [reflexivity|]. apply list_elem_of_In. rewrite Hperm.
      by apply elem_of_map_to_list.
  - rewrite length_map, Hperm. apply length_map_to_list.
Qed.

Lemma getAllRecordingsMetadata_newest_first_witness :
  let store : gmap Z Recording :=
    <[ 9%Z := Recording.mk 9 (JS.lit "retro") 3 (JS.lit "audio/ogg") RS_new 0
                 [] None (Example.payload 3) ]>
      {[ 7%Z := Example.recording 5 RS_new [] ]} in
  let w := Example.world store Example.initialUI Example.alwaysOk in
  exists metadata,
    getAllRecordingsMetadata w = (Normal metadata, w)
    /\ List.map RecordingMetadata.id metadata = [9%Z; 7%Z].
Proof.
  intros store w.
  destruct (getAllRecordingsMetadata_newest_first w store eq_refl)
    as (metadata & Hrun & _).
  - intros k r H. unfold store in H.
    apply lookup_insert_Some in H as [[<- <-]|[_ H]]; [reflexivity|].
    apply lookup_singleton_Some in H as [<- <-]. reflexivity.
  - exists metadata. split; [exact Hrun|].
    assert (Hm : (getAllRecordingsMetadata w).1 = Normal metadata)
      by (by rewrite Hrun).
    vm_compute in Hm. injection Hm as <-. reflexivity.
Defined.

(* ===================================================================== *)
(** * The store of audio fragments                                        *)
(* ===================================================================== *)

Lemma byChunkIndex_total : Total AudioChunks.byChunkIndex.
Proof. intros a b. unfold AudioChunks.byChunkIndex. lia. Qed.

Lemma byChunkIndex_transitive :
  Transitive AudioChunks.byChunkIndex.
Proof. intros a b c. unfold AudioChunks.byChunkIndex. lia. Qed.

Lemma sortedRecords_Permutation (recordingId : Z)
    (store : gmap (Z * Z) Blob) :
  AudioChunks.sortedRecords recordingId store
  ≡ₚ List.filter (fun record => AudioChunks.inRange recordingId record.1)
       (map_to_list store).
Proof. apply merge_sort_Permutation. Qed.

Lemma sortedRecords_elem (recordingId : Z) (store : gmap (Z * Z) Blob)
    (record : (Z * Z) * Blob) :
  record ∈ AudioChunks.sortedRecords recordingId store
  <-> AudioChunks.inRange recordingId record.1 = true
      /\ store !! record.1 = Some record.2.
Proof.
  rewrite sortedRecords_Permutation, list_elem_of_In, filter_In.
  rewrite <- list_elem_of_In. destruct record as [key chunk]. cbn.
  rewrite elem_of_map_to_list. tauto.
Qed.

Lemma NoDup_filter_bool {A} (p : A -> bool) (l : list A) :
  NoDup l -> NoDup (List.filter p l).
Proof.
  induction 1 as [|x l Hx Hl IH]; cbn; [constructor|].
  destruct (p x); [|exact IH]. constructor; [|exact IH].
  rewrite list_elem_of_In, filter_In, <- list_elem_of_In. tauto.
Qed.

Lemma sortedRecords_NoDup (recordingId : Z) (store : gmap (Z * Z) Blob) :
  NoDup (AudioChunks.sortedRecords recordingId store).
Proof.
  rewrite sortedRecords_Permutation.
  apply NoDup_filter_bool, NoDup_map_to_list.
Qed.

Lemma sortedRecords_sorted (recordingId : Z) (store : gmap (Z * Z) Blob) :
  StronglySorted AudioChunks.byChunkIndex
                 (AudioChunks.sortedRecords recordingId store).
Proof.
  pose proof byChunkIndex_total. pose proof byChunkIndex_transitive.
  apply StronglySorted_merge_sort; apply _.
Qed.

(** Two records of the range with the same chunk index are the same. *)
Lemma sortedRecords_same_index (recordingId : Z) (store : gmap (Z * Z) Blob)
    (a b : (Z * Z) * Blob) :
  a ∈ AudioChunks.sortedRecords recordingId store ->
  b ∈ AudioChunks.sortedRecords recordingId store ->
  a.1.2 = b.1.2 -> a = b.
Proof.
  rewrite !sortedRecords_elem. unfold AudioChunks.inRange.
  destruct a as [[ra ia] ca], b as [[rb ib] cb]. cbn.
  intros [Ha Hga] [Hb Hgb] ->.
  apply andb_true_iff in Ha as [Ha _]. apply andb_true_iff in Hb as [Hb _].
  apply Z.eqb_eq in Ha, Hb. subst ra rb. congruence.
Qed.

(** The sorted records are determined by the part of the store that is
    in the range. *)
Lemma sortedRecords_ext (recordingId : Z) (s1 s2 : gmap (Z * Z) Blob) :
  (forall key, AudioChunks.inRange recordingId key = true ->
     s1 !! key = s2 !! key) ->
  AudioChunks.sortedRecords recordingId s1
  = AudioChunks.sortedRecords recordingId s2.
Proof.
  intros Hsame.
  assert (Helem : forall record,
    record ∈ AudioChunks.sortedRecords recordingId s1
    <-> record ∈ AudioChunks.sortedRecords recordingId s2).
  { intros record. rewrite !sortedRecords_elem. split.
    - intros [Hin Hget]. split; [exact Hin|]. by rewrite <- Hsame.
    - intros [Hin Hget]. split; [exact Hin|]. by rewrite Hsame. }
  apply (StronglySorted_unique_strong AudioChunks.byChunkIndex).
  - intros a b Ha Hb Hab Hba. unfold AudioChunks.byChunkIndex in *.
    apply Helem in Hb.
    apply (sortedRecords_same_index recordingId s1); [done..|lia].
  - apply sortedRecords_sorted.
  - apply sortedRecords_sorted.
  - apply NoDup_Permutation; [apply sortedRecords_NoDup..|exact Helem].
Qed.

Lemma sorted_strict (recordingId : Z) (store : gmap (Z * Z) Blob)
    (l : list ((Z * Z) * Blob)) :
  StronglySorted AudioChunks.byChunkIndex l ->
  NoDup l ->
  (forall record, record ∈ l ->
     record ∈ AudioChunks.sortedRecords recordingId store) ->
  StronglySorted (fun a b => (a.1.2 < b.1.2)%Z) l.
Proof.
  induction 1 as [|x l Hsorted IH Hx]; intros Hnodup Hin; constructor.
  - apply IH.
    + by apply NoDup_cons in Hnodup as [_ ?].
    + intros record Hr. apply Hin. by right.
  - apply Forall_forall. intros y Hy.
    rewrite Forall_forall in Hx. pose proof (Hx y Hy) as Hle.
    unfold AudioChunks.byChunkIndex in Hle.
    assert (x.1.2 <> y.1.2); [|lia].
    intros Heq. apply NoDup_cons in Hnodup as [Hnotin _]. apply Hnotin.
    rewrite (sortedRecords_same_index recordingId store x y);
      [exact Hy | apply Hin; left | apply Hin; by right | exact Heq].
Qed.

(** X4. [getAudioChunks] returns the fragments stored for the recording under
    chunk indices from 0 on, each once, by ascending chunk index, and
    leaves the store as it is. *)
Theorem getAudioChunks_in_index_order (recordingId : Z)
    (store : gmap (Z * Z) Blob) :
  exists records,
    AudioChunks.getAudioChunks recordingId (Some store)
    = (Normal (List.map snd records), Some store)
    /\ StronglySorted (fun a b => (a.1.2 < b.1.2)%Z) records
    /\ (forall record, record ∈ records <->
          record.1.1 = recordingId /\ (0 <= record.1.2)%Z
          /\ store !! record.1 = Some record.2).
Proof.
  exists (AudioChunks.sortedRecords recordingId store).
  split; [reflexivity|]. split.
  - apply (sorted_strict recordingId store);
      [apply sortedRecords_sorted | apply sortedRecords_NoDup | done].
  - intros record. rewrite sortedRecords_elem. unfold AudioChunks.inRange.
    rewrite andb_true_iff, Z.eqb_eq, Z.leb_le. tauto.
Qed.

Lemma getAudioChunks_in_index_order_witness :
  let store : gmap (Z * Z) Blob :=
    {[ (7%Z, 1%Z) := Example.payload 5; (7%Z, 0%Z) := Example.payload 3;
       (7%Z, (-1)%Z) := Example.payload 2; (9%Z, 0%Z) := Example.payload 4 ]} in
  exists records,
    AudioChunks.getAudioChunks 7 (Some store)
    = (Normal (List.map snd records), Some store)
    /\ ((7%Z, 1%Z), Example.payload 5) ∈ records
    /\ (((7%Z, (-1)%Z), Example.payload 2) ∉ records)
    /\ (((9%Z, 0%Z), Example.payload 4) ∉ records).
Proof.
  intros store.
  destruct (getAudioChunks_in_index_order 7 store)
    as (records & Hrun & _ & Helem).
  exists records. split; [exact Hrun|]. split; [|split].
  - apply Helem. cbn. split; [reflexivity|]. split; [lia|].
    vm_compute. reflexivity.
  - intros Hin. apply Helem in Hin as (_ & Hindex & _). cbn in Hindex. lia.
  - intros Hin. apply Helem in Hin as (Hid & _). discriminate.
Defined.

Lemma saveFragments_lookup (recordingId : Z) (fragments : list Blob) :
  forall (chunkIndex : Z) (store : gmap (Z * Z) Blob),
    (forall i, (chunkIndex <= i)%Z -> store !! (recordingId, i) = None) ->
    exists store',
      saveFragments recordingId chunkIndex fragments (Some store)
      = (Normal tt, Some store')
      /\ forall key,
           store' !! key
           = if decide (key.1 = recordingId /\ (chunkIndex <= key.2)%Z
                        /\ (key.2 < chunkIndex + Z.of_nat (length fragments))%Z)
             then fragments !! Z.to_nat (key.2 - chunkIndex)
             else store !! key.
Proof.
  induction fragments as [|fragment rest IH]; intros chunkIndex store Hfree.
  - exists store. split; [reflexivity|]. intros key. cbn [length].
    destruct (decide _) as [(_ & ? & ?)|]; [lia | reflexivity].
  - cbn [saveFragments AudioChunks.addAudioChunk].
    rewrite (Hfree chunkIndex) by lia.
    destruct (IH (chunkIndex + 1)%Z
                 (<[(recordingId, chunkIndex) := fragment]> store))
      as (store' & Hrun & Hget).
    { intros i Hi. rewrite lookup_insert_ne by (intros [= ?]; lia).
      apply Hfree. lia. }
    exists store'. split; [exact Hrun|]. intros [r i]. rewrite Hget.
    cbn [fst snd length].
    destruct (decide (r = recordingId /\ (chunkIndex + 1 <= i)%Z /\ _))
      as [(-> & Hlo & Hhi)|Hout].
    + rewrite decide_True by lia.
      replace (Z.to_nat (i - chunkIndex))
        with (S (Z.to_nat (i - (chunkIndex + 1)))) by lia.
      reflexivity.
    + destruct (decide ((r, i) = (recordingId, chunkIndex))) as [[= -> ->]|Hne].
      * rewrite lookup_insert_eq, decide_True by lia.
        by rewrite Z.sub_diag.
      * rewrite lookup_insert_ne by congruence.
        rewrite decide_False; [reflexivity|].
        intros (-> & Hlo & Hhi).
        destruct (decide (i = chunkIndex)) as [->|]; [done|].
        apply Hout. lia.
Qed.

Lemma sortedRecords_nil (recordingId : Z) (store : gmap (Z * Z) Blob) :
  (forall i, (0 <= i)%Z -> store !! (recordingId, i) = None) ->
  AudioChunks.sortedRecords recordingId store = [].
Proof.
  intros Hfree.
  destruct (AudioChunks.sortedRecords recordingId store)
    as [|[[r i] chunk] l] eqn:Hl; [reflexivity|].
  assert (Hin : ((r, i), chunk) ∈ AudioChunks.sortedRecords recordingId store)
    by (rewrite Hl; left).
  apply sortedRecords_elem in Hin as [Hin Hget]. cbn in Hin, Hget.
  unfold AudioChunks.inRange in Hin. cbn in Hin.
  apply andb_true_iff in Hin as [->%Z.eqb_eq Hi%Z.leb_le].
  rewrite Hfree in Hget by exact Hi. discriminate.
Qed.

(** The fragments sorted out of a store whose range holds exactly
    [fragments], under the indices from [chunkIndex] on. *)
Lemma sortedRecords_consecutive (recordingId : Z) (fragments : list Blob) :
  forall (chunkIndex : Z) (store : gmap (Z * Z) Blob),
    (0 <= chunkIndex)%Z ->
    (forall i, (0 <= i)%Z ->
       store !! (recordingId, i)
       = if decide ((chunkIndex <= i)%Z
                    /\ (i < chunkIndex + Z.of_nat (length fragments))%Z)
         then fragments !! Z.to_nat (i - chunkIndex)
         else None) ->
    List.map snd (AudioChunks.sortedRecords recordingId store) = fragments.
Proof.
  induction fragments as [|fragment rest IH]; intros chunkIndex store Hpos Hget.
  - rewrite sortedRecords_nil; [reflexivity|].
    intros i Hi. rewrite Hget by exact Hi. cbn [length].
    by destruct (decide _) as [[? ?]|]; [lia|].
  - set (first := ((recordingId, chunkIndex), fragment)).
    assert (Hrest : forall i, (0 <= i)%Z ->
      delete (recordingId, chunkIndex) store !! (recordingId, i)
      = if decide ((chunkIndex + 1 <= i)%Z
                   /\ (i < chunkIndex + 1 + Z.of_nat (length rest))%Z)
        then rest !! Z.to_nat (i - (chunkIndex + 1))
        else None).
    { intros i Hi. destruct (decide (i = chunkIndex)) as [->|Hne].
      - rewrite lookup_delete_eq. by rewrite decide_False by lia.
      - rewrite lookup_delete_ne by congruence. rewrite Hget by exact Hi.
        cbn [length]. destruct (decide (_ /\ _)) as [[? ?]|Hout].
        + rewrite decide_True by lia.
          replace (Z.to_nat (i - chunkIndex))
            with (S (Z.to_nat (i - (chunkIndex + 1)))) by lia.
          reflexivity.
        + by rewrite decide_False by lia. }
    assert (Hfirst : store !! (recordingId, chunkIndex) = Some fragment).
    { rewrite Hget by exact Hpos. cbn [length].
      rewrite decide_True by lia. by rewrite Z.sub_diag. }
    assert (Hlist : AudioChunks.sortedRecords recordingId store
      = first ::
        AudioChunks.sortedRecords recordingId
          (delete (recordingId, chunkIndex) store)).
    { assert (Helem : forall record,
        record ∈ AudioChunks.sortedRecords recordingId store <->
        record ∈ first ::
          AudioChunks.sortedRecords recordingId
            (delete (recordingId, chunkIndex) store)).
      { intros [[r i] chunk]. rewrite elem_of_cons, !sortedRecords_elem.
        cbn [fst snd]. unfold first.
        destruct (decide ((r, i) = (recordingId, chunkIndex)))
          as [[= -> ->]|Hne].
        - rewrite lookup_delete_eq, Hfirst. unfold AudioChunks.inRange.
          cbn [fst snd]. rewrite Z.eqb_refl.
          replace (0 <=? chunkIndex)%Z with true by (symmetry; lia).
          cbn. split.
          + intros [_ [= ->]]. by left.
          + intros [[= ->]|[_ ?]]; [done | discriminate].
        - rewrite lookup_delete_ne by congruence. split.
          + intros ?. by right.
          + intros [[= -> -> _]|?]; [done..]. }
      assert (Hlater : Forall (AudioChunks.byChunkIndex first)
        (AudioChunks.sortedRecords recordingId
           (delete (recordingId, chunkIndex) store))).
      { apply Forall_forall. intros [[r i] chunk] Hin.
        apply sortedRecords_elem in Hin as [Hin Hlook].
        unfold AudioChunks.inRange in Hin. cbn [fst snd] in Hin, Hlook.
        apply andb_true_iff in Hin as [->%Z.eqb_eq Hi%Z.leb_le].
        rewrite Hrest in Hlook by exact Hi.
        destruct (decide _) as [[? ?]|]; [|discriminate].
        unfold AudioChunks.byChunkIndex, first. cbn. lia. }
      apply (StronglySorted_unique_strong AudioChunks.byChunkIndex).
      - intros a b Ha Hb Hab Hba. unfold AudioChunks.byChunkIndex in *.
        apply (sortedRecords_same_index recordingId store);
          [exact Ha | by apply Helem | lia].
      - apply sortedRecords_sorted.
      - constructor; [apply sortedRecords_sorted | exact Hlater].
      - apply NoDup_Permutation; [apply sortedRecords_NoDup | | exact Helem].
        apply NoDup_cons. split; [|apply sortedRecords_NoDup].
        rewrite sortedRecords_elem. cbn [fst snd first].
        rewrite lookup_delete_eq. by intros [_ ?]. }
    rewrite Hlist. cbn [List.map snd first]. f_equal.
    apply (IH (chunkIndex + 1)%Z); [lia | exact Hrest].
Qed.

(** X5. Fragments saved one after the other under the chunk indices 0, 1, ...
    for a recording that has no fragment yet are all stored, and
    [getAudioChunks] returns exactly them, in the order they were saved;
    what [getAudioChunks] returns for every other recording is as before. *)
Theorem saved_fragments_are_read_back (recordingId : Z)
    (fragments : list Blob) (store : gmap (Z * Z) Blob)
    (Hfresh : forall i, (0 <= i)%Z -> store !! (recordingId, i) = None) :
  exists store',
    saveFragments recordingId 0 fragments (Some store)
    = (Normal tt, Some store')
    /\ AudioChunks.getAudioChunks recordingId (Some store')
       = (Normal fragments, Some store')
    /\ forall other, other <> recordingId ->
         (AudioChunks.getAudioChunks other (Some store')).1
         = (AudioChunks.getAudioChunks other (Some store)).1.
Proof.
  destruct (saveFragments_lookup recordingId fragments 0 store Hfresh)
    as (store' & Hrun & Hget).
  exists store'. split; [exact Hrun|]. split.
  - cbn [AudioChunks.getAudioChunks]. do 2 f_equal.
    apply (sortedRecords_consecutive recordingId fragments 0); [lia|].
    intros i Hi. rewrite Hget. cbn [fst snd].
    destruct (decide (_ /\ _ /\ _)) as [(_ & ? & ?)|Hout].
    + by rewrite decide_True by lia.
    + rewrite decide_False by (intros [? ?]; apply Hout; lia).
      apply Hfresh, Hi.
  - intros other Hother. cbn [AudioChunks.getAudioChunks fst]. do 2 f_equal.
    apply sortedRecords_ext. intros [r i] Hin. rewrite Hget.
    unfold AudioChunks.inRange in Hin. cbn [fst snd] in Hin |- *.
    apply andb_true_iff in Hin as [->%Z.eqb_eq _].
    by rewrite decide_False by (intros [? _]; done).
Qed.

Lemma saved_fragments_are_read_back_witness :
  exists store',
    saveFragments 7 0 [Example.payload 3; Example.payload 5]
                  (Some ∅)
    = (Normal tt, Some store')
    /\ AudioChunks.getAudioChunks 7 (Some store')
       = (Normal [Example.payload 3; Example.payload 5],
          Some store')
    /\ forall other, other <> 7%Z ->
         (AudioChunks.getAudioChunks other (Some store')).1
         = (AudioChunks.getAudioChunks other (Some ∅)).1.
Proof.
  apply (saved_fragments_are_read_back 7
           [Example.payload 3; Example.payload 5] ∅).
  intros i _. apply lookup_empty.
Defined.

(** X6. [clearAudioChunks] removes every fragment that [getAudioChunks] returns
    for the recording and changes nothing of what it returns for any other
    recording. *)
Theorem clearAudioChunks_clears_one_recording (recordingId : Z)
    (store : gmap (Z * Z) Blob) :
  let st' := (AudioChunks.clearAudioChunks recordingId (Some store)).2 in
  (AudioChunks.clearAudioChunks recordingId (Some store)).1 = Normal tt
  /\ (AudioChunks.getAudioChunks recordingId st').1 = Normal []
  /\ forall other, other <> recordingId ->
       (AudioChunks.getAudioChunks other st').1
       = (AudioChunks.getAudioChunks other (Some store)).1.
Proof.
  cbn [AudioChunks.clearAudioChunks AudioChunks.getAudioChunks fst snd].
  split; [reflexivity|]. split.
  - rewrite sortedRecords_nil; [reflexivity|].
    intros i Hi. apply map_lookup_filter_None. right. intros chunk _.
    unfold AudioChunks.inRange. cbn [fst snd]. rewrite Z.eqb_refl.
    replace (0 <=? i)%Z with true by (symmetry; lia). done.
  - intros other Hother. do 2 f_equal. apply sortedRecords_ext.
    intros [r i] Hin. unfold AudioChunks.inRange in Hin.
    cbn [fst snd] in Hin. apply andb_true_iff in Hin as [->%Z.eqb_eq _].
    destruct (store !! (other, i)) as [chunk|] eqn:Hlook.
    + apply map_lookup_filter_Some. split; [exact Hlook|].
      unfold AudioChunks.inRange. cbn [fst snd].
      by replace (other =? recordingId)%Z with false by (symmetry; lia).
    + apply map_lookup_filter_None. by left.
Qed.

Lemma clearAudioChunks_clears_one_recording_witness :
  let store : gmap (Z * Z) Blob :=
    {[ (7%Z, 0%Z) := Example.payload 3; (7%Z, 1%Z) := Example.payload 5;
       (9%Z, 0%Z) := Example.payload 4 ]} in
  let st' := (AudioChunks.clearAudioChunks 7 (Some store)).2 in
  (AudioChunks.getAudioChunks 7 st').1 = Normal []
  /\ (AudioChunks.getAudioChunks 9 st').1 = Normal [Example.payload 4].
Proof.
  intros store st'.
  destruct (clearAudioChunks_clears_one_recording 7 store)
    as (_ & Hcleared & Hothers).
  split; [exact Hcleared|].
  unfold st'. rewrite (Hothers 9%Z) by discriminate.
  vm_compute. reflexivity.
Defined.

(* ===================================================================== *)
(** * The transcription call: requests and errors                         *)
(* ===================================================================== *)

(** X7. Whatever the service does, [transcribeAudio] makes one request to
    gemini-flash-lite-latest and at most one more, to gemini-2.5-pro with
    the same audio and prompt; it leaves the database and the user
    interface as they are; and everything it throws is an [Error] whose
    message either starts with ["Error transcribing audio: "] or is
    ["An unknown error occurred during transcription."]. *)
Theorem transcribeAudio_requests_and_errors (w : World) (audioBlob : Blob)
    (mimeType prompt : jsstring) :
  let contents :=
    AudioAndText (JS.splitFirst semicolon mimeType) (Blob.bytes audioBlob)
                 prompt in
  let fast := mkRequest (JS.lit "gemini-flash-lite-latest") contents in
  let strong := mkRequest (JS.lit "gemini-2.5-pro") contents in
  let run := transcribeAudio audioBlob mimeType prompt w in
  (calls run.2 = calls w ++ [fast] \/ calls run.2 = calls w ++ [fast; strong])
  /\ db run.2 = db w /\ ui run.2 = ui w
  /\ forall e, run.1 = Throw e ->
       exists message,
         e = ErrorObj message
         /\ (JS.isPrefix (JS.lit "Error transcribing audio: ") message = true
             \/ message
                = JS.lit "An unknown error occurred during transcription.").
Proof.
  intros contents fast strong run. unfold run.
  rewrite transcribeAudio_unfold.
  fold contents. fold fast. fold strong.
  assert (Hwrap : forall e0 e, Throw (A := jsstring) (transcriptionError e0)
                               = Throw e ->
    exists message,
      e = ErrorObj message
      /\ (JS.isPrefix (JS.lit "Error transcribing audio: ") message = true
          \/ message
             = JS.lit "An unknown error occurred during transcription.")).
  { intros e0 e [= <-]. destruct e0 as [m|v]; cbn [transcriptionError].
    - exists (JS.lit "Error transcribing audio: " ++ m).
      split; [reflexivity|]. left. reflexivity.
    - eexists. split; [reflexivity|]. right. reflexivity. }
  destruct (settledWithin (remote w (length (calls w)) fast) 60000)
    as [[text|e0]|].
  - cbn. repeat split; [by left|discriminate].
  - destruct (looksTimedOut e0).
    + cbn [fst snd calls db ui set_calls]. repeat split; [by right|].
      destruct (settledWithin _ 120000) as [[text'|e']|];
        [discriminate | apply Hwrap | apply Hwrap].
    + cbn [fst snd calls db ui set_calls]. repeat split; [by left|].
      apply Hwrap.
  - cbn [fst snd calls db ui set_calls]. repeat split; [by right|].
    destruct (settledWithin _ 120000) as [[text'|e']|];
      [discriminate | apply Hwrap | apply Hwrap].
Qed.

(** A first attempt rejected with ["quota"]: one request, and the error
    thrown carries the prefix. *)
Lemma transcribeAudio_requests_and_errors_witness :
  let w := Example.world ∅ Example.initialUI (Example.failingAt 0) in
  let run :=
    transcribeAudio (Example.payload 3) (JS.lit "audio/webm")
                    (JS.lit "Transcribe the audio.") w in
  length (calls run.2) = 1
  /\ exists message,
       run.1 = Throw (ErrorObj message)
       /\ JS.isPrefix (JS.lit "Error transcribing audio: ") message = true.
Proof.
  intros w run.
  destruct (transcribeAudio_requests_and_errors w (Example.payload 3)
              (JS.lit "audio/webm") (JS.lit "Transcribe the audio."))
    as (_ & _ & _ & Hthrown).
  split; [vm_compute; reflexivity|].
  destruct (Hthrown (ErrorObj (JS.lit "Error transcribing audio: quota")))
    as (message & Heq & Hshape).
  - vm_compute. reflexivity.
  - exists message. split.
    + rewrite <- Heq. vm_compute. reflexivity.
    + destruct Hshape as [Hprefix| ->]; [exact Hprefix|].
      injection Heq as Heq. vm_compute in Heq. discriminate.
Defined.

(* ===================================================================== *)
(** * The pipeline: how a run ends                                        *)
(* ===================================================================== *)

Lemma tryFinally_release {A} (m : M A) (w : World) :
  let run := tryFinally m (setIsTranscribing false ;;
                           setTranscriptionStatus []) w in
  isTranscribing (ui run.2) = false /\ transcriptionStatus (ui run.2) = [].
Proof.
  unfold tryFinally. destruct (m w) as [c w']. split; reflexivity.
Qed.

(** X8. However a run of [processRecording] goes (recording missing, cached,
    transcribed, failed, or an exception escaping from its handler), the
    application is not left busy: at the end [isTranscribing] is false and
    the status line is empty. *)
Theorem processRecording_releases_busy_state (limits : Limits) (w : World)
    (id : Z) :
  let run := processRecording limits id w in
  isTranscribing (ui run.2) = false /\ transcriptionStatus (ui run.2) = [].
Proof.
  unfold processRecording. unfold_setters. do 7 run1.
  apply tryFinally_release.
Qed.

(** X9. A run of [processRecording] for an id that the database does not hold
    makes no remote call and writes nothing; it completes normally with
    the error line set: ["Processing failed: Recording not found in
    database.. ..."] when the database is open, ["Processing failed:
    undefined. ..."] when it is not. The id stays the active one and no
    piece is shown. *)
Theorem processRecording_missing_recording (limits : Limits) (w : World)
    (id : Z)
    (Hmissing : storedRecording w id = None) :
  let run := processRecording limits id w in
  let reason :=
    match db w with
    | Some _ => JS.lit "Recording not found in database."
    | None => JS.lit "undefined"
    end in
  run.1 = Normal tt
  /\ calls run.2 = calls w
  /\ db run.2 = db w
  /\ error (ui run.2)
     = Some (JS.lit "Processing failed: " ++ reason
             ++ JS.lit ". The file might be too large or in an unsupported format.")
  /\ transcriptChunks (ui run.2) = []
  /\ activeRecordingId (ui run.2) = Some id
  /\ isTranscribing (ui run.2) = false.
Proof.
  destruct w as [d u s l c]. unfold storedRecording in Hmissing.
  cbn [db] in Hmissing |- *.
  unfold processRecording, tryFinally, bind, settle, getRecording.
  unfold_setters. cbn [db ui remote calls now].
  destruct d as [store|].
  - rewrite Hmissing. unfold processFailed, bind. unfold_setters.
    cbn [db ui remote calls now fst snd]. repeat split; reflexivity.
  - unfold processFailed, bind. unfold_setters.
    cbn [db ui remote calls now fst snd]. repeat split; reflexivity.
Qed.

Lemma processRecording_missing_recording_witness :
  let w := Example.world (Example.store 4 RS_new []) Example.initialUI
                         Example.alwaysOk in
  let run := processRecording Example.limits 8 w in
  run.1 = Normal tt
  /\ calls run.2 = calls w
  /\ db run.2 = db w
  /\ error (ui run.2)
     = Some (JS.lit "Processing failed: Recording not found in database.. The file might be too large or in an unsupported format.")
  /\ transcriptChunks (ui run.2) = []
  /\ activeRecordingId (ui run.2) = Some 8%Z
  /\ isTranscribing (ui run.2) = false.
Proof.
  apply (processRecording_missing_recording Example.limits
           (Example.world (Example.store 4 RS_new []) Example.initialUI
                          Example.alwaysOk) 8).
  vm_compute. reflexivity.
Defined.

(* ===================================================================== *)
(** * Retrying one piece: the other outcomes                              *)
(* ===================================================================== *)

Lemma tryFinally_release_load {A} (m : M A) (w : World) :
  let run := tryFinally m (setIsTranscribing false ;;
                           setTranscriptionStatus [] ;;
                           loadRecordings) w in
  isTranscribing (ui run.2) = false /\ transcriptionStatus (ui run.2) = [].
Proof.
  unfold tryFinally. destruct (m w) as [c [d u s l clock]].
  unfold_setters. do 2 run1.
  unfold loadRecordings, tryCatch, bind, getAllRecordingsMetadata.
  unfold_setters. cbn [db ui remote calls now].
  destruct d; split; reflexivity.
Qed.

(** X15. [handleRetryChunkTranscription] does nothing at all when no recording
    is active ([activeRecordingId] is [null] or [0]); otherwise, however
    the retry goes, the application is not left busy: [isTranscribing] is
    false and the status line is empty at the end. *)
Theorem handleRetryChunkTranscription_idle_or_released (limits : Limits)
    (w : World) (chunkIndex : Z) :
  let run := handleRetryChunkTranscription limits chunkIndex w in
  match truthyId (activeRecordingId (ui w)) with
  | None => run = (Normal tt, w)
  | Some _ =>
      isTranscribing (ui run.2) = false /\ transcriptionStatus (ui run.2) = []
  end.
Proof.
  intros run.
  destruct (truthyId (activeRecordingId (ui w))) as [id|] eqn:Hactive.
  - assert (Hrun : exists (m : M unit) w',
      run = tryFinally m (setIsTranscribing false ;;
                          setTranscriptionStatus [] ;;
                          loadRecordings) w').
    { unfold run, handleRetryChunkTranscription.
      unfold getUI, setError, setIsTranscribing at 1,
        setTranscriptionStatus at 1, modifyUI, set_ui.
      run1. rewrite Hactive. do 3 run1. eexists _, _. reflexivity. }
    destruct Hrun as (m & w' & ->). apply tryFinally_release_load.
  - unfold run, handleRetryChunkTranscription, getUI. run1.
    by rewrite Hactive.
Qed.

(** One retry, whatever the outcome of its transcription call. *)
Lemma handleRetryChunkTranscription_run (limits : Limits)
    (d : option (gmap Z Recording)) (u : UIState)
    (s : nat -> GenerateContentRequest -> RemoteBehaviour)
    (l : list GenerateContentRequest) (c : Z) (id : Z) (r : Recording)
    (j : nat) (outcome : Completion jsstring) :
  storedIn d id r ->
  activeRecordingId u = Some id ->
  id <> 0%Z ->
  indexed (transcriptChunks u) ->
  j < length (transcriptChunks u) ->
  (transcribeAudio (retryBlobToSend limits (Recording.blob r) (Z.of_nat j))
     (JS.splitFirst semicolon (Blob.type (Recording.blob r)))
     (buildTranscriptionPromptWithVocabulary u) (mkWorld d u s l c)).1
  = outcome ->
  let pieces := <[j := pieceOf j outcome]> (transcriptChunks u) in
  exists d' u' l',
    handleRetryChunkTranscription limits (Z.of_nat j) (mkWorld d u s l c)
    = (Normal tt, mkWorld d' u' s l' c)
    /\ storedIn d' id
         (spread r (Updates.withTranscriptChunks pieces Updates.none))
    /\ transcriptChunks u' = pieces
    /\ error u'
       = match outcome with
         | Normal _ => None
         | Throw e =>
             Some (JS.lit "Failed to retry chunk: " ++ interpolate (message e))
         end.
Proof.
  intros Hstored Hactive Hid Hix Hj Hcall pieces.
  destruct (lookup_lt_is_Some_2 _ j Hj) as [cj Hcj].
  pose proof (Hix j cj Hcj) as Hindex.
  unfold handleRetryChunkTranscription. unfold_setters.
  run1. rewrite Hactive, (truthyId_nonzero id Hid).
  do 3 run1. unfold tryFinally, tryCatch. run1.
  match goal with
  | |- context [getRecording id (mkWorld d ?u1 s ?l1 c)] =>
      rewrite (getRecording_stored d u1 s l1 c id r Hstored)
  end.
  run1.
  change (if (0 <? Z.of_nat j)%Z
             && (MAX_CHUNK_SIZE_BYTES limits <? Blob.size (Recording.blob r))%Z
          then _ else _)
    with (retryBlobToSend limits (Recording.blob r) (Z.of_nat j)).
  run1.
  match goal with
  | |- context [transcribeAudio ?b ?m ?p (mkWorld d ?u1 s l c)] =>
      rewrite (transcribeAudio_elsewhere b m p d d u1 u s l c)
  end.
  rewrite Hcall.
  destruct outcome as [text|e]; cbn [db ui remote calls now fst snd].
  - run1. run1.
    match goal with
    | |- context [updateRecording id ?upd (mkWorld d ?u1 s ?l1 c)] =>
        destruct (updateRecording_stored d u1 s l1 c id upd _ Hstored)
          as (d1 & -> & Hstored1)
    end.
    cbn [db ui remote calls now]. run1. run1.
    match goal with
    | |- context [loadRecordings (mkWorld d1 ?u1 s ?l1 c)] =>
        destruct (loadRecordings_stored d1 u1 s l1 c id _ Hstored1)
          as (saved & ->)
    end.
    assert (Hmaps :
      List.map
        (fun c0 => if (TranscriptChunk.index c0 =? Z.of_nat j)%Z
                   then TranscriptChunk.withContentStatus c0 (JS.trim text)
                          CS_completed
                   else c0)
        (List.map
           (fun c0 => if (TranscriptChunk.index c0 =? Z.of_nat j)%Z
                      then TranscriptChunk.withStatus c0 CS_processing
                      else c0)
           (transcriptChunks u))
      = pieces).
    { rewrite (map_at_index _ (transcriptChunks u) j Hix).
      rewrite (alter_as_insert _ _ _ _ Hcj).
      rewrite map_at_index
        by (apply indexed_insert; [exact Hix | exact Hindex]).
      rewrite (alter_as_insert _ _ j
                 (TranscriptChunk.withStatus cj CS_processing))
        by (apply list_lookup_insert_eq; exact Hj).
      rewrite list_insert_insert_eq. unfold pieces, pieceOf.
      unfold TranscriptChunk.withContentStatus, TranscriptChunk.withStatus.
      cbn. by rewrite Hindex. }
    rewrite Hmaps in Hstored1.
    eexists _, _, _. split; [reflexivity|].
    split; [exact Hstored1|].
    cbn. rewrite Hmaps. split; reflexivity.
  - run1. run1.
    match goal with
    | |- context [updateRecording id ?upd (mkWorld d ?u1 s ?l1 c)] =>
        destruct (updateRecording_stored d u1 s l1 c id upd _ Hstored)
          as (d1 & -> & Hstored1)
    end.
    cbn [db ui remote calls now]. run1. run1.
    match goal with
    | |- context [loadRecordings (mkWorld d1 ?u1 s ?l1 c)] =>
        destruct (loadRecordings_stored d1 u1 s l1 c id _ Hstored1)
          as (saved & ->)
    end.
    assert (Hmap :
      List.map
        (fun c0 => if (TranscriptChunk.index c0 =? Z.of_nat j)%Z
                   then TranscriptChunk.withContentStatus c0 (errorMessageOf e)
                          CS_failed
                   else c0)
        (transcriptChunks u)
      = pieces).
    { rewrite (map_at_index _ (transcriptChunks u) j Hix).
      rewrite (alter_as_insert _ _ _ _ Hcj). unfold pieces, pieceOf.
      unfold TranscriptChunk.withContentStatus. cbn. by rewrite Hindex. }
    rewrite Hmap in Hstored1.
    eexists _, _, _. split; [reflexivity|].
    split; [exact Hstored1|].
    cbn. rewrite Hmap. split; reflexivity.
Qed.

(** X16. A retry whose transcription call fails with [e] marks that piece
    [failed] with the message of [e] and leaves the other pieces; the
    pieces are shown and stored, status and progress of the recording are
    kept, the error line reads ["Failed to retry chunk: ..."], and the
    handler completes normally. This holds for a recording of one piece
    as for one of several pieces; what is submitted is the blob the
    handler cuts for the piece. *)
Theorem handleRetryChunkTranscription_failure (limits : Limits) (w : World)
    (id : Z) (r : Recording) (j : nat) (e : JsThrown)
    (Hstored : storedIn (db w) id r)
    (Hactive : activeRecordingId (ui w) = Some id)
    (Hid : id <> 0%Z)
    (Hindexed : indexed (transcriptChunks (ui w)))
    (Hj : j < length (transcriptChunks (ui w)))
    (Hcall :
       (transcribeAudio
          (retryBlobToSend limits (Recording.blob r) (Z.of_nat j))
          (JS.splitFirst semicolon (Blob.type (Recording.blob r)))
          (buildTranscriptionPromptWithVocabulary (ui w)) w).1 = Throw e) :
  let pieces :=
    <[j := TranscriptChunk.mk (Z.of_nat j) (errorMessageOf e) CS_failed]>
      (transcriptChunks (ui w)) in
  let run := handleRetryChunkTranscription limits (Z.of_nat j) w in
  run.1 = Normal tt
  /\ transcriptChunks (ui run.2) = pieces
  /\ (exists r', storedIn (db run.2) id r'
                 /\ Recording.transcriptChunks r' = pieces
                 /\ Recording.status r' = Recording.status r
                 /\ Recording.progress r' = Recording.progress r)
  /\ error (ui run.2)
     = Some (JS.lit "Failed to retry chunk: " ++ errorMessageOf e)
  /\ (forall k, k <> j -> pieces !! k = transcriptChunks (ui w) !! k).
Proof.
  intros pieces run. unfold run.
  destruct w as [d u s l c]. cbn [db ui] in *.
  pose proof (transcribeAudio_throws_Error _ _ _ _ _ Hcall) as Herror.
  destruct (handleRetryChunkTranscription_run limits d u s l c id r j
              (Throw e) Hstored Hactive Hid Hindexed Hj Hcall)
    as (d' & u' & l' & -> & Hstored' & Hui & Herr).
  cbn [fst snd db ui]. split; [reflexivity|]. split; [exact Hui|].
  split; [eexists; split; [exact Hstored'|]; by repeat split|].
  split.
  - rewrite Herr. destruct e as [m|v]; [reflexivity | discriminate].
  - intros k Hk. unfold pieces. by rewrite list_lookup_insert_ne.
Qed.

(** A recording of one piece whose retry is rejected with ["quota"], and
    the second piece of a recording of three pieces. *)
Lemma handleRetryChunkTranscription_failure_witness :
  (let pieces := [Example.failedChunk 0 "old"] in
   let w := Example.world (Example.store 5 RS_failed pieces)
                          (Example.showing pieces) (Example.failingAt 0) in
   let run := handleRetryChunkTranscription Example.limits 0 w in
   run.1 = Normal tt
   /\ transcriptChunks (ui run.2)
      = [Example.failedChunk 0 "Error transcribing audio: quota"]
   /\ error (ui run.2)
      = Some (JS.lit "Failed to retry chunk: Error transcribing audio: quota"))
  /\ (let pieces :=
        [Example.completedChunk 0 "ok"; Example.failedChunk 1 "old";
         Example.completedChunk 2 "ok"] in
      let w := Example.world (Example.store 20 RS_failed pieces)
                             (Example.showing pieces) (Example.failingAt 0) in
      let run := handleRetryChunkTranscription Example.limits 1 w in
      run.1 = Normal tt
      /\ transcriptChunks (ui run.2)
         = [Example.completedChunk 0 "ok";
            Example.failedChunk 1 "Error transcribing audio: quota";
            Example.completedChunk 2 "ok"]).
Proof.
  split.
  - intros pieces w run.
    destruct (handleRetryChunkTranscription_failure Example.limits w 7
                (Example.recording 5 RS_failed pieces) 0
                (ErrorObj (JS.lit "Error transcribing audio: quota")))
      as (Hnormal & Hui & _ & Herror & _).
    + eexists. split; [reflexivity|]. split; vm_compute; reflexivity.
    + reflexivity.
    + discriminate.
    + intros k c. destruct k as [|k]; vm_compute; intros [= <-];
        reflexivity.
    + vm_compute. lia.
    + vm_compute. reflexivity.
    + change (Z.of_nat 0) with 0%Z in *. fold run in Hnormal, Hui, Herror.
      split; [exact Hnormal|]. split.
      * rewrite Hui. vm_compute. reflexivity.
      * rewrite Herror. vm_compute. reflexivity.
  - intros pieces w run.
    destruct (handleRetryChunkTranscription_failure Example.limits w 7
                (Example.recording 20 RS_failed pieces) 1
                (ErrorObj (JS.lit "Error transcribing audio: quota")))
      as (Hnormal & Hui & _).
    + eexists. split; [reflexivity|]. split; vm_compute; reflexivity.
    + reflexivity.
    + discriminate.
    + intros k c. destruct k as [|[|[|k]]]; vm_compute; intros [= <-];
        reflexivity.
    + vm_compute. lia.
    + vm_compute. reflexivity.
    + change (Z.of_nat 1) with 1%Z in *. fold run in Hnormal, Hui.
      split; [exact Hnormal|]. rewrite Hui. vm_compute. reflexivity.
Defined.

(** X17. A retry that succeeds stores the new piece and nothing else of
    the recording: the status and the progress of the recording stay what
    the run left, so a recording that ended [failed] stays [failed] even
    when the retried piece was the only one that had failed. This holds
    for a recording of one piece as for one of several pieces. *)
Theorem handleRetryChunkTranscription_keeps_status (limits : Limits)
    (w : World) (id : Z) (r : Recording) (j : nat) (text : jsstring)
    (Hstored : storedIn (db w) id r)
    (Hactive : activeRecordingId (ui w) = Some id)
    (Hid : id <> 0%Z)
    (Hindexed : indexed (transcriptChunks (ui w)))
    (Hj : j < length (transcriptChunks (ui w)))
    (Hcall :
       (transcribeAudio
          (retryBlobToSend limits (Recording.blob r) (Z.of_nat j))
          (JS.splitFirst semicolon (Blob.type (Recording.blob r)))
          (buildTranscriptionPromptWithVocabulary (ui w)) w).1 = Normal text) :
  let run := handleRetryChunkTranscription limits (Z.of_nat j) w in
  exists r',
    storedIn (db run.2) id r'
    /\ Recording.status r' = Recording.status r
    /\ Recording.progress r' = Recording.progress r
    /\ Recording.transcriptChunks r'
       = <[j := TranscriptChunk.mk (Z.of_nat j) (JS.trim text) CS_completed]>
           (transcriptChunks (ui w)).
Proof.
  intros run. unfold run. destruct w as [d u s l c]. cbn [db ui] in *.
  destruct (handleRetryChunkTranscription_run limits d u s l c id r j
              (Normal text) Hstored Hactive Hid Hindexed Hj Hcall)
    as (d' & u' & l' & -> & Hstored' & _).
  eexists. cbn [snd db]. split; [exact Hstored'|]. by repeat split.
Qed.

(** A recording of one piece that ended [failed]: the retry of its piece
    succeeds, every piece is completed, and the recording is still stored
    as [failed]. The same for the second piece of a recording of three
    pieces. *)
Lemma handleRetryChunkTranscription_keeps_status_witness :
  (let pieces := [Example.failedChunk 0 "old"] in
   let w := Example.world (Example.store 5 RS_failed pieces)
                          (Example.showing pieces) Example.alwaysOk in
   let run := handleRetryChunkTranscription Example.limits 0 w in
   exists r',
     storedIn (db run.2) 7 r'
     /\ Recording.status r' = RS_failed
     /\ Recording.transcriptChunks r' = [Example.completedChunk 0 "ok"])
  /\ (let pieces :=
        [Example.completedChunk 0 "ok"; Example.failedChunk 1 "old";
         Example.completedChunk 2 "ok"] in
      let w := Example.world (Example.store 20 RS_failed pieces)
                             (Example.showing pieces) Example.alwaysOk in
      let run := handleRetryChunkTranscription Example.limits 1 w in
      exists r',
        storedIn (db run.2) 7 r'
        /\ Recording.status r' = RS_failed
        /\ forallb isCompleted (Recording.transcriptChunks r') = true).
Proof.
  split.
  - intros pieces w run.
    destruct (handleRetryChunkTranscription_keeps_status Example.limits w 7
                (Example.recording 5 RS_failed pieces) 0 (JS.lit " ok "))
      as (r' & Hstored & Hstatus & _ & Hchunks).
    + eexists. split; [reflexivity|]. split; vm_compute; reflexivity.
    + reflexivity.
    + discriminate.
    + intros k c. destruct k as [|k]; vm_compute; intros [= <-];
        reflexivity.
    + vm_compute. lia.
    + vm_compute. reflexivity.
    + exists r'. change (Z.of_nat 0) with 0%Z in *. fold run in Hstored.
      split; [exact Hstored|]. split.
      * rewrite Hstatus. reflexivity.
      * rewrite Hchunks. vm_compute. reflexivity.
  - intros pieces w run.
    destruct (handleRetryChunkTranscription_keeps_status Example.limits w 7
                (Example.recording 20 RS_failed pieces) 1 (JS.lit " ok "))
      as (r' & Hstored & Hstatus & _ & Hchunks).
    + eexists. split; [reflexivity|]. split; vm_compute; reflexivity.
    + reflexivity.
    + discriminate.
    + intros k c. destruct k as [|[|[|k]]]; vm_compute; intros [= <-];
        reflexivity.
    + vm_compute. lia.
    + vm_compute. reflexivity.
    + exists r'. change (Z.of_nat 1) with 1%Z in *. fold run in Hstored.
      split; [exact Hstored|]. split.
      * rewrite Hstatus. reflexivity.
      * rewrite Hchunks. vm_compute. reflexivity.
Defined.

(* ===================================================================== *)
(** * The notes stage: refusals and what is stored                        *)
(* ===================================================================== *)

(** X18. [handleGenerateNotes] makes no remote call and writes nothing to the
    database in three cases. When the joined transcript is the empty
    string, it only sets the error line to
    ["There is no transcript to process."]. When the joined transcript is
    not empty but blank (two empty pieces join to one space), or when the
    instruction is blank, the notes shown are cleared and the error line
    is the refusal of [formatNotes]: ["Transcription is empty."],
    respectively ["Custom instruction is empty."]. *)
Theorem handleGenerateNotes_refusals (w : World) :
  let fullTranscript :=
    JS.join space (List.map TranscriptChunk.content (transcriptChunks (ui w)))
  in
  let run := handleGenerateNotes w in
  (fullTranscript = [] ->
     run = (Normal tt,
            set_ui (with_error
                      (Some (JS.lit "There is no transcript to process."))
                      (ui w)) w))
  /\ (fullTranscript <> [] -> JS.trim fullTranscript = [] ->
        run = (Normal tt,
               set_ui (with_isGenerating false
                         (with_error (Some (JS.lit "Transcription is empty."))
                            (with_generatedNotes [] (ui w)))) w))
  /\ (JS.trim fullTranscript <> [] -> JS.trim (instruction (ui w)) = [] ->
        run = (Normal tt,
               set_ui (with_isGenerating false
                         (with_error
                            (Some (JS.lit "Custom instruction is empty."))
                            (with_generatedNotes [] (ui w)))) w)).
Proof.
  intros fullTranscript run. destruct w as [d u s l c].
  cbn [db ui remote calls now] in *.
  assert (Hrun : run
    = if negb (JS.truthy fullTranscript) then
        (Normal tt,
         mkWorld d (with_error
                      (Some (JS.lit "There is no transcript to process.")) u)
                 s l c)
      else
        tryFinally
          (tryCatch
             (let* notes :=
                formatNotes fullTranscript (instruction u) (selectedModel u) in
              setGeneratedNotes notes ;;
              match truthyId (activeRecordingId u) with
              | Some activeRecordingId =>
                  updateRecording activeRecordingId
                    (Updates.withFormattedNotes (Some notes) Updates.none) ;;
                  loadRecordings
              | None => ret tt
              end)
             (fun e => setError (message e)))
          (setIsGenerating false)
          (mkWorld d
             (with_generatedNotes []
                (with_error None (with_isGenerating true u))) s l c)).
  { unfold run, handleGenerateNotes. unfold getUI. run1.
    fold fullTranscript. destruct (JS.truthy fullTranscript); reflexivity. }
  rewrite Hrun. clear Hrun run.
  split; [|split].
  - intros ->. reflexivity.
  - intros Hfull Hblank.
    destruct fullTranscript as [|c0 t0] eqn:Heq; [done|].
    cbn [JS.truthy negb]. unfold tryFinally, tryCatch, formatNotes.
    run1. rewrite Hblank. cbn [JS.truthy negb]. unfold throw.
    unfold_setters. cbn [db ui remote calls now message]. reflexivity.
  - intros Hfull Hblank.
    destruct fullTranscript as [|c0 t0] eqn:Heq; [by destruct Hfull|].
    cbn [JS.truthy negb]. unfold tryFinally, tryCatch, formatNotes.
    run1.
    destruct (JS.trim (c0 :: t0)) as [|c1 t1] eqn:Htrim; [done|].
    rewrite Hblank. cbn [JS.truthy negb]. unfold throw.
    unfold_setters. cbn [db ui remote calls now message]. reflexivity.
Qed.

Lemma handleGenerateNotes_refusals_witness :
  (handleGenerateNotes
     (Example.world ∅ (Example.showing []) Example.alwaysOk)
   = (Normal tt,
      Example.world ∅
        (with_error (Some (JS.lit "There is no transcript to process."))
                    (Example.showing []))
        Example.alwaysOk))
  /\ (let blank :=
        Example.showing [Example.completedChunk 0 "";
                         Example.completedChunk 1 ""] in
      handleGenerateNotes (Example.world ∅ blank Example.alwaysOk)
      = (Normal tt,
         Example.world ∅
           (with_isGenerating false
              (with_error (Some (JS.lit "Transcription is empty."))
                 (with_generatedNotes [] blank)))
           Example.alwaysOk))
  /\ (let noInstruction :=
        with_instruction (JS.lit "  ")
          (Example.showing [Example.completedChunk 0 "hello"]) in
      handleGenerateNotes (Example.world ∅ noInstruction Example.alwaysOk)
      = (Normal tt,
         Example.world ∅
           (with_isGenerating false
              (with_error (Some (JS.lit "Custom instruction is empty."))
                 (with_generatedNotes [] noInstruction)))
           Example.alwaysOk)).
Proof.
  split; [|split].
  - apply (proj1 (handleGenerateNotes_refusals
                    (Example.world ∅ (Example.showing []) Example.alwaysOk))).
    vm_compute. reflexivity.
  - intros blank.
    apply (proj1 (proj2 (handleGenerateNotes_refusals
                           (Example.world ∅ blank Example.alwaysOk)))).
    + vm_compute. discriminate.
    + vm_compute. reflexivity.
  - intros noInstruction.
    apply (proj2 (proj2 (handleGenerateNotes_refusals
                           (Example.world ∅ noInstruction Example.alwaysOk)))).
    + vm_compute. discriminate.
    + vm_compute. reflexivity.
Defined.

(** X19. With a transcript and an instruction that are not blank and an active
    recording that is stored, [handleGenerateNotes] shows what
    [formatNotes] returned and stores it as the notes of the recording,
    whatever it is: the text of the response, or the description of the
    error when the service rejected the call or did not answer within
    120000ms (an answer after exactly 120000ms is in time). In all three
    cases the handler completes normally, the
    error line is empty and [isGenerating] is false again; the pieces of
    the recording are not touched. *)
Theorem handleGenerateNotes_stores_outcome (w : World) (id : Z)
    (r : Recording)
    (Hstored : storedIn (db w) id r)
    (Hactive : activeRecordingId (ui w) = Some id)
    (Hid : id <> 0%Z) :
  let fullTranscript :=
    JS.join space (List.map TranscriptChunk.content (transcriptChunks (ui w)))
  in
  let request :=
    mkRequest (selectedModel (ui w))
      (TextOnly (formatPrompt (instruction (ui w)) fullTranscript)) in
  let notes :=
    match settledWithin (remote w (length (calls w)) request) 120000 with
    | Some (Fulfilled text) => default [] text
    | Some (Rejected e) => formattingErrorText e
    | None =>
        formattingErrorText
          (ErrorObj (JS.lit "Formatting notes request timed out after 120 seconds."))
    end in
  let run := handleGenerateNotes w in
  JS.trim fullTranscript <> [] ->
  JS.trim (instruction (ui w)) <> [] ->
  run.1 = Normal tt
  /\ generatedNotes (ui run.2) = notes
  /\ error (ui run.2) = None
  /\ isGenerating (ui run.2) = false
  /\ exists r',
       storedIn (db run.2) id r'
       /\ Recording.formattedNotes r' = Some notes
       /\ Recording.transcriptChunks r' = Recording.transcriptChunks r
       /\ Recording.status r' = Recording.status r.
Proof.
  intros fullTranscript request notes run Htranscript Hinstruction.
  destruct w as [d u s l c]. cbn [db ui remote calls now] in *.
  assert (Hrun : exists d' u' l' r',
    run = (Normal tt, mkWorld d' u' s l' c)
    /\ generatedNotes u' = notes /\ error u' = None
    /\ isGenerating u' = false
    /\ storedIn d' id r'
    /\ r' = spread r (Updates.withFormattedNotes (Some notes) Updates.none)).
  { unfold run, handleGenerateNotes. unfold_setters. run1.
    fold fullTranscript.
    destruct fullTranscript as [|c0 t0] eqn:Hfull; [by destruct Htranscript|].
    cbn [JS.truthy negb]. rewrite <- Hfull in *.
    do 3 run1. unfold tryFinally, tryCatch. run1.
    match goal with
    | |- context [formatNotes fullTranscript ?i ?m ?w0] =>
        rewrite (formatNotes_calls w0 fullTranscript i m Htranscript
                   Hinstruction)
    end.
    cbn [db ui remote calls now set_calls].
    assert (Hout : exists outcome,
      outcome
      = settledWithin
          (s (length l)
             (mkRequest (selectedModel u)
                (TextOnly (formatPrompt (instruction u) fullTranscript))))
          120000
      /\ match outcome with
         | Some (Fulfilled text) => Normal (default [] text)
         | Some (Rejected e) => Normal (formattingErrorText e)
         | None =>
             Normal (formattingErrorText
                       (ErrorObj (JS.lit "Formatting notes request timed out after 120 seconds.")))
         end = Normal (A := jsstring) notes).
    { eexists. split; [reflexivity|]. unfold notes.
      rewrite Hfull.
      by destruct (settledWithin _ 120000) as [[text|e]|]. }
    destruct Hout as (outcome & Houtcome & Hout). rewrite <- Houtcome.
    rewrite Hout. run1. unfold set_calls. cbn [db ui remote calls now].
    rewrite Hactive, (truthyId_nonzero id Hid). run1.
    match goal with
    | |- context [updateRecording id ?upd (mkWorld d ?u1 s ?l1 c)] =>
        destruct (updateRecording_stored d u1 s l1 c id upd _ Hstored)
          as (d1 & -> & Hstored1)
    end.
    cbn [db ui remote calls now].
    match goal with
    | |- context [loadRecordings (mkWorld d1 ?u1 s ?l1 c)] =>
        destruct (loadRecordings_stored d1 u1 s l1 c id _ Hstored1)
          as (saved & ->)
    end.
    eexists _, _, _, _. split; [reflexivity|].
    cbn. repeat split; try reflexivity. exact Hstored1. }
  destruct Hrun as (d' & u' & l' & r' & -> & Hnotes & Herror & Hbusy
                    & Hstored' & ->).
  cbn [fst snd db ui]. repeat split; try done.
  eexists. split; [exact Hstored'|]. repeat split; reflexivity.
Qed.

(** The service rejects the formatting call with ["quota"]: the
    description of the error becomes the notes of recording 7. The
    service answers after exactly 120000ms: its text becomes the notes. *)
Lemma handleGenerateNotes_stores_outcome_witness :
  (let pieces := [Example.completedChunk 0 "hello"] in
   let w := Example.world (Example.store 5 RS_completed pieces)
                          (Example.showing pieces) (Example.failingAt 0) in
   let run := handleGenerateNotes w in
   let notes :=
     JS.lit "Error formatting notes: quota. Please check the console for more details." in
   run.1 = Normal tt
   /\ generatedNotes (ui run.2) = notes
   /\ error (ui run.2) = None
   /\ exists r', storedIn (db run.2) 7 r'
                 /\ Recording.formattedNotes r' = Some notes)
  /\ (let pieces := [Example.completedChunk 0 "hello"] in
      let w := Example.world (Example.store 5 RS_completed pieces)
                             (Example.showing pieces)
                             (Example.answersAfter 120000) in
      let run := handleGenerateNotes w in
      generatedNotes (ui run.2) = JS.lit " ok "
      /\ exists r', storedIn (db run.2) 7 r'
                    /\ Recording.formattedNotes r' = Some (JS.lit " ok ")).
Proof.
  split.
  - intros pieces w run notes.
    destruct (handleGenerateNotes_stores_outcome w 7
                (Example.recording 5 RS_completed pieces))
      as (Hnormal & Hnotes & Herror & _ & r' & Hstored & Hformatted & _).
    + eexists. split; [reflexivity|]. split; vm_compute; reflexivity.
    + reflexivity.
    + discriminate.
    + vm_compute. discriminate.
    + vm_compute. discriminate.
    + fold run in Hnormal, Hnotes, Herror, Hstored.
      split; [exact Hnormal|].
      split; [rewrite Hnotes; vm_compute; reflexivity|].
      split; [exact Herror|].
      exists r'. split; [exact Hstored|].
      rewrite Hformatted. vm_compute. reflexivity.
  - intros pieces w run.
    destruct (handleGenerateNotes_stores_outcome w 7
                (Example.recording 5 RS_completed pieces))
      as (_ & Hnotes & _ & _ & r' & Hstored & Hformatted & _).
    + eexists. split; [reflexivity|]. split; vm_compute; reflexivity.
    + reflexivity.
    + discriminate.
    + vm_compute. discriminate.
    + vm_compute. discriminate.
    + fold run in Hnotes, Hstored.
      split; [rewrite Hnotes; vm_compute; reflexivity|].
      exists r'. split; [exact Hstored|].
      rewrite Hformatted. vm_compute. reflexivity.
Defined.

(* ===================================================================== *)
(** * A run on a recording of one piece that succeeds                     *)
(* ===================================================================== *)

Lemma processSingle_success (d d0 : option (gmap Z Recording))
    (u u0 : UIState) (s : nat -> GenerateContentRequest -> RemoteBehaviour)
    (l : list GenerateContentRequest) (c : Z) (id : Z) (r : Recording)
    (blob : Blob) (finalPrompt text : jsstring) :
  storedIn d id r ->
  (transcribeAudio blob (JS.splitFirst semicolon (Blob.type blob)) finalPrompt
                   (mkWorld d0 u0 s l c)).1 = Normal text ->
  exists d' u',
    processSingle id blob finalPrompt (mkWorld d u s l c)
    = (Normal tt,
       mkWorld d' u' s
         (calls (transcribeAudio blob (JS.splitFirst semicolon (Blob.type blob))
                   finalPrompt (mkWorld d0 u0 s l c)).2) c)
    /\ storedIn d' id
         (spread (spread r (Updates.withProgress 10 Updates.none))
            (Updates.withTranscriptChunks
               [TranscriptChunk.mk 0 (JS.trim text) CS_completed]
               (Updates.withStatus RS_completed
                  (Updates.withProgress 100 Updates.none))))
    /\ transcriptChunks u' = [TranscriptChunk.mk 0 (JS.trim text) CS_completed]
    /\ error u' = error u
    /\ activeRecordingId u' = activeRecordingId u.
Proof.
  intros Hstored Hcall.
  unfold processSingle. unfold_setters.
  run1. run1.
  destruct (updateRecording_stored d
              (with_transcriptionStatus
                 (JS.lit "Transcribing audio... This may take a few moments.") u)
              s l c id
              (Updates.withProgress 10 Updates.none) r Hstored)
    as (d1 & -> & Hstored1).
  run1.
  match goal with
  | |- context [loadRecordings (mkWorld d1 ?u1 s ?l1 c)] =>
      destruct (loadRecordings_stored d1 u1 s l1 c id _ Hstored1)
        as (saved & ->)
  end.
  run1. unfold tryCatch. run1.
  match goal with
  | |- context [transcribeAudio blob ?m finalPrompt (mkWorld d1 ?u1 s l c)] =>
      rewrite (transcribeAudio_elsewhere blob m finalPrompt d1 d0 u1 u0 s l c)
  end.
  rewrite Hcall.
  run1. run1.
  match goal with
  | |- context [updateRecording id ?upd (mkWorld d1 ?u1 s ?l1 c)] =>
      destruct (updateRecording_stored d1 u1 s l1 c id upd _ Hstored1)
        as (d2 & -> & Hstored2)
  end.
  eexists _, _. split; [reflexivity|]. split; [exact Hstored2|].
  repeat split; reflexivity.
Qed.

Lemma processRecording_single_success (limits : Limits)
    (d d0 : option (gmap Z Recording)) (u u0 : UIState)
    (s : nat -> GenerateContentRequest -> RemoteBehaviour)
    (l : list GenerateContentRequest) (c : Z) (id : Z) (r : Recording)
    (text : jsstring) :
  let blob := Recording.blob r in
  let call :=
    transcribeAudio blob (JS.splitFirst semicolon (Blob.type blob))
      (buildTranscriptionPromptWithVocabulary u) (mkWorld d0 u0 s l c) in
  storedIn d id r ->
  Recording.status r <> RS_completed \/ Recording.transcriptChunks r = [] ->
  (Blob.size blob <= MAX_CHUNK_SIZE_BYTES limits)%Z ->
  call.1 = Normal text ->
  exists d' u' r',
    processRecording limits id (mkWorld d u s l c)
    = (Normal tt, mkWorld d' u' s (calls call.2) c)
    /\ storedIn d' id r'
    /\ Recording.status r' = RS_completed
    /\ Recording.progress r' = 100%Z
    /\ Recording.transcriptChunks r'
       = [TranscriptChunk.mk 0 (JS.trim text) CS_completed]
    /\ Recording.blob r' = blob
    /\ Recording.name r' = Recording.name r
    /\ Recording.size r' = Recording.size r
    /\ Recording.mimeType r' = Recording.mimeType r
    /\ Recording.formattedNotes r' = Recording.formattedNotes r
    /\ transcriptChunks u'
       = [TranscriptChunk.mk 0 (JS.trim text) CS_completed]
    /\ error u' = None
    /\ activeRecordingId u' = Some id
    /\ isTranscribing u' = false.
Proof.
  intros blob call Hstored Hnot Hsize Hcall.
  unfold processRecording. unfold_setters.
  do 7 run1. unfold tryFinally. run1. unfold settle.
  match goal with
  | |- context [getRecording id (mkWorld ?d1 ?u1 s ?l1 c)] =>
      rewrite (getRecording_stored d1 u1 s l1 c id r Hstored)
  end.
  cbn [db ui remote calls now]. unfold tryCatch, processLoaded.
  unfold_setters.
  do 3 run1. rewrite (not_cached r Hnot).
  run1.
  match goal with
  | |- context [updateRecording id ?upd (mkWorld ?d1 ?u1 s ?l1 c)] =>
      destruct (updateRecording_stored d1 u1 s l1 c id upd _ Hstored)
        as (d1' & -> & Hstored1)
  end.
  run1.
  match goal with
  | |- context [loadRecordings (mkWorld d1' ?u1 s ?l1 c)] =>
      destruct (loadRecordings_stored d1' u1 s l1 c id _ Hstored1)
        as (saved & ->)
  end.
  run1.
  fold blob. rewrite (Zle_imp_le_bool _ _ Hsize).
  match goal with
  | |- context [processSingle id blob ?p (mkWorld d1' ?u1 s l c)] =>
      destruct (processSingle_success d1' d0 u1 u0 s l c id _ blob
                  p text Hstored1 Hcall)
        as (d2 & u2 & -> & Hstored2 & Hui2 & Herr2 & Hact2)
  end.
  cbn [db ui remote calls now]. run1.
  match goal with
  | |- context [loadRecordings (mkWorld d2 ?u1 s ?l1 c)] =>
      destruct (loadRecordings_stored d2 u1 s l1 c id _ Hstored2)
        as (saved2 & ->)
  end.
  cbn [db ui remote calls now].
  eexists _, _, _. split; [reflexivity|].
  split; [exact Hstored2|].
  cbn. rewrite Hui2, Herr2, Hact2. repeat split; reflexivity.
Qed.

(** X10. A run on a stored recording that fits in one piece and whose
    transcription call returns [text] ends with the recording stored as
    [completed], progress 100, with the single piece 0 holding the trimmed
    text; name, size, type, payload and notes of the recording are kept.
    The piece is shown, no error is shown, and the only remote calls are
    those of that one transcription. *)
Theorem processRecording_single_piece_success (limits : Limits) (w : World)
    (id : Z) (r : Recording) (text : jsstring)
    (Hstored : storedIn (db w) id r)
    (Hnot : Recording.status r <> RS_completed
            \/ Recording.transcriptChunks r = [])
    (Hsize : (Blob.size (Recording.blob r) <= MAX_CHUNK_SIZE_BYTES limits)%Z)
    (Hcall :
       (transcribeAudio (Recording.blob r)
          (JS.splitFirst semicolon (Blob.type (Recording.blob r)))
          (buildTranscriptionPromptWithVocabulary (ui w)) w).1
       = Normal text) :
  let piece := TranscriptChunk.mk 0 (JS.trim text) CS_completed in
  let run := processRecording limits id w in
  run.1 = Normal tt
  /\ calls run.2
     = calls (transcribeAudio (Recording.blob r)
                (JS.splitFirst semicolon (Blob.type (Recording.blob r)))
                (buildTranscriptionPromptWithVocabulary (ui w)) w).2
  /\ transcriptChunks (ui run.2) = [piece]
  /\ error (ui run.2) = None
  /\ exists r',
       storedIn (db run.2) id r'
       /\ Recording.status r' = RS_completed
       /\ Recording.progress r' = 100%Z
       /\ Recording.transcriptChunks r' = [piece]
       /\ Recording.blob r' = Recording.blob r
       /\ Recording.name r' = Recording.name r
       /\ Recording.formattedNotes r' = Recording.formattedNotes r.
Proof.
  intros piece run. unfold run. destruct w as [d u s l c].
  cbn [db ui] in *.
  destruct (processRecording_single_success limits d d u u s l c id r text
              Hstored Hnot Hsize Hcall)
    as (d' & u' & r' & -> & Hstored' & Hstatus & Hprogress & Hchunks & Hblob
        & Hname & _ & _ & Hnotes & Hui & Herr & _).
  cbn [fst snd db ui calls]. repeat split; try done.
  exists r'. by repeat split.
Qed.

Lemma processRecording_single_piece_success_witness :
  let w := Example.world (Example.store 5 RS_new []) Example.initialUI
                         Example.alwaysOk in
  let run := processRecording Example.limits 7 w in
  run.1 = Normal tt
  /\ length (calls run.2) = 1
  /\ transcriptChunks (ui run.2) = [Example.completedChunk 0 "ok"]
  /\ exists r', storedIn (db run.2) 7 r'
                /\ Recording.status r' = RS_completed
                /\ Recording.progress r' = 100%Z.
Proof.
  intros w run.
  destruct (processRecording_single_piece_success Example.limits w 7
              (Example.recording 5 RS_new []) (JS.lit " ok "))
    as (Hnormal & Hcalls & Hui & _ & r' & Hstored & Hstatus & Hprogress & _).
  - eexists. split; [reflexivity|]. split; vm_compute; reflexivity.
  - right. reflexivity.
  - vm_compute. discriminate.
  - vm_compute. reflexivity.
  - fold run in Hnormal, Hcalls, Hui, Hstored.
    split; [exact Hnormal|].
    split; [rewrite Hcalls; vm_compute; reflexivity|].
    split; [rewrite Hui; vm_compute; reflexivity|].
    exists r'. by repeat split.
Defined.

(* ===================================================================== *)
(** * New recordings and retried recordings                               *)
(* ===================================================================== *)

(** X11. [createAndProcessRecording] takes the clock as the id of the new
    recording. When the database is not open, or already holds a
    recording under that id, nothing is stored or overwritten and no
    remote call is made; the only effect is the error line
    ["Failed to save new recording: undefined"], the rejection of
    [addRecording] being a string, which has no [message]. *)
Theorem createAndProcessRecording_id_taken (limits : Limits) (w : World)
    (blob : Blob) (name : jsstring)
    (Htaken : db w = None \/ storedRecording w (now w) <> None) :
  createAndProcessRecording limits blob name w
  = (Normal tt,
     set_ui (with_error
               (Some (JS.lit "Failed to save new recording: undefined"))
               (ui w)) w).
Proof.
  destruct w as [d u s l c]. unfold storedRecording in Htaken.
  cbn [db now] in Htaken.
  unfold createAndProcessRecording, tryCatch, bind, addRecording.
  unfold_setters. cbn [db ui remote calls now Recording.id].
  destruct d as [store|]; [|reflexivity].
  destruct Htaken as [?|Htaken]; [discriminate|].
  destruct (store !! c) as [r0|]; [reflexivity | done].
Qed.

Lemma createAndProcessRecording_id_taken_witness :
  let w := Example.world {[ 1700000000000%Z := Example.recording 5 RS_new [] ]}
                         Example.initialUI Example.alwaysOk in
  createAndProcessRecording Example.limits (Example.payload 3)
                            (JS.lit "memo.webm") w
  = (Normal tt,
     set_ui (with_error
               (Some (JS.lit "Failed to save new recording: undefined"))
               (ui w)) w).
Proof.
  intros w.
  apply (createAndProcessRecording_id_taken Example.limits w).
  right. vm_compute. discriminate.
Defined.

(** X12. [createAndProcessRecording] on a payload that fits in one piece, with
    an open database that has no recording under the current clock value,
    when the transcription call returns [text]: the new recording is
    stored under the clock value with the given name, the size and type of
    the payload and the payload itself, and ends [completed] with the
    single piece 0 holding the trimmed text, which is shown. *)
Theorem createAndProcessRecording_fresh (limits : Limits) (w : World)
    (store : gmap Z Recording) (blob : Blob) (name text : jsstring)
    (Hdb : db w = Some store)
    (Hfresh : store !! now w = None)
    (Hsize : (Blob.size blob <= MAX_CHUNK_SIZE_BYTES limits)%Z)
    (Hcall :
       (transcribeAudio blob (JS.splitFirst semicolon (Blob.type blob))
          (buildTranscriptionPromptWithVocabulary (ui w)) w).1
       = Normal text) :
  let piece := TranscriptChunk.mk 0 (JS.trim text) CS_completed in
  let run := createAndProcessRecording limits blob name w in
  run.1 = Normal tt
  /\ transcriptChunks (ui run.2) = [piece]
  /\ activeRecordingId (ui run.2) = Some (now w)
  /\ error (ui run.2) = None
  /\ exists r',
       storedIn (db run.2) (now w) r'
       /\ Recording.name r' = name
       /\ Recording.size r' = Blob.size blob
       /\ Recording.mimeType r' = Blob.type blob
       /\ Recording.blob r' = blob
       /\ Recording.status r' = RS_completed
       /\ Recording.progress r' = 100%Z
       /\ Recording.transcriptChunks r' = [piece].
Proof.
  intros piece run. destruct w as [d u s l c].
  cbn [db ui now] in *. subst d.
  set (newRecording :=
         Recording.mk c name (Blob.size blob) (Blob.type blob) RS_new 0 []
                      None blob).
  assert (Hstored : storedIn (Some (put newRecording store)) c newRecording)
    by (apply storedIn_put; reflexivity).
  assert (Hrun : exists d' u' l' r',
    run = (Normal tt, mkWorld d' u' s l' c)
    /\ storedIn d' c r'
    /\ Recording.status r' = RS_completed
    /\ Recording.progress r' = 100%Z
    /\ Recording.transcriptChunks r' = [piece]
    /\ Recording.blob r' = blob
    /\ Recording.name r' = name
    /\ Recording.size r' = Blob.size blob
    /\ Recording.mimeType r' = Blob.type blob
    /\ transcriptChunks u' = [piece]
    /\ error u' = None
    /\ activeRecordingId u' = Some c).
  { unfold run, createAndProcessRecording, Date_now. run1.
    unfold tryCatch, addRecording. run1. fold newRecording.
    cbn [Recording.id newRecording]. rewrite Hfresh.
    unfold set_db. cbn [db ui remote calls now]. run1.
    match goal with
    | |- context [loadRecordings (mkWorld ?d1 ?u1 s ?l1 c)] =>
        destruct (loadRecordings_stored d1 u1 s l1 c c _ Hstored)
          as (saved & ->)
    end.
    cbn [db ui remote calls now].
    destruct (processRecording_single_success limits
                (Some (put newRecording store)) (Some store)
                (with_savedRecordings saved u) u s l c c newRecording text
                Hstored (or_intror eq_refl) Hsize Hcall)
      as (d' & u' & r' & -> & Hstored' & Hstatus & Hprogress & Hchunks & Hblob
          & Hname & Hsz & Hmime & _ & Hui & Herr & Hact & _).
    eexists _, _, _, r'. split; [reflexivity|]. by repeat split. }
  destruct Hrun as (d' & u' & l' & r' & -> & Hstored' & Hstatus & Hprogress
                    & Hchunks & Hblob & Hname & Hsz & Hmime & Hui & Herr
                    & Hact).
  cbn [fst snd db ui]. repeat split; try done.
  exists r'. by repeat split.
Qed.

Lemma createAndProcessRecording_fresh_witness :
  let w := Example.world ∅ Example.initialUI Example.alwaysOk in
  let run := createAndProcessRecording Example.limits (Example.payload 3)
                                       (JS.lit "memo.webm") w in
  run.1 = Normal tt
  /\ transcriptChunks (ui run.2) = [Example.completedChunk 0 "ok"]
  /\ exists r',
       storedIn (db run.2) 1700000000000 r'
       /\ Recording.name r' = JS.lit "memo.webm"
       /\ Recording.status r' = RS_completed.
Proof.
  intros w run.
  destruct (createAndProcessRecording_fresh Example.limits w ∅
              (Example.payload 3) (JS.lit "memo.webm") (JS.lit " ok "))
    as (Hnormal & Hui & _ & _ & r' & Hstored & Hname & _ & _ & _ & Hstatus
        & _).
  - reflexivity.
  - apply lookup_empty.
  - vm_compute. discriminate.
  - vm_compute. reflexivity.
  - fold run in Hnormal, Hui, Hstored.
    split; [exact Hnormal|].
    split; [rewrite Hui; vm_compute; reflexivity|].
    exists r'. by repeat split.
Defined.

(** X13. [handleRetryTranscription] for an id that the database does not hold
    (or with the database not open) makes no remote call and does not
    start a run: its only effect is the error line
    ["Failed to retry transcription."]. *)
Theorem handleRetryTranscription_missing (limits : Limits) (w : World)
    (id : Z)
    (Hmissing : storedRecording w id = None) :
  handleRetryTranscription limits id w
  = (Normal tt,
     set_ui (with_error (Some (JS.lit "Failed to retry transcription."))
                        (ui w)) w).
Proof.
  destruct w as [d u s l c]. unfold storedRecording in Hmissing.
  cbn [db] in Hmissing.
  unfold handleRetryTranscription, tryCatch, bind, updateRecording.
  unfold_setters. cbn [db ui remote calls now].
  destruct d as [store|]; [|reflexivity].
  rewrite Hmissing. reflexivity.
Qed.

Lemma handleRetryTranscription_missing_witness :
  let w := Example.world (Example.store 5 RS_new []) Example.initialUI
                         Example.alwaysOk in
  handleRetryTranscription Example.limits 8 w
  = (Normal tt,
     set_ui (with_error (Some (JS.lit "Failed to retry transcription."))
                        (ui w)) w).
Proof.
  intros w. apply (handleRetryTranscription_missing Example.limits w 8).
  vm_compute. reflexivity.
Defined.

(** X14. [handleRetryTranscription] transcribes again whatever is stored: it
    first resets the recording to [new] with no piece, so the run that
    follows does not take the recording for already done, even when it was
    stored as [completed] with its pieces. For a recording of one piece
    whose call returns [text], the service is called, and the old pieces
    are replaced by the single piece 0 holding the trimmed text. *)
Theorem handleRetryTranscription_runs_again (limits : Limits) (w : World)
    (id : Z) (r : Recording) (text : jsstring)
    (Hstored : storedIn (db w) id r)
    (Hsize : (Blob.size (Recording.blob r) <= MAX_CHUNK_SIZE_BYTES limits)%Z)
    (Hcall :
       (transcribeAudio (Recording.blob r)
          (JS.splitFirst semicolon (Blob.type (Recording.blob r)))
          (buildTranscriptionPromptWithVocabulary (ui w)) w).1
       = Normal text) :
  let piece := TranscriptChunk.mk 0 (JS.trim text) CS_completed in
  let run := handleRetryTranscription limits id w in
  run.1 = Normal tt
  /\ calls run.2
     = calls (transcribeAudio (Recording.blob r)
                (JS.splitFirst semicolon (Blob.type (Recording.blob r)))
                (buildTranscriptionPromptWithVocabulary (ui w)) w).2
  /\ transcriptChunks (ui run.2) = [piece]
  /\ exists r',
       storedIn (db run.2) id r'
       /\ Recording.status r' = RS_completed
       /\ Recording.transcriptChunks r' = [piece]
       /\ Recording.blob r' = Recording.blob r
       /\ Recording.name r' = Recording.name r.
Proof.
  intros piece run. destruct w as [d u s l c]. cbn [db ui] in *.
  assert (Hrun : exists d' u' r',
    run = (Normal tt,
           mkWorld d' u' s
             (calls (transcribeAudio (Recording.blob r)
                       (JS.splitFirst semicolon (Blob.type (Recording.blob r)))
                       (buildTranscriptionPromptWithVocabulary u)
                       (mkWorld d u s l c)).2) c)
    /\ storedIn d' id r'
    /\ Recording.status r' = RS_completed
    /\ Recording.transcriptChunks r' = [piece]
    /\ Recording.blob r' = Recording.blob r
    /\ Recording.name r' = Recording.name r
    /\ transcriptChunks u' = [piece]).
  { unfold run, handleRetryTranscription, tryCatch. run1.
    match goal with
    | |- context [updateRecording id ?upd (mkWorld d ?u1 s ?l1 c)] =>
        destruct (updateRecording_stored d u1 s l1 c id upd _ Hstored)
          as (d1 & -> & Hstored1)
    end.
    run1.
    match goal with
    | |- context [loadRecordings (mkWorld d1 ?u1 s ?l1 c)] =>
        destruct (loadRecordings_stored d1 u1 s l1 c id _ Hstored1)
          as (saved & ->)
    end.
    cbn [db ui remote calls now].
    match type of Hstored1 with
    | storedIn d1 id ?r1 =>
        destruct (processRecording_single_success limits d1 d
                    (with_savedRecordings saved u) u s l c id r1 text
                    Hstored1 (or_intror eq_refl) Hsize Hcall)
          as (d' & u' & r' & -> & Hstored' & Hstatus & _ & Hchunks & Hblob
              & Hname & _ & _ & _ & Hui & _)
    end.
    eexists _, _, r'. split; [reflexivity|]. by repeat split. }
  destruct Hrun as (d' & u' & r' & -> & Hstored' & Hstatus & Hchunks & Hblob
                    & Hname & Hui).
  cbn [fst snd db ui calls]. repeat split; try done.
  exists r'. by repeat split.
Qed.

Lemma handleRetryTranscription_runs_again_witness :
  let old := [Example.completedChunk 0 "hello"] in
  let w := Example.world (Example.store 5 RS_completed old)
                         (Example.showing old) Example.alwaysOk in
  let run := handleRetryTranscription Example.limits 7 w in
  run.1 = Normal tt
  /\ length (calls run.2) = 1
  /\ transcriptChunks (ui run.2) = [Example.completedChunk 0 "ok"].
Proof.
  intros old w run.
  destruct (handleRetryTranscription_runs_again Example.limits w 7
              (Example.recording 5 RS_completed old) (JS.lit " ok "))
    as (Hnormal & Hcalls & Hui & _).
  - eexists. split; [reflexivity|]. split; vm_compute; reflexivity.
  - vm_compute. discriminate.
  - vm_compute. reflexivity.
  - fold run in Hnormal, Hcalls, Hui.
    split; [exact Hnormal|].
    split; [rewrite Hcalls; vm_compute; reflexivity|].
    rewrite Hui. vm_compute. reflexivity.
Defined.

(* ===================================================================== *)
(** * The list of saved recordings: select, rename, delete                *)
(* ===================================================================== *)

(** X20. [handleSelectRecording] only reads the database: it makes no remote
    call and writes nothing, whatever is selected. While a recording or a
    transcription is going on it does nothing at all. Otherwise, for a
    stored recording it shows the stored payload, pieces and notes (no
    notes shown as the empty text) and makes the recording the active
    one; for an id that is not stored it sets the error line to
    ["Could not load the selected recording."] and keeps what is shown. *)
Theorem handleSelectRecording_reads_only (w : World) (isRecording : bool)
    (id : Z) :
  let run := handleSelectRecording isRecording id w in
  run.1 = Normal tt /\ db run.2 = db w /\ calls run.2 = calls w
  /\ (isRecording || isTranscribing (ui w) = true -> run.2 = w)
  /\ (isRecording || isTranscribing (ui w) = false ->
      forall store, db w = Some store ->
        match store !! id with
        | Some recording =>
            ui run.2
            = with_generatedNotes
                (default [] (Recording.formattedNotes recording))
                (with_transcriptChunks (Recording.transcriptChunks recording)
                   (with_recordedAudioBlob (Some (Recording.blob recording))
                      (with_activeRecordingId (Some id) (ui w))))
        | None =>
            ui run.2
            = with_error
                (Some (JS.lit "Could not load the selected recording."))
                (ui w)
        end).
Proof.
  intros run. destruct w as [d u s l c]. cbn [db ui calls].
  assert (Hrun : run
    = (Normal tt,
       if isRecording || isTranscribing u then mkWorld d u s l c
       else
         match d with
         | Some store =>
             match store !! id with
             | Some recording =>
                 mkWorld d
                   (with_generatedNotes
                      (default [] (Recording.formattedNotes recording))
                      (with_transcriptChunks
                         (Recording.transcriptChunks recording)
                         (with_recordedAudioBlob
                            (Some (Recording.blob recording))
                            (with_activeRecordingId (Some id) u))))
                   s l c
             | None =>
                 mkWorld d
                   (with_error
                      (Some (JS.lit "Could not load the selected recording."))
                      u) s l c
             end
         | None =>
             mkWorld d
               (with_error
                  (Some (JS.lit "Failed to load recording from database."))
                  u) s l c
         end)).
  { unfold run, handleSelectRecording, tryCatch, bind, getRecording.
    unfold_setters. cbn [db ui remote calls now].
    destruct (isRecording || isTranscribing u); [reflexivity|].
    destruct d as [store|]; cbn [db ui remote calls now]; [|reflexivity].
    destruct (store !! id); reflexivity. }
  rewrite Hrun. clear Hrun run. cbn [fst snd].
  destruct (isRecording || isTranscribing u).
  - split; [done|]. split; [done|]. split; [done|].
    split; [done | discriminate].
  - split; [done|].
    split; [by destruct d as [store|]; [destruct (store !! id)|]|].
    split; [by destruct d as [store|]; [destruct (store !! id)|]|].
    split; [discriminate|].
    intros _ store ->. by destruct (store !! id).
Qed.

Lemma handleSelectRecording_reads_only_witness :
  let pieces := [Example.completedChunk 0 "hello"] in
  let w := Example.world (Example.store 5 RS_completed pieces)
                         Example.initialUI Example.alwaysOk in
  (handleSelectRecording false 7
     (set_ui (with_isTranscribing true Example.initialUI) w)).2
  = set_ui (with_isTranscribing true Example.initialUI) w
  /\ transcriptChunks (ui (handleSelectRecording false 7 w).2) = pieces
  /\ error (ui (handleSelectRecording false 8 w).2)
     = Some (JS.lit "Could not load the selected recording.").
Proof.
  intros pieces w. split; [|split].
  - apply (handleSelectRecording_reads_only
             (set_ui (with_isTranscribing true Example.initialUI) w) false 7).
    reflexivity.
  - destruct (handleSelectRecording_reads_only w false 7)
      as (_ & _ & _ & _ & Hshown).
    specialize (Hshown eq_refl _ eq_refl).
    change (Example.store 5 RS_completed pieces !! 7%Z)
      with (Some (Example.recording 5 RS_completed pieces)) in Hshown.
    rewrite Hshown. reflexivity.
  - destruct (handleSelectRecording_reads_only w false 8)
      as (_ & _ & _ & _ & Hshown).
    specialize (Hshown eq_refl _ eq_refl).
    change (Example.store 5 RS_completed pieces !! 8%Z)
      with (@None Recording) in Hshown.
    rewrite Hshown. reflexivity.
Defined.

(** X21. Confirming the deletion of recording [id] removes it from the
    database, leaves every other recording, makes no remote call and
    refreshes the list that is shown from the database. When the deleted
    recording is the active one, the display is emptied (no active
    recording, no pieces, no notes, no payload); when it is another one,
    what is shown stays. *)
Theorem handleConfirmDeleteRecording_removes (w : World)
    (store : gmap Z Recording) (id : Z)
    (Hdb : db w = Some store) :
  let run := handleConfirmDeleteRecording (Some id) w in
  run.1 = Normal tt
  /\ calls run.2 = calls w
  /\ storedRecording run.2 id = None
  /\ (forall other, other <> id ->
        storedRecording run.2 other = storedRecording w other)
  /\ (getAllRecordingsMetadata run.2).1 = Normal (savedRecordings (ui run.2))
  /\ (if bool_decide (activeRecordingId (ui w) = Some id)
      then activeRecordingId (ui run.2) = None
           /\ transcriptChunks (ui run.2) = []
           /\ generatedNotes (ui run.2) = []
           /\ recordedAudioBlob (ui run.2) = None
      else activeRecordingId (ui run.2) = activeRecordingId (ui w)
           /\ transcriptChunks (ui run.2) = transcriptChunks (ui w)
           /\ generatedNotes (ui run.2) = generatedNotes (ui w)
           /\ recordedAudioBlob (ui run.2) = recordedAudioBlob (ui w)).
Proof.
  intros run. destruct w as [d u s l c]. cbn [db ui calls] in *. subst d.
  set (saved :=
         List.map (fun kv : Z * Recording => RecordingMetadata.ofRecording kv.2)
           (merge_sort newerFirst (map_to_list (delete id store)))).
  assert (Hrun : run
    = (Normal tt,
       mkWorld (Some (delete id store))
         (if bool_decide (activeRecordingId u = Some id)
          then with_generatedNotes []
                 (with_recordedAudioBlob None
                    (with_transcriptChunks []
                       (with_activeRecordingId None
                          (with_savedRecordings saved u))))
          else with_savedRecordings saved u)
         s l c)).
  { unfold run, handleConfirmDeleteRecording, tryCatch, bind, deleteRecording,
      loadRecordings, tryCatch, bind, getAllRecordingsMetadata.
    unfold_setters. cbn [db ui remote calls now set_db].
    destruct (bool_decide (activeRecordingId u = Some id)); reflexivity. }
  rewrite Hrun. clear Hrun run. unfold storedRecording.
  cbn [fst snd db ui calls].
  split; [done|]. split; [done|].
  split; [apply lookup_delete_eq|].
  split; [intros other Hother; by apply lookup_delete_ne|].
  split.
  - unfold getAllRecordingsMetadata. cbn [db fst]. f_equal.
    by destruct (bool_decide (activeRecordingId u = Some id)).
  - destruct (bool_decide (activeRecordingId u = Some id)); by repeat split.
Qed.

Lemma handleConfirmDeleteRecording_removes_witness :
  let pieces := [Example.completedChunk 0 "hello"] in
  let w := Example.world (Example.store 5 RS_completed pieces)
                         (Example.showing pieces) Example.alwaysOk in
  let run := handleConfirmDeleteRecording (Some 7%Z) w in
  run.1 = Normal tt
  /\ storedRecording run.2 7 = None
  /\ activeRecordingId (ui run.2) = None
  /\ transcriptChunks (ui run.2) = []
  /\ savedRecordings (ui run.2) = [].
Proof.
  intros pieces w run.
  destruct (handleConfirmDeleteRecording_removes w
              (Example.store 5 RS_completed pieces) 7)
    as (Hnormal & _ & Hgone & _ & _ & Hshown).
  - reflexivity.
  - change (bool_decide (activeRecordingId (ui w) = Some 7%Z)) with true
      in Hshown.
    destruct Hshown as (Hactive & Hchunks & _).
    fold run in Hnormal, Hgone, Hactive, Hchunks.
    split; [exact Hnormal|]. split; [exact Hgone|].
    split; [exact Hactive|]. split; [exact Hchunks|].
    vm_compute. reflexivity.
Defined.

(** X22. [handleUpdateRecordingName] changes the name of a stored recording and
    nothing else of it: size, type, status, progress, pieces, notes and
    payload are kept, and no remote call is made. When the name given is
    the name the recording already has, nothing is written and the list
    shown is not reloaded. *)
Theorem handleUpdateRecordingName_renames (w : World) (id : Z)
    (r : Recording) (name : jsstring)
    (Hstored : storedIn (db w) id r) :
  let run := handleUpdateRecordingName id name w in
  run.1 = Normal tt
  /\ calls run.2 = calls w
  /\ storedIn (db run.2) id
       (Recording.mk (Recording.id r) name (Recording.size r)
          (Recording.mimeType r) (Recording.status r) (Recording.progress r)
          (Recording.transcriptChunks r) (Recording.formattedNotes r)
          (Recording.blob r))
  /\ (Recording.name r = name -> run.2 = w).
Proof.
  intros run. destruct w as [d u s l c]. cbn [db ui calls] in *.
  assert (Hrun : exists d' u',
    run = (Normal tt, mkWorld d' u' s l c)
    /\ storedIn d' id
         (Recording.mk (Recording.id r) name (Recording.size r)
            (Recording.mimeType r) (Recording.status r) (Recording.progress r)
            (Recording.transcriptChunks r) (Recording.formattedNotes r)
            (Recording.blob r))
    /\ (Recording.name r = name -> d' = d /\ u' = u)).
  { unfold run, handleUpdateRecordingName, tryCatch. run1.
    rewrite (getRecording_stored d u s l c id r Hstored).
    unfold JS.eqb. destruct (decide (Recording.name r = name)) as [Heq|Hne].
    - rewrite bool_decide_eq_true_2 by exact Heq. cbn [negb]. unfold ret.
      eexists _, _. split; [reflexivity|]. split; [|done].
      rewrite <- Heq. by destruct r.
    - rewrite bool_decide_eq_false_2 by exact Hne. cbn [negb]. run1.
      destruct (updateRecording_stored d u s l c id (nameUpdate name) r
                  Hstored) as (d1 & -> & Hstored1).
      destruct (loadRecordings_stored d1 u s l c id _ Hstored1)
        as (saved & ->).
      eexists _, _. split; [reflexivity|]. split; [exact Hstored1 | done]. }
  destruct Hrun as (d' & u' & -> & Hstored' & Hsame).
  cbn [fst snd db ui calls]. split; [done|]. split; [done|].
  split; [exact Hstored'|].
  intros Heq. by destruct (Hsame Heq) as [-> ->].
Qed.

Lemma handleUpdateRecordingName_renames_witness :
  let w := Example.world (Example.store 5 RS_completed [])
                         Example.initialUI Example.alwaysOk in
  let run := handleUpdateRecordingName 7 (JS.lit "retro") w in
  run.1 = Normal tt
  /\ storedIn (db run.2) 7
       (Recording.mk 7 (JS.lit "retro") 5 (JS.lit "audio/webm") RS_completed 0
                     [] None (Example.payload 5)).
Proof.
  intros w run.
  destruct (handleUpdateRecordingName_renames w 7
              (Example.recording 5 RS_completed []) (JS.lit "retro"))
    as (Hnormal & _ & Hstored & _).
  - eexists. split; [reflexivity|]. split; vm_compute; reflexivity.
  - split; [exact Hnormal | exact Hstored].
Defined.

(** X23. [handleUpdateTranscriptChunk] on the piece at position [j] of a
    stored active recording replaces the content of that piece, both
    shown and stored, and keeps its index and its status. The other
    pieces, the status of the recording, its progress and the error line
    are kept, and no remote call is made. *)
Theorem handleUpdateTranscriptChunk_edits_one_piece (w : World) (id : Z)
    (r : Recording) (j : nat) (piece : TranscriptChunk)
    (newContent : jsstring)
    (Hstored : storedIn (db w) id r)
    (Hactive : activeRecordingId (ui w) = Some id)
    (Hid : id <> 0%Z)
    (Hindexed : indexed (transcriptChunks (ui w)))
    (Hpiece : transcriptChunks (ui w) !! j = Some piece) :
  let pieces :=
    <[j := TranscriptChunk.mk (Z.of_nat j) newContent
                              (TranscriptChunk.status piece)]>
      (transcriptChunks (ui w)) in
  let run := handleUpdateTranscriptChunk (Z.of_nat j) newContent w in
  run.1 = Normal tt
  /\ calls run.2 = calls w
  /\ transcriptChunks (ui run.2) = pieces
  /\ error (ui run.2) = error (ui w)
  /\ exists r',
       storedIn (db run.2) id r'
       /\ Recording.transcriptChunks r' = pieces
       /\ Recording.status r' = Recording.status r
       /\ Recording.progress r' = Recording.progress r.
Proof.
  intros pieces run. destruct w as [d u s l c]. cbn [db ui calls] in *.
  assert (Hmap :
    List.map
      (fun c0 => if (TranscriptChunk.index c0 =? Z.of_nat j)%Z
                 then TranscriptChunk.withContent c0 newContent
                 else c0)
      (transcriptChunks u)
    = pieces).
  { rewrite (map_at_index _ (transcriptChunks u) j Hindexed).
    rewrite (alter_as_insert _ _ _ _ Hpiece). unfold pieces.
    unfold TranscriptChunk.withContent.
    by rewrite (Hindexed j piece Hpiece). }
  assert (Hrun : exists d' r',
    run = (Normal tt, mkWorld d' (with_transcriptChunks pieces u) s l c)
    /\ storedIn d' id r'
    /\ r' = spread r (Updates.withTranscriptChunks pieces Updates.none)).
  { unfold run, handleUpdateTranscriptChunk. unfold_setters. run1.
    rewrite Hmap, Hactive, (truthyId_nonzero id Hid). run1.
    unfold tryCatch.
    match goal with
    | |- context [updateRecording id ?upd (mkWorld d ?u1 s ?l1 c)] =>
        destruct (updateRecording_stored d u1 s l1 c id upd _ Hstored)
          as (d1 & -> & Hstored1)
    end.
    eexists _, _. split; [reflexivity|]. split; [exact Hstored1 | done]. }
  destruct Hrun as (d' & r' & -> & Hstored' & ->).
  cbn [fst snd db ui calls]. repeat split; try done.
  eexists. split; [exact Hstored'|]. by repeat split.
Qed.

Lemma handleUpdateTranscriptChunk_edits_one_piece_witness :
  let pieces :=
    [Example.completedChunk 0 "ok"; Example.completedChunk 1 "helo"] in
  let w := Example.world (Example.store 20 RS_completed pieces)
                         (Example.showing pieces) Example.alwaysOk in
  let run := handleUpdateTranscriptChunk 1 (JS.lit "hello") w in
  run.1 = Normal tt
  /\ transcriptChunks (ui run.2)
     = [Example.completedChunk 0 "ok"; Example.completedChunk 1 "hello"]
  /\ exists r', storedIn (db run.2) 7 r'
                /\ Recording.status r' = RS_completed.
Proof.
  intros pieces w run.
  destruct (handleUpdateTranscriptChunk_edits_one_piece w 7
              (Example.recording 20 RS_completed pieces) 1
              (Example.completedChunk 1 "helo") (JS.lit "hello"))
    as (Hnormal & _ & Hui & _ & r' & Hstored & _ & Hstatus & _).
  - eexists. split; [reflexivity|]. split; vm_compute; reflexivity.
  - reflexivity.
  - discriminate.
  - intros k c. destruct k as [|[|k]]; vm_compute; intros [= <-];
      reflexivity.
  - reflexivity.
  - change (Z.of_nat 1) with 1%Z in *. fold run in Hnormal, Hui, Hstored.
    split; [exact Hnormal|].
    split; [rewrite Hui; vm_compute; reflexivity|].
    exists r'. split; [exact Hstored | by rewrite Hstatus].
Defined.

(* ===================================================================== *)
(** * Correcting the text that is selected                                *)
(* ===================================================================== *)

Lemma mapWithIndex_editChunk_single (oldText newText : jsstring)
    (chunkIndex start end_ : Z) (chunks : list TranscriptChunk) :
  forall index,
    mapWithIndex (editChunk oldText newText false chunkIndex start end_)
                 index chunks
    = Normal
        (imap (fun i chunk =>
                 if (Z.of_nat (index + i) =? chunkIndex)%Z
                 then TranscriptChunk.withContent chunk
                        (replaceRange (TranscriptChunk.content chunk)
                                      start end_ newText)
                 else chunk)
              chunks).
Proof.
  induction chunks as [|chunk chunks IH]; intros index; [reflexivity|].
  cbn [mapWithIndex imap]. unfold editChunk at 1. rewrite (IH (S index)).
  rewrite Nat.add_0_r.
  assert (Hrest :
    imap (fun i chunk0 =>
            if (Z.of_nat (S index + i) =? chunkIndex)%Z
            then TranscriptChunk.withContent chunk0
                   (replaceRange (TranscriptChunk.content chunk0)
                                 start end_ newText)
            else chunk0) chunks
    = imap ((fun i chunk0 =>
               if (Z.of_nat (index + i) =? chunkIndex)%Z
               then TranscriptChunk.withContent chunk0
                      (replaceRange (TranscriptChunk.content chunk0)
                                    start end_ newText)
               else chunk0) ∘ S) chunks).
  { apply imap_ext. intros i chunk' _. cbn.
    by replace (S (index + i)) with (index + S i) by lia. }
  rewrite Hrest.
  destruct (Z.of_nat index =? chunkIndex)%Z; [reflexivity|].
  by destruct chunk.
Qed.

Lemma handleEditAndUpdateVocabulary_chunks
    (toLowerCase : jsstring -> jsstring) (w : World)
    (oldText newText : jsstring) (replaceAll addToVocabulary : bool)
    (chunkIndex start end_ : Z) (newChunks : list TranscriptChunk) :
  JS.trim newText <> [] ->
  mapWithIndex (editChunk oldText newText replaceAll chunkIndex start end_)
               0 (transcriptChunks (ui w)) = Normal newChunks ->
  transcriptChunks
    (ui (handleEditAndUpdateVocabulary toLowerCase oldText newText replaceAll
           addToVocabulary chunkIndex start end_ w).2)
  = newChunks.
Proof.
  intros Hnew Hmap. destruct w as [d u s l c]. cbn [ui] in Hmap.
  unfold handleEditAndUpdateVocabulary. unfold_setters. run1.
  destruct (JS.trim newText) as [|c0 t0] eqn:Htrim; [done|].
  cbn [JS.truthy negb]. run1. unfold liftCompletion. rewrite Hmap.
  do 2 run1.
  destruct (truthyId (activeRecordingId u)) as [active|].
  - unfold tryCatch.
    match goal with
    | |- context [updateRecording active ?upd (mkWorld d ?u1 s ?l1 c)] =>
        destruct (updateRecording_frame active upd d u1 s l1 c)
          as (outcome & d' & ->)
    end.
    destruct outcome as [[]|e]; run1; destruct addToVocabulary;
      try run1; reflexivity.
  - run1. destruct addToVocabulary; try run1; reflexivity.
Qed.

(** X24. Selecting text in the textarea of a piece and confirming a correction
    for this occurrence only replaces exactly what was selected: with the
    selection from [selectionStart] to [selectionEnd] in the content of
    the piece at position [j], the text recorded by [handleMouseUp] is the
    part of the content between the two offsets, and after the
    confirmation that piece reads: what was before the selection, the new
    text, what was after the selection. Index and status of the piece and
    all the other pieces are as before. *)
Theorem selected_text_is_replaced (toLowerCase : jsstring -> jsstring)
    (w : World) (j : nat) (piece : TranscriptChunk)
    (selectionStart selectionEnd : nat) (newText : jsstring)
    (addToVocabulary : bool) (selectionInfo : SelectionInfo.t)
    (Hindexed : indexed (transcriptChunks (ui w)))
    (Hpiece : transcriptChunks (ui w) !! j = Some piece)
    (Hrange : selectionStart <= selectionEnd
              <= length (TranscriptChunk.content piece))
    (Hselect :
       handleMouseUp (TranscriptChunk.content piece)
         (Z.of_nat selectionStart) (Z.of_nat selectionEnd)
         (TranscriptChunk.index piece) = Some selectionInfo)
    (Hnew : JS.trim newText <> []) :
  let content := TranscriptChunk.content piece in
  let before := take selectionStart content in
  let after := drop selectionEnd content in
  let run :=
    confirmTranscriptEdit toLowerCase selectionInfo newText false
                          addToVocabulary w in
  content = before ++ SelectionInfo.text selectionInfo ++ after
  /\ transcriptChunks (ui run.2)
     = <[j := TranscriptChunk.mk (TranscriptChunk.index piece)
                 (before ++ newText ++ after) (TranscriptChunk.status piece)]>
         (transcriptChunks (ui w)).
Proof.
  intros content before after run.
  pose proof (Hindexed j piece Hpiece) as Hindex.
  unfold handleMouseUp in Hselect.
  destruct (0 <? length _)%nat; [|discriminate].
  injection Hselect as <-.
  assert (Htext :
    JS.substring content (Z.of_nat selectionStart) (Z.of_nat selectionEnd)
    = take (selectionEnd - selectionStart) (drop selectionStart content)).
  { unfold JS.substring, JS.clampIndex. fold content in Hrange.
    replace (Z.to_nat (Z.min (Z.max (Z.of_nat selectionStart) 0)
                             (Z.of_nat (length content))))
      with selectionStart by lia.
    replace (Z.to_nat (Z.min (Z.max (Z.of_nat selectionEnd) 0)
                             (Z.of_nat (length content))))
      with selectionEnd by lia.
    by rewrite Nat.min_l, Nat.max_r by lia. }
  split.
  - cbn [SelectionInfo.text]. fold content. rewrite Htext.
    unfold before, after.
    rewrite <- (take_drop selectionStart content) at 1. f_equal.
    rewrite <- (take_drop (selectionEnd - selectionStart)
                          (drop selectionStart content)) at 1.
    f_equal. rewrite drop_drop. f_equal. lia.
  - unfold run, confirmTranscriptEdit.
    destruct (JS.trim newText) as [|c0 t0] eqn:Htrim; [done|].
    cbn [JS.truthy SelectionInfo.text SelectionInfo.chunkIndex
         SelectionInfo.start SelectionInfo.end_].
    rewrite <- Htrim in Hnew.
    rewrite (handleEditAndUpdateVocabulary_chunks toLowerCase w _ newText
               false addToVocabulary _ _ _ _ Hnew
               (mapWithIndex_editChunk_single _ newText _ _ _ _ 0)).
    apply list_eq. intros k. rewrite list_lookup_imap.
    destruct (decide (j = k)) as [<-|Hne].
    + rewrite Hpiece, list_lookup_insert_eq
        by (by apply lookup_lt_is_Some_1; eexists).
      cbn [option_fmap option_map fmap]. rewrite Hindex, Z.eqb_refl.
      unfold TranscriptChunk.withContent. fold content.
      rewrite (replaceRange_inside content selectionStart selectionEnd
                 newText Hrange).
      by rewrite Hindex.
    + rewrite list_lookup_insert_ne by done.
      destruct (transcriptChunks (ui w) !! k) as [other|] eqn:Hk;
        [|reflexivity].
      cbn. rewrite Hindex.
      by replace (Z.of_nat k =? Z.of_nat j)%Z with false by (symmetry; lia).
Qed.

Lemma selected_text_is_replaced_witness :
  let pieces := [Example.completedChunk 0 "ok";
                 Example.completedChunk 1 "call Jon now"] in
  let w := Example.world (Example.store 20 RS_completed pieces)
                         (Example.showing pieces) Example.alwaysOk in
  let selectionInfo := SelectionInfo.mk (JS.lit "Jon") 1 5 8 in
  let run :=
    confirmTranscriptEdit Example.toLowerCase selectionInfo (JS.lit "John")
                          false false w in
  transcriptChunks (ui run.2)
  = [Example.completedChunk 0 "ok"; Example.completedChunk 1 "call John now"].
Proof.
  intros pieces w selectionInfo run.
  destruct (selected_text_is_replaced Example.toLowerCase w 1
              (Example.completedChunk 1 "call Jon now") 5 8 (JS.lit "John")
              false selectionInfo) as [_ Hafter].
  - intros k c. destruct k as [|[|k]]; vm_compute; intros [= <-];
      reflexivity.
  - reflexivity.
  - vm_compute. lia.
  - vm_compute. reflexivity.
  - vm_compute. discriminate.
  - fold run in Hafter. rewrite Hafter. vm_compute. reflexivity.
Defined.

(* ===================================================================== *)
(** * Pasted text, and notes typed by hand                                *)
(* ===================================================================== *)

(** X25. Text pasted with [handlePasteInputChange] becomes the single piece
    shown and detaches the display from the recording that was active.
    Notes generated next are made from the pasted text alone, in one
    request, and are shown; nothing is written to the database, so the
    recording that was active before keeps its own pieces and notes. *)
Theorem pasted_text_is_formatted_and_not_stored (w : World)
    (content : jsstring)
    (Hcontent : JS.trim content <> [])
    (Hinstruction : JS.trim (instruction (ui w)) <> []) :
  let pasted := (handlePasteInputChange content w).2 in
  let request :=
    mkRequest (selectedModel (ui w))
      (TextOnly (formatPrompt (instruction (ui w)) content)) in
  let notes :=
    match settledWithin (remote w (length (calls w)) request) 120000 with
    | Some (Fulfilled text) => default [] text
    | Some (Rejected e) => formattingErrorText e
    | None =>
        formattingErrorText
          (ErrorObj (JS.lit "Formatting notes request timed out after 120 seconds."))
    end in
  let run := handleGenerateNotes pasted in
  transcriptChunks (ui pasted) = [TranscriptChunk.mk 0 content CS_completed]
  /\ truthyId (activeRecordingId (ui pasted)) = None
  /\ recordedAudioBlob (ui pasted) = None
  /\ run.1 = Normal tt
  /\ calls run.2 = calls w ++ [request]
  /\ generatedNotes (ui run.2) = notes
  /\ db run.2 = db w.
Proof.
  intros pasted request notes run.
  destruct w as [d u s l c]. cbn [db ui remote calls now] in *.
  pose proof (trim_nonempty content Hcontent) as Hnonempty.
  assert (Hc : JS.truthy content = true) by (by destruct content).
  set (u1 := if JS.truthy content
             then with_transcriptChunks
                    [TranscriptChunk.mk 0 content CS_completed] u
             else with_transcriptChunks [] u).
  set (u2 := match truthyId (activeRecordingId u) with
             | Some _ => with_activeRecordingId None u1
             | None => u1
             end).
  set (u3 := match recordedAudioBlob u with
             | Some _ => with_recordedAudioBlob None u2
             | None => u2
             end).
  assert (Hpasted : pasted = mkWorld d u3 s l c).
  { unfold pasted, handlePasteInputChange. unfold_setters. run1.
    unfold u3, u2, u1. rewrite Hc. run1.
    destruct (truthyId (activeRecordingId u));
      run1; destruct (recordedAudioBlob u); reflexivity. }
  assert (Hchunks :
    transcriptChunks u3 = [TranscriptChunk.mk 0 content CS_completed]).
  { unfold u3, u2, u1. rewrite Hc.
    by destruct (recordedAudioBlob u), (truthyId (activeRecordingId u)). }
  assert (Hactive : truthyId (activeRecordingId u3) = None).
  { unfold u3, u2, u1.
    destruct (recordedAudioBlob u),
      (truthyId (activeRecordingId u)) eqn:Hid, (JS.truthy content);
      cbn; done. }
  assert (Hblob : recordedAudioBlob u3 = None).
  { unfold u3, u2, u1.
    destruct (recordedAudioBlob u) eqn:Hb,
      (truthyId (activeRecordingId u)), (JS.truthy content); cbn; done. }
  assert (Hother : instruction u3 = instruction u
                   /\ selectedModel u3 = selectedModel u).
  { unfold u3, u2, u1.
    by destruct (recordedAudioBlob u), (truthyId (activeRecordingId u)),
      (JS.truthy content). }
  destruct Hother as [Hinstr Hmodel].
  split; [by rewrite Hpasted|]. split; [by rewrite Hpasted|].
  split; [by rewrite Hpasted|].
  assert (Hrun : exists u',
    run = (Normal tt, mkWorld d u' s (l ++ [request]) c)
    /\ generatedNotes u' = notes).
  { unfold run. rewrite Hpasted.
    unfold handleGenerateNotes. unfold_setters. run1.
    rewrite Hchunks. cbn [List.map JS.join TranscriptChunk.content].
    rewrite Hc. cbn [negb].
    do 3 run1. unfold tryFinally, tryCatch. run1.
    rewrite Hinstr, Hmodel.
    match goal with
    | |- context [formatNotes content ?i ?m ?w0] =>
        rewrite (formatNotes_calls w0 content i m Hcontent Hinstruction)
    end.
    cbn [db ui remote calls now set_calls].
    assert (Hout : exists outcome,
      outcome
      = settledWithin
          (s (length l)
             (mkRequest (selectedModel u)
                (TextOnly (formatPrompt (instruction u) content))))
          120000
      /\ match outcome with
         | Some (Fulfilled text) => Normal (default [] text)
         | Some (Rejected e) => Normal (formattingErrorText e)
         | None =>
             Normal (formattingErrorText
                       (ErrorObj (JS.lit "Formatting notes request timed out after 120 seconds.")))
         end = Normal (A := jsstring) notes).
    { eexists. split; [reflexivity|]. unfold notes.
      by destruct (settledWithin _ 120000) as [[text|e]|]. }
    destruct Hout as (outcome & Houtcome & Hout). rewrite <- Houtcome.
    rewrite Hout. run1. unfold set_calls. cbn [db ui remote calls now].
    rewrite Hactive. cbn [db ui remote calls now].
    eexists. split; [reflexivity|]. reflexivity. }
  destruct Hrun as (u' & -> & Hnotes).
  cbn [fst snd db ui calls]. by repeat split.
Qed.

Lemma pasted_text_is_formatted_and_not_stored_witness :
  (let pieces := [Example.completedChunk 0 "hello"] in
   let w := Example.world (Example.store 5 RS_completed pieces)
                          (Example.showing pieces) Example.alwaysOk in
   let pasted := (handlePasteInputChange (JS.lit "minutes") w).2 in
   let run := handleGenerateNotes pasted in
   activeRecordingId (ui pasted) = None
   /\ generatedNotes (ui run.2) = JS.lit " ok "
   /\ db run.2 = db w)
  /\ (let pieces := [Example.completedChunk 0 "hello"] in
      let w := Example.world (Example.store 5 RS_completed pieces)
                             (Example.showing pieces)
                             (Example.answersAfter 120000) in
      let run :=
        handleGenerateNotes (handlePasteInputChange (JS.lit "minutes") w).2 in
      generatedNotes (ui run.2) = JS.lit " ok " /\ db run.2 = db w).
Proof.
  split.
  - intros pieces w pasted run.
    destruct (pasted_text_is_formatted_and_not_stored w (JS.lit "minutes"))
      as (_ & _ & _ & _ & _ & Hnotes & Hdb).
    + vm_compute. discriminate.
    + vm_compute. discriminate.
    + split; [reflexivity|].
      fold pasted in Hnotes, Hdb. fold run in Hnotes, Hdb.
      split; [rewrite Hnotes; vm_compute; reflexivity | exact Hdb].
  - intros pieces w run.
    destruct (pasted_text_is_formatted_and_not_stored w (JS.lit "minutes"))
      as (_ & _ & _ & _ & _ & Hnotes & Hdb).
    + vm_compute. discriminate.
    + vm_compute. discriminate.
    + fold run in Hnotes, Hdb.
      split; [rewrite Hnotes; vm_compute; reflexivity | exact Hdb].
Defined.

(** X26. Notes typed by hand are shown at once and written to the database
    only when the timer set by the last keystroke fires: after two
    changes in a row nothing has been written yet, and when the timer
    fires the notes stored for the active recording are those of the
    second change; the first text is never written. After that no write
    is pending: the timer firing again changes nothing. *)
Theorem typed_notes_are_saved_once (w : World) (id : Z) (r : Recording)
    (first second : jsstring)
    (Hstored : storedIn (db w) id r)
    (Hactive : activeRecordingId (ui w) = Some id)
    (Hid : id <> 0%Z) :
  let typed := (handleNotesChange second (handleNotesChange first w).2).2 in
  let saved := (noteUpdateTimeoutFires typed).2 in
  db typed = db w
  /\ generatedNotes (ui typed) = second
  /\ (exists r',
        storedIn (db saved) id r'
        /\ Recording.formattedNotes r' = Some second
        /\ Recording.transcriptChunks r' = Recording.transcriptChunks r
        /\ Recording.status r' = Recording.status r)
  /\ noteUpdateTimeoutFires saved = (Normal tt, saved)
  /\ calls saved = calls w.
Proof.
  intros typed saved. destruct w as [d u s l c]. cbn [db ui calls] in *.
  assert (Htyped : typed
    = mkWorld d
        (with_noteUpdateTimeout (Some (id, second))
           (with_generatedNotes second u)) s l c).
  { assert (Hstep : forall u0 text,
      activeRecordingId u0 = Some id ->
      handleNotesChange text (mkWorld d u0 s l c)
      = (Normal tt,
         mkWorld d (with_noteUpdateTimeout (Some (id, text))
                      (with_generatedNotes text u0)) s l c)).
    { intros u0 text Hu0.
      unfold handleNotesChange, handleUpdateNotes. unfold_setters.
      do 3 run1. rewrite Hu0, (truthyId_nonzero id Hid). reflexivity. }
    unfold typed. rewrite (Hstep u first Hactive). cbn [snd].
    rewrite Hstep by exact Hactive. reflexivity. }
  assert (Hsaved : exists d' u' r',
    saved = mkWorld d' u' s l c
    /\ storedIn d' id r'
    /\ r' = spread r (Updates.withFormattedNotes (Some second) Updates.none)
    /\ noteUpdateTimeout u' = None).
  { unfold saved. rewrite Htyped.
    unfold noteUpdateTimeoutFires. unfold_setters. run1.
    cbn [noteUpdateTimeout with_noteUpdateTimeout]. run1.
    unfold tryCatch. run1.
    match goal with
    | |- context [updateRecording id ?upd (mkWorld d ?u1 s ?l1 c)] =>
        destruct (updateRecording_stored d u1 s l1 c id upd _ Hstored)
          as (d1 & -> & Hstored1)
    end.
    match goal with
    | |- context [loadRecordings (mkWorld d1 ?u1 s ?l1 c)] =>
        destruct (loadRecordings_stored d1 u1 s l1 c id _ Hstored1)
          as (saved' & ->)
    end.
    eexists _, _, _. split; [reflexivity|]. split; [exact Hstored1|].
    split; reflexivity. }
  destruct Hsaved as (d' & u' & r' & -> & Hstored' & -> & Hpending).
  rewrite Htyped. cbn [db ui calls]. split; [done|]. split; [done|].
  split; [eexists; split; [exact Hstored'|]; by repeat split|].
  split; [|done].
  unfold noteUpdateTimeoutFires, getUI. run1. by rewrite Hpending.
Qed.

Lemma typed_notes_are_saved_once_witness :
  let pieces := [Example.completedChunk 0 "hello"] in
  let w := Example.world (Example.store 5 RS_completed pieces)
                         (Example.showing pieces) Example.alwaysOk in
  let typed :=
    (handleNotesChange (JS.lit "ab") (handleNotesChange (JS.lit "a") w).2).2 in
  let saved := (noteUpdateTimeoutFires typed).2 in
  db typed = db w
  /\ exists r', storedIn (db saved) 7 r'
                /\ Recording.formattedNotes r' = Some (JS.lit "ab").
Proof.
  intros pieces w typed saved.
  destruct (typed_notes_are_saved_once w 7
              (Example.recording 5 RS_completed pieces)
              (JS.lit "a") (JS.lit "ab"))
    as (Hdb & _ & (r' & Hstored & Hnotes & _) & _).
  - eexists. split; [reflexivity|]. split; vm_compute; reflexivity.
  - reflexivity.
  - discriminate.
  - split; [exact Hdb|]. exists r'. split; [exact Hstored | exact Hnotes].
Defined.

(* ===================================================================== *)
(** * The prompt sent with the audio                                      *)
(* ===================================================================== *)

Lemma isPrefix_app (p s : jsstring) : JS.isPrefix p (p ++ s) = true.
Proof.
  induction p as [|c p IH]; [reflexivity|].
  cbn. by rewrite N.eqb_refl, IH.
Qed.

Lemma includes_unfold (s sub : jsstring) :
  JS.includes s sub
  = JS.isPrefix sub s
    || match s with [] => false | _ :: s' => JS.includes s' sub end.
Proof. by destruct s. Qed.

Lemma includes_app (before sub after : jsstring) :
  JS.includes (before ++ sub ++ after) sub = true.
Proof.
  induction before as [|c before IH].
  - rewrite includes_unfold. cbn [app]. by rewrite isPrefix_app.
  - rewrite includes_unfold. cbn [app]. rewrite IH. apply orb_true_r.
Qed.

Lemma includes_app_r (before s sub : jsstring) :
  JS.includes s sub = true -> JS.includes (before ++ s) sub = true.
Proof.
  intros H. induction before as [|c before IH]; [exact H|].
  rewrite includes_unfold. cbn [app]. rewrite IH. apply orb_true_r.
Qed.

Lemma join_elem (sep : jsstring) (parts : list jsstring) (part : jsstring) :
  part ∈ parts ->
  exists before after, JS.join sep parts = before ++ part ++ after.
Proof.
  induction parts as [|p parts IH]; intros Hin; [by inversion Hin|].
  apply elem_of_cons in Hin as [->|Hin].
  - destruct parts as [|q parts].
    + exists [], []. cbn. by rewrite app_nil_r.
    + exists [], (sep ++ JS.join sep (q :: parts)). reflexivity.
  - destruct (IH Hin) as (before & after & Hjoin).
    destruct parts as [|q parts]; [by inversion Hin|].
    exists (p ++ sep ++ before), after.
    change (JS.join sep (p :: q :: parts))
      with (p ++ sep ++ JS.join sep (q :: parts)).
    rewrite Hjoin. by rewrite <- !app_assoc.
Qed.

(** X27. The prompt that goes with the audio always starts with the configured
    transcription prompt. With an empty vocabulary it is that prompt and
    nothing more. Otherwise every item of the vocabulary is in it, as a
    line made of ["- "], the trimmed word and, when the description is
    not blank, [": "] and the trimmed description. *)
Theorem prompt_carries_vocabulary (closure : UIState) :
  let prompt := buildTranscriptionPromptWithVocabulary closure in
  JS.isPrefix (transcriptionPrompt closure) prompt = true
  /\ buildTranscriptionPromptWithVocabulary (with_vocabulary [] closure)
     = transcriptionPrompt closure
  /\ forall item, item ∈ vocabulary closure ->
       JS.includes prompt (vocabularyLine item) = true.
Proof.
  intros prompt. unfold prompt, buildTranscriptionPromptWithVocabulary.
  split; [|split].
  - destruct (vocabulary closure); [|apply isPrefix_app].
    rewrite <- (app_nil_r (transcriptionPrompt closure)) at 2.
    apply isPrefix_app.
  - reflexivity.
  - intros item Hin.
    destruct (vocabulary closure) as [|first rest] eqn:Hvocabulary;
      [by inversion Hin|].
    destruct (join_elem newline (List.map vocabularyLine (first :: rest))
                (vocabularyLine item)) as (before & after & ->).
    { apply list_elem_of_In, in_map, list_elem_of_In, Hin. }
    do 9 apply includes_app_r. rewrite <- !app_assoc.
    apply includes_app.
Qed.

Lemma prompt_carries_vocabulary_witness :
  let closure :=
    Example.withVocabulary
      [VocabularyItem.mk 1 (JS.lit " Kubernetes ") (JS.lit "the platform");
       VocabularyItem.mk 2 (JS.lit "Anja") (JS.lit "  ")] in
  JS.includes (buildTranscriptionPromptWithVocabulary closure)
              (JS.lit "- Kubernetes: the platform") = true
  /\ JS.includes (buildTranscriptionPromptWithVocabulary closure)
                 (JS.lit "- Anja") = true.
Proof.
  intros closure.
  destruct (prompt_carries_vocabulary closure) as (_ & _ & Hitems).
  split.
  - apply (Hitems (VocabularyItem.mk 1 (JS.lit " Kubernetes ")
                                     (JS.lit "the platform"))).
    vm_compute. left.
  - apply (Hitems (VocabularyItem.mk 2 (JS.lit "Anja") (JS.lit "  "))).
    vm_compute. right. left.
Defined.

(* ===================================================================== *)
(** * Templates: the selection                                            *)
(* ===================================================================== *)

Lemma eqb_true (a b : jsstring) : JS.eqb a b = true <-> a = b.
Proof. unfold JS.eqb. apply bool_decide_eq_true. Qed.

Lemma eqb_false (a b : jsstring) : JS.eqb a b = false <-> a <> b.
Proof. unfold JS.eqb. apply bool_decide_eq_false. Qed.

Lemma existsb_eqb_false (name : jsstring) (l : list jsstring) :
  existsb (JS.eqb name) l = false <-> name ∉ l.
Proof.
  induction l as [|x l IH]; cbn.
  - split; [intros _ H; inversion H | done].
  - rewrite orb_false_iff, IH, eqb_false, not_elem_of_cons. tauto.
Qed.

Lemma filter_out_absent (name : jsstring) (l : list jsstring) :
  name ∉ l -> List.filter (fun n => negb (JS.eqb n name)) l = l.
Proof.
  induction l as [|x l IH]; intros Hnotin; [reflexivity|].
  apply not_elem_of_cons in Hnotin as [Hne Hnotin]. cbn.
  rewrite (proj2 (eqb_false x name)) by congruence. cbn. by rewrite IH.
Qed.

Lemma filter_out_insertSelected (templates : list Template)
    (originalIndex : Z) (name : jsstring) (l : list jsstring) :
  name ∉ l ->
  List.filter (fun n => negb (JS.eqb n name))
              (insertSelected templates originalIndex name l) = l.
Proof.
  induction l as [|x l IH]; intros Hnotin.
  - cbn. by rewrite (proj2 (eqb_true name name)).
  - cbn [insertSelected].
    destruct (originalIndex <? templateIndex templates x)%Z.
    + cbn [List.filter]. rewrite (proj2 (eqb_true name name)) by done.
      cbn [negb]. by apply (filter_out_absent name (x :: l)).
    + apply not_elem_of_cons in Hnotin as [Hne Hnotin].
      cbn [List.filter].
      rewrite (proj2 (eqb_false x name)) by congruence. cbn [negb].
      by rewrite IH.
Qed.

Lemma insertSelected_Permutation (templates : list Template)
    (originalIndex : Z) (name : jsstring) (l : list jsstring) :
  insertSelected templates originalIndex name l ≡ₚ name :: l.
Proof.
  induction l as [|x l IH]; [reflexivity|]. cbn [insertSelected].
  destruct (originalIndex <? templateIndex templates x)%Z; [reflexivity|].
  rewrite IH. apply Permutation_swap.
Qed.

Lemma insertSelected_sorted (templates : list Template) (name : jsstring)
    (l : list jsstring) :
  inTemplateOrder templates l ->
  inTemplateOrder templates
    (insertSelected templates (templateIndex templates name) name l).
Proof.
  unfold inTemplateOrder.
  induction 1 as [|x l Hsorted IH Hx]; cbn [insertSelected].
  - repeat constructor.
  - destruct (templateIndex templates name <? templateIndex templates x)%Z
      eqn:Hlt.
    + apply Z.ltb_lt in Hlt. constructor; [by constructor|].
      constructor; [lia|].
      eapply Forall_impl; [exact Hx|]. cbn. intros y Hy. lia.
    + apply Z.ltb_ge in Hlt. constructor; [exact IH|].
      rewrite (insertSelected_Permutation templates _ name l).
      constructor; [exact Hlt | exact Hx].
Qed.

(** X28. Selecting a template that is not selected puts its name into the
    selection at the place given by the order of the template list: a
    selection that follows that order still does, and it holds the same
    names as before plus the new one. Toggling the same name again gives
    back the selection as it was. *)
Theorem toggleTemplateSelection_select (templates : list Template)
    (name : jsstring) (prev : list jsstring)
    (Hnew : name ∉ prev)
    (Hordered : inTemplateOrder templates prev) :
  let next := toggleTemplateSelection templates name prev in
  next ≡ₚ name :: prev
  /\ inTemplateOrder templates next
  /\ toggleTemplateSelection templates name next = prev.
Proof.
  intros next. unfold next, toggleTemplateSelection.
  rewrite (proj2 (existsb_eqb_false name prev) Hnew).
  split; [apply insertSelected_Permutation|].
  split; [by apply insertSelected_sorted|].
  assert (Hin : existsb (JS.eqb name)
                  (insertSelected templates (templateIndex templates name)
                                  name prev) = true).
  { apply existsb_exists. exists name. split; [|by apply eqb_true].
    apply list_elem_of_In. rewrite insertSelected_Permutation. left. }
  rewrite Hin. by apply filter_out_insertSelected.
Qed.

Lemma toggleTemplateSelection_select_witness :
  let templates :=
    [Template.mk (JS.lit "Actions") (JS.lit "List the actions.");
     Template.mk (JS.lit "Decisions") (JS.lit "List the decisions.");
     Template.mk (JS.lit "Summary") (JS.lit "Summarise.")] in
  let prev := [JS.lit "Actions"; JS.lit "Summary"] in
  let next := toggleTemplateSelection templates (JS.lit "Decisions") prev in
  next = [JS.lit "Actions"; JS.lit "Decisions"; JS.lit "Summary"]
  /\ toggleTemplateSelection templates (JS.lit "Decisions") next = prev.
Proof.
  intros templates prev next.
  destruct (toggleTemplateSelection_select templates (JS.lit "Decisions") prev)
    as (_ & _ & Hback).
  - apply existsb_eqb_false. vm_compute. reflexivity.
  - unfold inTemplateOrder, prev. repeat constructor. vm_compute. discriminate.
  - split; [vm_compute; reflexivity | exact Hback].
Defined.

(** X29. The selection stays valid: when every selected name is the name of a
    template and no name is selected twice, this is still so after
    toggling the name of a template, and after a template was deleted;
    the deleted template is then neither in the list nor in the
    selection. *)
Theorem selection_stays_valid (templates : list Template)
    (selected : list jsstring) (name : jsstring)
    (Hvalid : selectionValid templates selected) :
  ((exists t, t ∈ templates /\ Template.name t = name) ->
     selectionValid templates
       (toggleTemplateSelection templates name selected))
  /\ (let after := deleteTemplate (Some name) templates selected in
      selectionValid after.1 after.2
      /\ (name <> [] ->
            (name ∉ after.2)
            /\ forall t, t ∈ after.1 -> Template.name t <> name)).
Proof.
  destruct Hvalid as [Hnodup Hnames]. split.
  - intros Htemplate. unfold toggleTemplateSelection.
    destruct (existsb (JS.eqb name) selected) eqn:Hin.
    + split.
      * clear Hnames Hin. induction Hnodup as [|x l Hx Hl IH]; cbn;
          [constructor|].
        destruct (negb (JS.eqb x name)); [|exact IH].
        constructor; [|exact IH].
        rewrite list_elem_of_In, filter_In, <- list_elem_of_In. tauto.
      * intros n Hn. apply list_elem_of_In, filter_In in Hn as [Hn _].
        apply Hnames. by apply list_elem_of_In.
    + apply existsb_eqb_false in Hin. split.
      * rewrite insertSelected_Permutation. by constructor.
      * intros n Hn. rewrite insertSelected_Permutation in Hn.
        apply elem_of_cons in Hn as [->|Hn]; [exact Htemplate|].
        by apply Hnames.
  - unfold deleteTemplate. destruct name as [|c0 rest].
    + cbn. split; [by split|done].
    + set (name := c0 :: rest). cbn [JS.truthy negb fst snd].
      split; [split|].
      * clear Hnames. induction Hnodup as [|x l Hx Hl IH]; cbn;
          [constructor|].
        destruct (negb (JS.eqb x name)); [|exact IH].
        constructor; [|exact IH].
        rewrite list_elem_of_In, filter_In, <- list_elem_of_In. tauto.
      * intros n Hn. apply list_elem_of_In, filter_In in Hn as [Hn Hne].
        destruct (Hnames n) as (t & Ht & Heq); [by apply list_elem_of_In|].
        exists t. split; [|exact Heq].
        apply list_elem_of_In, filter_In. split; [by apply list_elem_of_In|].
        by rewrite Heq.
      * intros _. split.
        -- intros Hn. apply list_elem_of_In, filter_In in Hn as [_ Hne].
           by rewrite (proj2 (eqb_true name name)) in Hne.
        -- intros t Ht. apply list_elem_of_In, filter_In in Ht as [_ Hne].
           apply negb_true_iff in Hne. by apply eqb_false in Hne.
Qed.

Lemma selection_stays_valid_witness :
  let templates :=
    [Template.mk (JS.lit "Actions") (JS.lit "List the actions.");
     Template.mk (JS.lit "Summary") (JS.lit "Summarise.")] in
  let selected := [JS.lit "Summary"] in
  selectionValid templates
    (toggleTemplateSelection templates (JS.lit "Actions") selected)
  /\ (JS.lit "Summary"
      ∉ (deleteTemplate (Some (JS.lit "Summary")) templates selected).2).
Proof.
  intros templates selected.
  assert (Hvalid : selectionValid templates selected).
  { split; [repeat constructor; by inversion 1|].
    intros name Hname. apply list_elem_of_singleton in Hname as ->.
    exists (Template.mk (JS.lit "Summary") (JS.lit "Summarise.")).
    split; [right; left | reflexivity]. }
  split.
  - apply (proj1 (selection_stays_valid templates selected (JS.lit "Actions")
                    Hvalid)).
    exists (Template.mk (JS.lit "Actions") (JS.lit "List the actions.")).
    split; [left | reflexivity].
  - apply (proj2 (selection_stays_valid templates selected (JS.lit "Summary")
                    Hvalid)).
    vm_compute. discriminate.
Defined.

(* ===================================================================== *)
(** * The vocabulary dialog                                               *)
(* ===================================================================== *)

(** X30. What the vocabulary dialog saves never has an item with a blank word.
    A row that was added and left empty is dropped when saving: what is
    saved is what would have been saved without it. A row that was added
    and whose word was then typed is saved as the last item, with the id
    it got when it was added and the word as typed. Deleting the row that
    was just added gives back the rows as they were, provided no other
    row has the same id (ids are clock values). *)
Theorem vocabulary_dialog_saves_filled_rows (timestamp : Z)
    (localVocabulary : list VocabularyItem) (value : jsstring) :
  let added := VocabularyModal.handleAddItem timestamp localVocabulary in
  Forall (fun item => JS.trim (VocabularyItem.word item) <> [])
         (VocabularyModal.handleSave localVocabulary)
  /\ VocabularyModal.handleSave added
     = VocabularyModal.handleSave localVocabulary
  /\ (JS.trim value <> [] ->
      VocabularyModal.handleSave
        <$> VocabularyModal.handleItemChange (length localVocabulary)
              VocabularyModal.word value added
      = Some (VocabularyModal.handleSave localVocabulary
              ++ [VocabularyItem.mk timestamp value []]))
  /\ (Forall (fun item => VocabularyItem.id item <> timestamp)
             localVocabulary ->
      VocabularyModal.handleDeleteItem timestamp added = localVocabulary).
Proof.
  intros added. unfold added, VocabularyModal.handleSave,
    VocabularyModal.handleAddItem, VocabularyModal.handleItemChange,
    VocabularyModal.handleDeleteItem.
  split; [|split; [|split]].
  - apply Forall_forall. intros item Hin.
    apply list_elem_of_In, filter_In in Hin as [_ Hword].
    by destruct (JS.trim (VocabularyItem.word item)).
  - rewrite List.filter_app. cbn. apply app_nil_r.
  - intros Hvalue. rewrite length_app. cbn [length].
    rewrite (proj2 (Nat.ltb_lt _ _)) by lia. cbn [fmap option_fmap option_map].
    f_equal.
    replace (length localVocabulary) with (length localVocabulary + 0) by lia.
    rewrite alter_app_r. rewrite List.filter_app.
    cbn [alter list_alter List.filter VocabularyModal.withField
         VocabularyItem.word VocabularyItem.id VocabularyItem.description].
    by destruct (JS.trim value).
  - intros Hfresh. rewrite List.filter_app. cbn [List.filter VocabularyItem.id].
    rewrite Z.eqb_refl. cbn [negb]. rewrite app_nil_r.
    induction Hfresh as [|item rest Hitem Hrest IH]; [reflexivity|].
    cbn [List.filter].
    rewrite (proj2 (Z.eqb_neq _ _) Hitem). cbn [negb]. by rewrite IH.
Qed.

Lemma vocabulary_dialog_saves_filled_rows_witness :
  let localVocabulary := [VocabularyItem.mk 1 (JS.lit "Anja") []] in
  VocabularyModal.handleSave
    <$> VocabularyModal.handleItemChange 1 VocabularyModal.word
          (JS.lit "Kubernetes")
          (VocabularyModal.handleAddItem 2 localVocabulary)
  = Some [VocabularyItem.mk 1 (JS.lit "Anja") [];
          VocabularyItem.mk 2 (JS.lit "Kubernetes") []]
  /\ VocabularyModal.handleDeleteItem 2
       (VocabularyModal.handleAddItem 2 localVocabulary)
     = localVocabulary.
Proof.
  intros localVocabulary.
  destruct (vocabulary_dialog_saves_filled_rows 2 localVocabulary
              (JS.lit "Kubernetes")) as (_ & _ & Htyped & Hdeleted).
  split.
  - apply Htyped. vm_compute. discriminate.
  - apply Hdeleted. repeat constructor. vm_compute. discriminate.
Defined.
